(** * audio_splitter: marker partition, persistence, silence regions and export

    A shallow embedding of [marker_manager.py] and [audio_processor.py], of
    the computations of [waveform_widget.py] (zoom, scroll, the time under a
    pixel, the clicks that change the markers) and of the handlers of
    [audio_splitter_app.py] that connect them.

    Conventions of the embedding:
    - a Python [float] holding a time in seconds is an exact rational [Q];
      equality of two floats as Python's [==] is [Qeq_bool], identity of two
      lists of floats is Leibniz equality.  NaN, infinities and rounding of
      the binary representation are outside the model;
    - a Python [int] is [Z] (or [nat] where the code only counts);
    - [list.sort] and [sorted] are a stable sort by [<=];
    - an operation of the class [MarkerManager] takes the object and returns
      the object after the call together with the returned value; so do the
      operations of the widget, whose width, kept by Qt, is an argument;
    - what comes from [librosa], [soundfile], [pydub] and [json] is either an
      argument of the embedded function or an explicit oracle. *)

From Stdlib Require Import QArith Qabs Qround Lqa ZArith Lia Ascii.
From stdpp Require Import base list gmap strings pretty.

Local Open Scope Q_scope.

(** ** Python primitives used by the modules *)

Module Py.

(** A Python [float]. *)
Abbreviation float := Q.

(** [a < b] on floats. *)
Definition ltb (a b : float) : bool := negb (Qle_bool b a).

(** [a >= b] on floats. *)
Definition geb (a b : float) : bool := Qle_bool b a.

(** [abs(x)]. *)
Definition abs (x : float) : float := Qabs x.

(** One step of a stable insertion: [x] goes in front of the first element
    that is not smaller than it. *)
Fixpoint insert (x : float) (l : list float) : list float :=
  match l with
  | [] => [x]
  | y :: l' => if Qle_bool x y then x :: y :: l' else y :: insert x l'
  end.

(** [sorted(l)], and the list left by [l.sort()]. *)
Fixpoint sorted (l : list float) : list float :=
  match l with
  | [] => []
  | x :: l' => insert x (sorted l')
  end.

(** [int(x)] on a float: truncation toward zero. *)
Definition int (x : float) : Z := Z.quot (Qnum x) (Z.pos (Qden x)).


(** [x in l] for a list of pairs of floats. *)
Definition pair_eqb (p q : float * float) : bool :=
  Qeq_bool (fst p) (fst q) && Qeq_bool (snd p) (snd q).

(** The position a slice bound stands for in a sequence of [n] items: a
    negative bound counts from the end, and every bound is clamped to
    [0 .. n]. *)
Definition slice_bound (n : nat) (i : Z) : nat :=
  if (i <? 0)%Z then Z.to_nat (Z.max 0 (Z.of_nat n + i))
  else Nat.min (Z.to_nat i) n.

(** [a[i:j]] *)
Definition slice {A} (a : list A) (i j : Z) : list A :=
  let lo := slice_bound (length a) i in
  let hi := slice_bound (length a) j in
  take (hi - lo)%nat (drop lo a).

(** The exceptions the embedded code can meet. *)
Inductive exn :=
| FileNotFoundError | PermissionError | JSONDecodeError
| AttributeError | TypeError | ValueError | KeyError
| OSError | EncoderError.

(** [c.lower()] on one ASCII character. *)
Definition lower_ascii (c : ascii) : ascii :=
  let n := nat_of_ascii c in
  if ((65 <=? n) && (n <=? 90))%nat then ascii_of_nat (n + 32) else c.

(** [s.lower()] on an ASCII string. *)
Fixpoint lower (s : string) : string :=
  match s with
  | EmptyString => EmptyString
  | String c s' => String (lower_ascii c) (lower s')
  end.

(** [s.endswith(suffix)]. *)
Definition endswith (s suffix : string) : bool :=
  let n := String.length s in
  let m := String.length suffix in
  (m <=? n)%nat && String.eqb (String.substring (n - m) m s) suffix.

(** [str(n)] on an int. *)
Definition str (n : Z) : string := pretty n.

(** [s.zfill(width)] on a string without a sign. *)
Fixpoint zeros (n : nat) : string :=
  match n with
  | O => EmptyString
  | S n' => String "0" (zeros n')
  end.

Definition zfill (s : string) (width : nat) : string :=
  String.app (zeros (width - String.length s)) s.

(** [os.path.join(a, b)] on POSIX paths. *)
Definition path_join (a b : string) : string :=
  if String.prefix "/" b then b
  else if String.eqb a "" || endswith a "/" then String.app a b
  else String.app a (String.app "/" b).

(** [a / b] on floats: [None] for the [ZeroDivisionError] of a zero
    divisor. *)
Definition truediv (a b : float) : option float :=
  if Qeq_bool b 0 then None else Some (a / b).

(** [max(a, b)]: the second argument when it is greater, else the first. *)
Definition max (a b : float) : float := if ltb a b then b else a.

(** [min(a, b)]: the second argument when it is smaller, else the first. *)
Definition min (a b : float) : float := if ltb b a then b else a.



End Py.

(** ** The values [json.load] returns and the files of the marker store *)

Module Json.

(** A parsed JSON document as the Python value [json.load] gives: [None],
    [bool], a number, [str], [list], and [dict] as its items in order (a key
    occurs once). *)
#[warnings="-register-all"] Inductive value :=
| Null
| Bool (b : bool)
| Num (q : Py.float)
| Str (s : string)
| Arr (l : list value)
| Obj (kv : list (string * value)).

(** [d.get(key)]: [None] when the key is absent. *)
Fixpoint get (key : string) (kv : list (string * value)) : option value :=
  match kv with
  | [] => None
  | (k, v) :: kv' => if String.eqb k key then Some v else get key kv'
  end.

(** [isinstance(v, list)] *)
Definition is_list (v : value) : bool :=
  match v with Arr _ => true | _ => false end.

(** The floats of a list whose elements are all numbers. *)
Fixpoint floats (l : list value) : option (list Py.float) :=
  match l with
  | [] => Some []
  | Num q :: l' => option_map (cons q) (floats l')
  | _ :: _ => None
  end.

End Json.

Module Fs.

(** What [open(path, 'r')] followed by [json.load] meets: a file that does
    not parse, or a document. *)
Inductive content :=
| Garbage
| Document (j : Json.value).

(** The files by path, and the paths [open(path, 'w')] is refused on. *)
Record t := mk {
  files : gmap string content;
  locked : gset string
}.

Definition write (fs : t) (path : string) (c : content) : t :=
  {| files := <[path := c]> (files fs); locked := locked fs |}.

End Fs.

(** ** marker_manager.py *)

Module MarkerManager.

Record t := mk {
  markers : list Py.float;
  excluded_splits : list (Py.float * Py.float);
  audio_filename : option string;
  audio_duration : Py.float
}.

(** [__init__] *)
Definition init : t :=
  {| markers := []; excluded_splits := []; audio_filename := None;
     audio_duration := 0 |}.

Definition with_markers (self : t) (ms : list Py.float) : t :=
  {| markers := ms; excluded_splits := excluded_splits self;
     audio_filename := audio_filename self;
     audio_duration := audio_duration self |}.

(** [abs(existing_time - time) < tolerance] *)
Definition near (tolerance time existing_time : Py.float) : bool :=
  Py.ltb (Py.abs (existing_time - time)) tolerance.

Definition add_tolerance : Py.float := 1 # 100.

(** [add_marker(time)] *)
Definition add_marker (self : t) (time : Py.float) : t * bool :=
  if existsb (near add_tolerance time) (markers self)
  then (self, false)
  else (with_markers self (Py.sorted (markers self ++ [time])), true).

(** [list.remove(x)]: drops the first element equal to [x]. *)
Fixpoint list_remove (x : Py.float) (l : list Py.float) : list Py.float :=
  match l with
  | [] => []
  | y :: l' => if Qeq_bool y x then l' else y :: list_remove x l'
  end.

(** [remove_marker(time, tolerance)] *)
Definition remove_marker (self : t) (time tolerance : Py.float) : t * bool :=
  match find (near tolerance time) (markers self) with
  | Some marker_time =>
      (with_markers self (list_remove marker_time (markers self)), true)
  | None => (self, false)
  end.

(** The index of the first marker the loop of [move_marker] stops at. *)
Fixpoint find_index (f : Py.float -> bool) (l : list Py.float) : option nat :=
  match l with
  | [] => None
  | y :: l' => if f y then Some O else option_map S (find_index f l')
  end.

(** [move_marker(old_time, new_time, tolerance)] *)
Definition move_marker (self : t) (old_time new_time tolerance : Py.float)
  : t * bool :=
  match find_index (near tolerance old_time) (markers self) with
  | Some i =>
      (with_markers self (Py.sorted (<[i := new_time]> (markers self))), true)
  | None => (self, false)
  end.

(** [clear_markers()] *)
Definition clear_markers (self : t) : t :=
  {| markers := []; excluded_splits := [];
     audio_filename := audio_filename self;
     audio_duration := audio_duration self |}.

(** [set_markers(markers)] *)
Definition set_markers (self : t) (ms : list Py.float) : t :=
  with_markers self (Py.sorted ms).

(** [_get_splits()] *)
Definition _get_splits (self : t) : list (Py.float * Py.float) :=
  match markers self with
  | [] => []
  | m0 :: _ =>
      [(0, m0)]
      ++ map (fun i => (nth i (markers self) 0, nth (i + 1) (markers self) 0))
             (seq 0 (length (markers self) - 1))
      ++ [(List.last (markers self) 0, audio_duration self)]
  end.

(** [split_range in self.excluded_splits] *)
Definition is_excluded (self : t) (split_range : Py.float * Py.float) : bool :=
  existsb (Py.pair_eqb split_range) (excluded_splits self).

(** [list.remove(x)] on a list of pairs. *)
Fixpoint list_remove_pair (x : Py.float * Py.float)
  (l : list (Py.float * Py.float)) : list (Py.float * Py.float) :=
  match l with
  | [] => []
  | y :: l' => if Py.pair_eqb y x then l' else y :: list_remove_pair x l'
  end.

(** [toggle_split_exclusion(split_index)] for an index that is not
    negative. *)
Definition toggle_split_exclusion (self : t) (split_index : nat) : t * bool :=
  match nth_error (_get_splits self) split_index with
  | None => (self, false)
  | Some split_range =>
      if is_excluded self split_range then
        ({| markers := markers self;
            excluded_splits :=
              list_remove_pair split_range (excluded_splits self);
            audio_filename := audio_filename self;
            audio_duration := audio_duration self |}, false)
      else
        ({| markers := markers self;
            excluded_splits := excluded_splits self ++ [split_range];
            audio_filename := audio_filename self;
            audio_duration := audio_duration self |}, true)
  end.

(** [is_split_excluded(split_index)] for an index that is not negative. *)
Definition is_split_excluded (self : t) (split_index : nat) : bool :=
  match nth_error (_get_splits self) split_index with
  | None => false
  | Some split_range => is_excluded self split_range
  end.

(** [get_excluded_splits()]: the indices of the current splits whose range
    is among the exclusions. *)
Definition get_excluded_splits (self : t) : list Z :=
  let splits := _get_splits self in
  map (fun p => Z.of_nat (fst p))
      (List.filter (fun p => is_excluded self (snd p))
         (combine (seq 0 (length splits)) splits)).

Definition with_audio_filename (self : t) (f : option string) : t :=
  {| markers := markers self; excluded_splits := excluded_splits self;
     audio_filename := f; audio_duration := audio_duration self |}.

Definition with_audio_duration (self : t) (d : Py.float) : t :=
  {| markers := markers self; excluded_splits := excluded_splits self;
     audio_filename := audio_filename self; audio_duration := d |}.

Definition with_excluded_splits (self : t) (ex : list (Py.float * Py.float)) : t :=
  {| markers := markers self; excluded_splits := ex;
     audio_filename := audio_filename self;
     audio_duration := audio_duration self |}.

(** The messages of [save_to_json] and [load_from_json]; a path is shown
    through [os.path.basename], an exception through [str]. *)
Inductive message :=
| MarkersSaved (filepath : string)
| ErrorSaving (e : Py.exn)
| Loaded (n : nat)
| ErrorLoading (e : Py.exn).

(** The dict [save_to_json] dumps. *)
Definition to_data (self : t) : Json.value :=
  Json.Obj
    [ ("audio_filename"%string,
        match audio_filename self with
        | None => Json.Null
        | Some f => Json.Str f
        end);
      ("markers"%string, Json.Arr (map Json.Num (markers self)));
      ("excluded_splits"%string,
        Json.Arr (map (fun se => Json.Arr [Json.Num (fst se); Json.Num (snd se)])
                      (excluded_splits self)));
      ("audio_duration"%string, Json.Num (audio_duration self)) ].

(** The path [save_to_json] writes: [.json] is appended unless the path
    ends with it in any case. *)
Definition json_path (filepath : string) : string :=
  if Py.endswith (Py.lower filepath) ".json" then filepath
  else String.app filepath ".json".

(** [save_to_json(filepath)]: the object is read only, the file store is
    written. *)
Definition save_to_json (self : t) (fs : Fs.t) (filepath : string)
  : Fs.t * (bool * message) :=
  let filepath := json_path filepath in
  if decide (filepath ∈ Fs.locked fs)
  then (fs, (false, ErrorSaving Py.PermissionError))
  else (Fs.write fs filepath (Fs.Document (to_data self)),
        (true, MarkersSaved filepath)).

(** How far a run of the [try] block of [load_from_json] gets: to its end,
    to an exception, or out of the typed object. *)
Inductive outcome :=
| Ok (self : t)
| Raise (e : Py.exn) (self : t)
| Unmodelled.

(** [data.get("audio_filename")]: [None] when the file stores a value that
    is neither [null] nor a string. *)
Definition field_audio_filename (kv : list (string * Json.value))
  : option (option string) :=
  match Json.get "audio_filename" kv with
  | None | Some Json.Null => Some None
  | Some (Json.Str f) => Some (Some f)
  | Some _ => None
  end.

Inductive sorted_result :=
| SortedOk (ms : list Py.float)
| SortedRaise (e : Py.exn)
| SortedOther.

(** [sorted(data.get("markers", []))]: a list of numbers is sorted; [null],
    a boolean and a number are not iterable; an empty string or dict gives
    the empty list; every other value gives a list that is not a list of
    floats, or a comparison of values of two types. *)
Definition field_markers (kv : list (string * Json.value)) : sorted_result :=
  match Json.get "markers" kv with
  | None => SortedOk []
  | Some (Json.Arr l) =>
      match Json.floats l with
      | Some ms => SortedOk (Py.sorted ms)
      | None => SortedOther
      end
  | Some Json.Null | Some (Json.Bool _) | Some (Json.Num _) =>
      SortedRaise Py.TypeError
  | Some (Json.Str s) => if String.eqb s "" then SortedOk [] else SortedOther
  | Some (Json.Obj kv') =>
      match kv' with [] => SortedOk [] | _ :: _ => SortedOther end
  end.

(** [data.get("audio_duration", 0.0)]: [None] when the file stores a value
    that is not a number. *)
Definition field_audio_duration (kv : list (string * Json.value))
  : option Py.float :=
  match Json.get "audio_duration" kv with
  | None => Some 0
  | Some (Json.Num d) => Some d
  | Some _ => None
  end.

Inductive unpacked :=
| Unpacked (start end_ : Py.float)
| UnpackedOther
| UnpackRaise (e : Py.exn).

(** [start, end = item]: a list, string or dict of two items unpacks, of
    another length raises [ValueError]; [null], a boolean and a number are
    not iterable. *)
Definition unpack (item : Json.value) : unpacked :=
  match item with
  | Json.Arr [Json.Num s; Json.Num e] => Unpacked s e
  | Json.Arr [_; _] => UnpackedOther
  | Json.Arr _ => UnpackRaise Py.ValueError
  | Json.Str s =>
      if (String.length s =? 2)%nat then UnpackedOther
      else UnpackRaise Py.ValueError
  | Json.Obj kv =>
      if (length kv =? 2)%nat then UnpackedOther
      else UnpackRaise Py.ValueError
  | Json.Null | Json.Bool _ | Json.Num _ => UnpackRaise Py.TypeError
  end.

Inductive pairs_result :=
| Pairs (ps : list (Py.float * Py.float))
| PairsRaise (e : Py.exn)
| PairsOther.

(** [[(start, end) for start, end in items]]: the first item that does not
    unpack raises, whatever the items before it hold. *)
Fixpoint comprehension (items : list Json.value) : pairs_result :=
  match items with
  | [] => Pairs []
  | item :: items' =>
      match unpack item with
      | UnpackRaise e => PairsRaise e
      | Unpacked s e =>
          match comprehension items' with
          | Pairs ps => Pairs ((s, e) :: ps)
          | r => r
          end
      | UnpackedOther =>
          match comprehension items' with
          | PairsRaise e => PairsRaise e
          | _ => PairsOther
          end
      end
  end.

(** The exclusions of the file: the value of
    [data.get("excluded_splits", [])] is tested for truth, its item [0] is
    taken and tested for being a list.  A falsy value, and a non-empty list
    or string whose first item is not a list, give the empty list of the
    old format; [True] and a non-zero number have no item [0]
    ([TypeError]); a non-empty dict has no key [0] ([KeyError]). *)
Definition field_excluded_splits (kv : list (string * Json.value))
  : pairs_result :=
  match Json.get "excluded_splits" kv with
  | None => Pairs []
  | Some (Json.Arr []) => Pairs []
  | Some (Json.Arr (first :: rest)) =>
      if Json.is_list first then comprehension (first :: rest) else Pairs []
  | Some Json.Null | Some (Json.Bool false) | Some (Json.Str _) => Pairs []
  | Some (Json.Bool true) => PairsRaise Py.TypeError
  | Some (Json.Num q) =>
      if Qeq_bool q 0 then Pairs [] else PairsRaise Py.TypeError
  | Some (Json.Obj []) => Pairs []
  | Some (Json.Obj (_ :: _)) => PairsRaise Py.KeyError
  end.

(** [open(filepath, 'r')] and [json.load]. *)
Definition read_json (fs : Fs.t) (filepath : string) : Py.exn + Json.value :=
  match Fs.files fs !! filepath with
  | None => inl Py.FileNotFoundError
  | Some Fs.Garbage => inl Py.JSONDecodeError
  | Some (Fs.Document data) => inr data
  end.

(** The body of the [try] block of [load_from_json], one assignment after
    the other. *)
Definition load_body (self : t) (fs : Fs.t) (filepath : string) : outcome :=
  match read_json fs filepath with
  | inl e => Raise e self
  | inr (Json.Obj kv) =>
      match field_audio_filename kv with
      | None => Unmodelled
      | Some f =>
          let self := with_audio_filename self f in
          match field_markers kv with
          | SortedOther => Unmodelled
          | SortedRaise e => Raise e self
          | SortedOk ms =>
              let self := with_markers self ms in
              match field_audio_duration kv with
              | None => Unmodelled
              | Some d =>
                  let self := with_audio_duration self d in
                  match field_excluded_splits kv with
                  | PairsOther => Unmodelled
                  | PairsRaise e => Raise e self
                  | Pairs ps => Ok (with_excluded_splits self ps)
                  end
              end
          end
      end
  | inr _ => Raise Py.AttributeError self
  end.

(** [load_from_json(filepath)]: the object after the call and the returned
    triple; [None] for a run that leaves the typed object. *)
Definition load_from_json (self : t) (fs : Fs.t) (filepath : string)
  : option (t * (bool * message * option string)) :=
  match load_body self fs filepath with
  | Ok self' =>
      Some (self', (true, Loaded (length (markers self')), audio_filename self'))
  | Raise e self' => Some (self', (false, ErrorLoading e, None))
  | Unmodelled => None
  end.


(** [set_audio_filename(filename)] *)
Definition set_audio_filename (self : t) (filename : string) : t :=
  with_audio_filename self (Some filename).

(** [set_audio_duration(duration)] *)
Definition set_audio_duration (self : t) (duration : Py.float) : t :=
  with_audio_duration self duration.

(** [splits[idx]] for an int: a negative index counts from the end; [None]
    for the [IndexError] of an index out of range. *)
Definition item {A} (l : list A) (idx : Z) : option A :=
  if (idx <? 0)%Z then
    if (- Z.of_nat (length l) <=? idx)%Z
    then nth_error l (Z.to_nat (Z.of_nat (length l) + idx))
    else None
  else nth_error l (Z.to_nat idx).

(** The loop of [set_excluded_splits_by_indices]: [None] when [splits[idx]]
    raises. *)
Fixpoint collect_splits (splits : list (Py.float * Py.float))
  (excluded_indices : list Z) (acc : list (Py.float * Py.float))
  : option (list (Py.float * Py.float)) :=
  match excluded_indices with
  | [] => Some acc
  | idx :: rest =>
      if (idx <? Z.of_nat (length splits))%Z then
        match item splits idx with
        | Some split_range => collect_splits splits rest (acc ++ [split_range])
        | None => None
        end
      else collect_splits splits rest acc
  end.

(** [set_excluded_splits_by_indices(excluded_indices)]: [None] when it
    raises [IndexError], which leaves the exclusions it has collected so far
    in the object. *)
Definition set_excluded_splits_by_indices (self : t) (excluded_indices : list Z)
  : option t :=
  option_map (with_excluded_splits self)
    (collect_splits (_get_splits self) excluded_indices []).

(** [set_excluded_splits_by_ranges(excluded_ranges)] *)
Definition set_excluded_splits_by_ranges (self : t)
  (excluded_ranges : list (Py.float * Py.float)) : t :=
  with_excluded_splits self excluded_ranges.

End MarkerManager.

(** ** audio_processor.py *)

Module AudioProcessor.

(** A decoded buffer as [librosa.load(sr=None, mono=False)] gives it: an array
    of shape [(N,)] for a file of one channel, of shape [(C, N)] with
    [C >= 2] otherwise, one row per channel. *)
Inductive ndarray :=
| Mono (y : list Py.float)
| Multi (c0 c1 : list Py.float) (rest : list (list Py.float)).

Definition rows (a : ndarray) : list (list Py.float) :=
  match a with
  | Mono y => [y]
  | Multi c0 c1 rest => c0 :: c1 :: rest
  end.

(** The number of frames, [a.shape[-1]]. *)
Definition frames (a : ndarray) : nat :=
  match a with
  | Mono y => length y
  | Multi c0 _ _ => length c0
  end.

(** What the module takes from [os], [librosa], [soundfile] and [pydub]:
    - [rms_db y]: [librosa.amplitude_to_db(librosa.feature.rms(y=y,
      frame_length=2048, hop_length=512)[0], ref=np.max)];
    - [resample y orig_sr target_sr]: [librosa.resample] on one channel;
    - whether [os.makedirs], [sf.write] and [AudioSegment.export] succeed on
      a path. *)
Record Lib := mkLib {
  rms_db : list Py.float -> list Py.float;
  resample : list Py.float -> Z -> Z -> list Py.float;
  makedirs_ok : string -> bool;
  sf_write_ok : string -> bool;
  encode_ok : string -> bool
}.

(** The object.  [self.channels] is written by [__init__] and [load_audio]
    only, as [1] for an array of one dimension and as [shape[0]] otherwise:
    it is read off the array. *)
Record t := mk {
  audio_data : option ndarray;
  sample_rate : Z;
  duration : Py.float;
  filepath : option string
}.

Definition channels (self : t) : Z :=
  match audio_data self with
  | Some (Multi _ _ rest) => 2 + Z.of_nat (length rest)
  | _ => 1
  end.

(** [__init__] *)
Definition init : t :=
  {| audio_data := None; sample_rate := 44100; duration := 0;
     filepath := None |}.

Inductive load_message :=
| LoadedSuccessfully (filepath : string)
| ErrorLoadingAudio (e : Py.exn).

(** [load_audio(filepath)], on what [librosa.load] gives for the path: an
    exception, or the array and the sample rate of the file. *)
Definition load_audio (self : t) (decoded : Py.exn + ndarray * Z)
  (path : string) : t * (bool * load_message) :=
  match decoded with
  | inl e => (self, (false, ErrorLoadingAudio e))
  | inr (data, sr) =>
      ({| audio_data := Some data; sample_rate := sr;
          duration := inject_Z (Z.of_nat (frames data)) / inject_Z sr;
          filepath := Some path |},
       (true, LoadedSuccessfully path))
  end.

(** Sum of two rows, sample by sample. *)
Definition add_rows (a b : list Py.float) : list Py.float :=
  zip_with Qplus a b.

(** [np.mean(a, axis=0)] on the rows of an array of two dimensions. *)
Definition mean_axis0 (c0 : list Py.float) (cs : list (list Py.float))
  : list Py.float :=
  map (fun x => x / inject_Z (Z.of_nat (S (length cs))))
      (fold_left add_rows cs c0).

(** The mono signal the analysis runs on: the mean of the channels when
    there are two or more, the array itself otherwise. *)
Definition to_mono (a : ndarray) : list Py.float :=
  match a with
  | Mono y => y
  | Multi c0 c1 rest => mean_axis0 c0 (c1 :: rest)
  end.

Definition frame_length : Z := 2048.
Definition hop_length : Z := 512.

(** [librosa.frames_to_time(i, sr=sr, hop_length=hop_length)] *)
Definition frames_to_time (sr : Z) (i : nat) : Py.float :=
  inject_Z (Z.of_nat i * hop_length) / inject_Z sr.

(** The variables of the loop of [detect_silence]. *)
Record scan := mkScan {
  silent_regions : list (Py.float * Py.float);
  in_silence : bool;
  silence_start : Py.float
}.

(** One turn of the loop of [detect_silence] on [(is_silent, time)]. *)
Definition scan_step (min_silence_duration : Py.float) (st : scan)
  (frame : bool * Py.float) : scan :=
  let (is_silent, time) := frame in
  if is_silent && negb (in_silence st) then
    {| silent_regions := silent_regions st; in_silence := true;
       silence_start := time |}
  else if negb is_silent && in_silence st then
    let silence_end := time in
    let duration := silence_end - silence_start st in
    {| silent_regions :=
         if Py.geb duration min_silence_duration
         then silent_regions st ++ [(silence_start st, silence_end)]
         else silent_regions st;
       in_silence := false;
       silence_start := silence_start st |}
  else st.

(** What [detect_silence] does once the loop is over. *)
Definition scan_close (min_silence_duration end_time : Py.float) (st : scan)
  : list (Py.float * Py.float) :=
  if in_silence st then
    let silence_end := end_time in
    let duration := silence_end - silence_start st in
    if Py.geb duration min_silence_duration
    then silent_regions st ++ [(silence_start st, silence_end)]
    else silent_regions st
  else silent_regions st.

(** [detect_silence(threshold_db, min_silence_duration)] *)
Definition detect_silence (lib : Lib) (self : t)
  (threshold_db min_silence_duration : Py.float)
  : list (Py.float * Py.float) :=
  match audio_data self with
  | None => []
  | Some audio =>
      let audio_mono := to_mono audio in
      let rms_db := rms_db lib audio_mono in
      let silent_frames := map (fun x => Py.ltb x threshold_db) rms_db in
      let times := map (frames_to_time (sample_rate self))
                       (seq 0 (length rms_db)) in
      let st := fold_left (scan_step min_silence_duration)
                  (zip silent_frames times)
                  {| silent_regions := []; in_silence := false;
                     silence_start := 0 |} in
      scan_close min_silence_duration (duration self) st
  end.

(** [a[..., i:j]]: the slice along the frames, which is [a[i:j]] for one
    channel and [a[:, i:j]] for more. *)
Definition slice_frames (a : ndarray) (i j : Z) : ndarray :=
  match a with
  | Mono y => Mono (Py.slice y i j)
  | Multi c0 c1 rest =>
      Multi (Py.slice c0 i j) (Py.slice c1 i j)
            (map (fun c => Py.slice c i j) rest)
  end.

(** The index of the first [true], [np.where(b)[0][0]]. *)
Fixpoint first_true (b : list bool) : option nat :=
  match b with
  | [] => None
  | x :: b' => if x then Some O else option_map S (first_true b')
  end.

(** The index of the last [true], [np.where(b)[0][-1]]. *)
Fixpoint last_true (b : list bool) : option nat :=
  match b with
  | [] => None
  | x :: b' =>
      match last_true b' with
      | Some i => Some (S i)
      | None => if x then Some O else None
      end
  end.

(** [_trim_silence(audio, threshold_db)] *)
Definition _trim_silence (lib : Lib) (audio : ndarray) (threshold_db : Py.float)
  : ndarray :=
  let audio_mono := to_mono audio in
  let energy_db := rms_db lib audio_mono in
  let non_silent := map (fun x => Py.ltb threshold_db x) energy_db in
  match first_true non_silent, last_true non_silent with
  | Some start_frame, Some end_frame =>
      let start_sample := (Z.of_nat start_frame * 512)%Z in
      let end_sample := ((Z.of_nat end_frame + 1) * 512)%Z in
      slice_frames audio start_sample end_sample
  | _, _ => audio
  end.

(** A file written by [_export_audio]. *)
Inductive audio_file :=
| WavPcm16 (audio : ndarray) (sample_rate : Z)
| Flac (audio : ndarray) (sample_rate : Z)
| Mp3 (bitrate : string) (audio : ndarray) (sample_rate : Z)
| OggVorbis (bitrate : string) (audio : ndarray) (sample_rate : Z).

(** [sf.write(path, ...)]: the file is there afterwards, or the call raises
    and leaves the files as they are. *)
Definition sf_write (lib : Lib) (fs : gmap string audio_file) (path : string)
  (f : audio_file) : gmap string audio_file * option Py.exn :=
  if sf_write_ok lib path then (<[path := f]> fs, None)
  else (fs, Some Py.OSError).

(** [bitrate_map.get(quality, "192k")] *)
Definition bitrate_of (quality : string) : string :=
  if String.eqb quality "low" then "128k"
  else if String.eqb quality "medium" then "192k"
  else if String.eqb quality "high" then "320k"
  else "192k".

(** [audio_segment.export(output_path, format=..., bitrate=...)] *)
Definition pydub_export (lib : Lib) (fs : gmap string audio_file)
  (output_path : string) (f : audio_file)
  : gmap string audio_file * option Py.exn :=
  if encode_ok lib output_path then (<[output_path := f]> fs, None)
  else (fs, Some Py.EncoderError).

(** [_export_audio(audio, output_path, format, sample_rate, quality)]: the
    files after the call, and the exception when one is raised. *)
Definition _export_audio (lib : Lib) (fs : gmap string audio_file)
  (audio : ndarray) (output_path format : string) (sample_rate : Z)
  (quality : string) : gmap string audio_file * option Py.exn :=
  if String.eqb format "wav" then
    sf_write lib fs output_path (WavPcm16 audio sample_rate)
  else if String.eqb format "flac" then
    sf_write lib fs output_path (Flac audio sample_rate)
  else
    let temp_wav := String.app output_path ".temp.wav" in
    match sf_write lib fs temp_wav (WavPcm16 audio sample_rate) with
    | (fs, Some e) => (fs, Some e)
    | (fs, None) =>
        let bitrate := bitrate_of quality in
        let exported :=
          if String.eqb format "mp3" then
            pydub_export lib fs output_path (Mp3 bitrate audio sample_rate)
          else if String.eqb format "ogg" then
            pydub_export lib fs output_path (OggVorbis bitrate audio sample_rate)
          else (fs, None) in
        match exported with
        | (fs, Some e) => (fs, Some e)
        | (fs, None) => (delete temp_wav fs, None)
        end
    end.

(** [int(time * self.sample_rate)] *)
Definition to_sample (self : t) (time : Py.float) : Z :=
  Py.int (time * inject_Z (sample_rate self)).

(** The segment [export_splits] hands to [_export_audio] for the split
    [(start_time, end_time)]: sliced, trimmed, resampled and remixed. *)
Definition segment_of (lib : Lib) (self : t) (audio : ndarray)
  (start_time end_time : Py.float) (target_rate target_channels : Z)
  (trim_silence : bool) : ndarray :=
  let start_sample := to_sample self start_time in
  let end_sample := to_sample self end_time in
  let segment := slice_frames audio start_sample end_sample in
  let segment :=
    if trim_silence then _trim_silence lib segment (-40) else segment in
  let segment :=
    if negb (target_rate =? sample_rate self)%Z then
      match segment with
      | Mono y => Mono (resample lib y (sample_rate self) target_rate)
      | Multi c0 c1 rest =>
          Multi (resample lib c0 (sample_rate self) target_rate)
                (resample lib c1 (sample_rate self) target_rate)
                (map (fun c => resample lib c (sample_rate self) target_rate)
                     rest)
      end
    else segment in
  match segment with
  | Multi c0 c1 rest =>
      if (target_channels =? 1)%Z then Mono (mean_axis0 c0 (c1 :: rest))
      else segment
  | Mono y =>
      if (target_channels =? 2)%Z then Multi y y [] else segment
  end.

(** [f"{filename_prefix}_{split_number}.{output_format}"] joined to the
    output folder, for the number [exported_count]. *)
Definition output_path_of (output_folder filename_prefix output_format : string)
  (num_digits exported_count : nat) : string :=
  let split_number :=
    Py.zfill (Py.str (Z.of_nat exported_count)) num_digits in
  let filename :=
    String.app filename_prefix
      (String.app "_" (String.app split_number (String.app "." output_format))) in
  Py.path_join output_folder filename.

(** The arguments of [export_splits] that stay the same along its loop. *)
Record export_args := mkArgs {
  output_folder : string;
  filename_prefix : string;
  output_format : string;
  target_rate : Z;
  target_channels : Z;
  quality : string;
  trim_silence : bool
}.

(** The loop of [export_splits] over the indices that are left, from the
    count of the splits exported so far: the files after it, and the exception
    that ended it. *)
Fixpoint export_loop (lib : Lib) (self : t) (audio : ndarray)
  (args : export_args) (split_times : list Py.float) (excluded_splits : list Z)
  (num_digits : nat) (indices : list nat) (exported_count : nat)
  (fs : gmap string audio_file) : gmap string audio_file * option Py.exn :=
  match indices with
  | [] => (fs, None)
  | i :: indices' =>
      if existsb (Z.eqb (Z.of_nat i)) excluded_splits then
        export_loop lib self audio args split_times excluded_splits
          num_digits indices' exported_count fs
      else
        let start_time := nth i split_times 0 in
        let end_time := nth (i + 1) split_times 0 in
        let exported_count := (exported_count + 1)%nat in
        let segment :=
          segment_of lib self audio start_time end_time (target_rate args)
            (target_channels args) (trim_silence args) in
        let output_path :=
          output_path_of (output_folder args) (filename_prefix args)
            (output_format args) num_digits exported_count in
        match _export_audio lib fs segment output_path (output_format args)
                (target_rate args) (quality args) with
        | (fs, Some e) => (fs, Some e)
        | (fs, None) =>
            export_loop lib self audio args split_times excluded_splits
              num_digits indices' exported_count fs
        end
  end.

(** The messages of [export_splits]; the count of excluded splits is shown
    when the list is not empty. *)
Inductive export_message :=
| NoAudioLoaded
| ExportedSplits (num_exported : Z) (excluded : nat)
| ErrorExporting (e : Py.exn).

(** [export_splits(split_times, output_folder, filename_prefix,
    output_format, sample_rate, channels, quality, trim_silence,
    excluded_splits)]: the files after the call and the returned pair. *)
Definition export_splits (lib : Lib) (self : t) (fs : gmap string audio_file)
  (split_times : list Py.float) (args : export_args)
  (excluded_splits : option (list Z))
  : gmap string audio_file * (bool * export_message) :=
  match audio_data self with
  | None => (fs, (false, NoAudioLoaded))
  | Some audio =>
      if negb (makedirs_ok lib (output_folder args))
      then (fs, (false, ErrorExporting Py.OSError))
      else
        let excluded_splits := default [] excluded_splits in
        let split_times := Py.sorted ([0] ++ split_times ++ [duration self]) in
        let num_splits := (length split_times - 1)%nat in
        let num_exported :=
          (Z.of_nat num_splits - Z.of_nat (length excluded_splits))%Z in
        let num_digits := String.length (Py.str num_exported) in
        match export_loop lib self audio args split_times excluded_splits
                num_digits (seq 0 num_splits) 0 fs with
        | (fs, Some e) => (fs, (false, ErrorExporting e))
        | (fs, None) =>
            (fs, (true, ExportedSplits num_exported (length excluded_splits)))
        end
  end.

(** [np.min(chunk)]: [None] for the [ValueError] of an empty chunk. *)
Definition np_min (chunk : list Py.float) : option Py.float :=
  match chunk with
  | [] => None
  | x :: rest => Some (fold_left Py.min rest x)
  end.

(** [np.max(chunk)]: [None] for the [ValueError] of an empty chunk. *)
Definition np_max (chunk : list Py.float) : option Py.float :=
  match chunk with
  | [] => None
  | x :: rest => Some (fold_left Py.max rest x)
  end.

(** The loop of [get_waveform_data] over the pixels that are left. *)
Fixpoint waveform_loop (audio_mono : list Py.float) (samples_per_pixel : Z)
  (pixels : list nat) : option (list (Py.float * Py.float)) :=
  match pixels with
  | [] => Some []
  | i :: pixels' =>
      let start := (Z.of_nat i * samples_per_pixel)%Z in
      let end_ := (start + samples_per_pixel)%Z in
      let chunk := Py.slice audio_mono start end_ in
      match np_min chunk, np_max chunk with
      | Some lo, Some hi =>
          option_map (cons (lo, hi))
            (waveform_loop audio_mono samples_per_pixel pixels')
      | _, _ => None
      end
  end.

(** [get_waveform_data(samples_per_pixel)]: the pairs [min, max], one for
    each pixel; [None] when the call raises, [ZeroDivisionError] for
    [samples_per_pixel = 0] and [ValueError] for an empty chunk. *)
Definition get_waveform_data (self : t) (samples_per_pixel : Z)
  : option (list (Py.float * Py.float)) :=
  match audio_data self with
  | None => Some []
  | Some audio =>
      let audio_mono := to_mono audio in
      if (samples_per_pixel =? 0)%Z then None
      else
        let num_pixels :=
          (Z.of_nat (length audio_mono) / samples_per_pixel)%Z in
        waveform_loop audio_mono samples_per_pixel
          (seq 0 (Z.to_nat num_pixels))
  end.

End AudioProcessor.

(** ** Concatenation *)

Module Concat.







End Concat.

(** ** waveform_widget.py *)

Module WaveformWidget.

(** The fields of the widget that its computations read.  The width, which
    Qt keeps, is an argument. *)
Record t := mk {
  duration : Py.float;
  markers : list Py.float;
  playback_position : Py.float;
  h_zoom : Py.float;
  scroll_offset : Py.float;
  excluded_splits : list (Py.float * Py.float)
}.

Definition with_scroll_offset (self : t) (offset : Py.float) : t :=
  {| duration := duration self; markers := markers self;
     playback_position := playback_position self; h_zoom := h_zoom self;
     scroll_offset := offset; excluded_splits := excluded_splits self |}.

Definition with_markers (self : t) (ms : list Py.float) : t :=
  {| duration := duration self; markers := ms;
     playback_position := playback_position self; h_zoom := h_zoom self;
     scroll_offset := scroll_offset self;
     excluded_splits := excluded_splits self |}.

(** [set_horizontal_zoom(zoom)] *)
Definition set_horizontal_zoom (self : t) (zoom : Py.float) : t :=
  {| duration := duration self; markers := markers self;
     playback_position := playback_position self; h_zoom := Py.max 1 zoom;
     scroll_offset := scroll_offset self;
     excluded_splits := excluded_splits self |}.

(** [set_scroll_offset(offset)] *)
Definition set_scroll_offset (self : t) (offset : Py.float) : t :=
  with_scroll_offset self (Py.max 0 (Py.min 1 offset)).

(** [set_playback_position(position)] *)
Definition set_playback_position (self : t) (position : Py.float) : t :=
  {| duration := duration self; markers := markers self;
     playback_position := Py.max 0 (Py.min (duration self) position);
     h_zoom := h_zoom self; scroll_offset := scroll_offset self;
     excluded_splits := excluded_splits self |}.

(** [ensure_time_visible(time)]: the widget after the call and the returned
    flag.  Past the guard the two divisors, [h_zoom] and
    [duration - visible_duration], are not zero. *)
Definition ensure_time_visible (self : t) (time : Py.float) : t * bool :=
  if Qeq_bool (duration self) 0 || Qle_bool (h_zoom self) 1 then (self, false)
  else
    let visible_duration := duration self / h_zoom self in
    let start_time := scroll_offset self * (duration self - visible_duration) in
    let end_time := start_time + visible_duration in
    let margin := visible_duration * (1 # 10) in
    if Py.ltb time (start_time + margin) then
      let new_start_time := Py.max 0 (time - visible_duration / 2) in
      (with_scroll_offset self
         (new_start_time / (duration self - visible_duration)), true)
    else if Py.ltb (end_time - margin) time then
      let new_start_time :=
        Py.min (duration self - visible_duration)
          (time - visible_duration / 2) in
      (with_scroll_offset self
         (new_start_time / (duration self - visible_duration)), true)
    else (self, false).

(** [get_time_at_x(x)] in a widget of the given width: [None] for a
    [ZeroDivisionError]. *)
Definition get_time_at_x (self : t) (width x : Z) : option Py.float :=
  if Qeq_bool (duration self) 0 then Some 0
  else
    match Py.truediv (duration self) (h_zoom self) with
    | None => None
    | Some visible_duration =>
        let start_time :=
          scroll_offset self * (duration self - visible_duration) in
        match Py.truediv (inject_Z x) (inject_Z width) with
        | None => None
        | Some fraction =>
            let time := start_time + fraction * visible_duration in
            Some (Py.max 0 (Py.min (duration self) time))
        end
    end.

(** [get_x_at_time(time)] in a widget of the given width: [None] for a
    [ZeroDivisionError]. *)
Definition get_x_at_time (self : t) (width : Z) (time : Py.float) : option Z :=
  if Qeq_bool (duration self) 0 then Some 0%Z
  else
    match Py.truediv (duration self) (h_zoom self) with
    | None => None
    | Some visible_duration =>
        let start_time :=
          scroll_offset self * (duration self - visible_duration) in
        match Py.truediv (time - start_time) visible_duration with
        | None => None
        | Some fraction => Some (Py.int (fraction * inject_Z width))
        end
    end.

(** [_get_splits()] of the widget. *)
Definition _get_splits (self : t) : list (Py.float * Py.float) :=
  match markers self with
  | [] => []
  | m0 :: _ =>
      [(0, m0)]
      ++ map (fun i => (nth i (markers self) 0, nth (i + 1) (markers self) 0))
             (seq 0 (length (markers self) - 1))
      ++ [(List.last (markers self) 0, duration self)]
  end.

(** The index of the first split the loop of [_get_split_at_position]
    returns at. *)
Fixpoint first_split_with (time : Py.float)
  (splits : list (Py.float * Py.float)) : option nat :=
  match splits with
  | [] => None
  | (start_time, end_time) :: splits' =>
      if Qle_bool start_time time && Qle_bool time end_time then Some O
      else option_map S (first_split_with time splits')
  end.

Definition ruler_height : Z := 30.
Definition splits_lane_height : Z := 40.

(** [_get_split_at_position(x, y)]: outside [None] for a
    [ZeroDivisionError], inside the returned [Optional[int]]. *)
Definition _get_split_at_position (self : t) (width x y : Z)
  : option (option nat) :=
  if (y <? ruler_height)%Z || (ruler_height + splits_lane_height <? y)%Z
  then Some None
  else
    match get_time_at_x self width x with
    | None => None
    | Some time => Some (first_split_with time (_get_splits self))
    end.

(** The left click of [mousePressEvent] in the waveform area when no marker
    is grabbed: the marker is appended, the list sorted, and the time
    emitted as [marker_added]. *)
Definition click_add_marker (self : t) (time : Py.float) : t :=
  with_markers self (Py.sorted (markers self ++ [time])).

Definition marker_grab_distance : Z := 10.

(** The loop of [_get_marker_at_x] over the markers that are left: the
    first marker drawn within [marker_grab_distance] pixels of [x]. *)
Fixpoint marker_at_x_loop (self : t) (width x : Z) (ms : list Py.float)
  : option (option Py.float) :=
  match ms with
  | [] => Some None
  | marker_time :: ms' =>
      match get_x_at_time self width marker_time with
      | None => None
      | Some marker_x =>
          if (Z.abs (marker_x - x) <=? marker_grab_distance)%Z
          then Some (Some marker_time)
          else marker_at_x_loop self width x ms'
      end
  end.

(** [_get_marker_at_x(x)]: outside [None] for a [ZeroDivisionError], inside
    the returned [Optional[float]]. *)
Definition _get_marker_at_x (self : t) (width x : Z)
  : option (option Py.float) :=
  marker_at_x_loop self width x (markers self).

(** The left button of [mousePressEvent] below the two lanes: the widget
    after it and the time emitted as [marker_added], if any.  On a marker the
    drag starts and the markers stay. *)
Definition left_click_waveform (self : t) (width x : Z)
  : option (t * option Py.float) :=
  match get_time_at_x self width x with
  | None => None
  | Some time =>
      match _get_marker_at_x self width x with
      | None => None
      | Some (Some _) => Some (self, None)
      | Some None => Some (click_add_marker self time, Some time)
      end
  end.

(** [self.markers.remove(x)]: drops the first marker equal to [x]. *)
Fixpoint list_remove (x : Py.float) (l : list Py.float) : list Py.float :=
  match l with
  | [] => []
  | y :: l' => if Qeq_bool y x then l' else y :: list_remove x l'
  end.

(** The right button of [mousePressEvent] below the two lanes: the widget
    after it and the marker emitted as [marker_removed], if any. *)
Definition right_click_waveform (self : t) (width x : Z)
  : option (t * option Py.float) :=
  match _get_marker_at_x self width x with
  | None => None
  | Some None => Some (self, None)
  | Some (Some marker) =>
      Some (with_markers self (list_remove marker (markers self)), Some marker)
  end.

(** [self.markers.index(x)]: the index of the first marker equal to [x];
    [None] for the [ValueError] of a value that is not in the list. *)
Fixpoint list_index (x : Py.float) (l : list Py.float) : option nat :=
  match l with
  | [] => None
  | y :: l' => if Qeq_bool y x then Some O else option_map S (list_index x l')
  end.

(** One step of a drag in [mouseMoveEvent]: the marker [old_time] is given
    the time [new_time], the list is sorted, and the pair is emitted as
    [marker_moved]. *)
Definition drag_marker (self : t) (old_time new_time : Py.float) : option t :=
  match list_index old_time (markers self) with
  | None => None
  | Some idx =>
      Some (with_markers self (Py.sorted (<[idx := new_time]> (markers self))))
  end.

End WaveformWidget.

(** ** audio_splitter_app.py *)

Module App.




(** [_on_marker_added(time)] *)
Definition _on_marker_added (mm : MarkerManager.t) (time : Py.float)
  : MarkerManager.t :=
  fst (MarkerManager.add_marker mm time).

(** [_on_marker_removed(time)] *)
Definition _on_marker_removed (mm : MarkerManager.t) (time : Py.float)
  : MarkerManager.t :=
  fst (MarkerManager.remove_marker mm time (1 # 100)).

(** [_on_marker_moved(old_time, new_time)] *)
Definition _on_marker_moved (mm : MarkerManager.t) (old_time new_time : Py.float)
  : MarkerManager.t :=
  fst (MarkerManager.move_marker mm old_time new_time (1 # 100)).

(** The markers [_detect_silence_delayed] places once the user has agreed:
    the old ones are cleared and the middle of each region is added. *)
Definition place_markers (mm : MarkerManager.t)
  (silent_regions : list (Py.float * Py.float)) : MarkerManager.t :=
  fold_left
    (fun mm region =>
       let middle := (fst region + snd region) / 2 in
       fst (MarkerManager.add_marker mm middle))
    silent_regions (MarkerManager.clear_markers mm).

(** [_detect_silence_delayed(threshold, min_duration, progress)], on the
    answer of the user to the question of the dialog: the marker manager
    after the call.  Without a region nothing is asked and nothing changes. *)
Definition _detect_silence_delayed (lib : AudioProcessor.Lib)
  (ap : AudioProcessor.t) (mm : MarkerManager.t)
  (threshold min_duration : Py.float) (reply_yes : bool) : MarkerManager.t :=
  let silent_regions :=
    AudioProcessor.detect_silence lib ap threshold min_duration in
  match silent_regions with
  | [] => mm
  | _ :: _ => if reply_yes then place_markers mm silent_regions else mm
  end.

(** The marker manager after [_load_audio_delayed] has loaded a file:
    cleared, with the base name of the file and the duration of the audio. *)
Definition reset_for_audio (mm : MarkerManager.t) (basename : string)
  (ap : AudioProcessor.t) : MarkerManager.t :=
  MarkerManager.set_audio_duration
    (MarkerManager.set_audio_filename (MarkerManager.clear_markers mm) basename)
    (AudioProcessor.duration ap).

End App.

(** ** The properties of the marker list and of a list of intervals *)

Module Spec.

(** The list is sorted. *)
Definition is_sorted (l : list Py.float) : Prop :=
  forall i j a b, (i < j)%nat -> l !! i = Some a -> l !! j = Some b -> a <= b.

(** Two markers at two places differ by at least 0.01 s. *)
Definition eps_unique (l : list Py.float) : Prop :=
  forall i j a b, i <> j -> l !! i = Some a -> l !! j = Some b ->
    1 # 100 <= Qabs (a - b).

(** Every marker is a time of the recording. *)
Definition in_range (d : Py.float) (l : list Py.float) : Prop :=
  forall a, a ∈ l -> 0 <= a /\ a <= d.

(** The objects the operations of the class lead to from a new one.  The
    operations that are not named leave the markers as they are. *)
Inductive reachable : MarkerManager.t -> Prop :=
| reach_init : reachable MarkerManager.init
| reach_add self t :
    reachable self -> reachable (fst (MarkerManager.add_marker self t))
| reach_remove self t tol :
    reachable self -> reachable (fst (MarkerManager.remove_marker self t tol))
| reach_move self old_time new_time tol :
    reachable self ->
    reachable (fst (MarkerManager.move_marker self old_time new_time tol))
| reach_clear self :
    reachable self -> reachable (MarkerManager.clear_markers self)
| reach_set self ms :
    reachable self -> reachable (MarkerManager.set_markers self ms)
| reach_load self fs filepath self' r :
    reachable self ->
    MarkerManager.load_from_json self fs filepath = Some (self', r) ->
    reachable self'
| reach_other self self' :
    reachable self ->
    MarkerManager.markers self' = MarkerManager.markers self ->
    reachable self'.

(** The three invariants of the marker list of an object. *)
Definition marker_invariants (self : MarkerManager.t) : Prop :=
  is_sorted (MarkerManager.markers self)
  /\ eps_unique (MarkerManager.markers self)
  /\ in_range (MarkerManager.audio_duration self) (MarkerManager.markers self).

(** Each interval ends where the next one starts. *)
Definition contiguous (splits : list (Py.float * Py.float)) : Prop :=
  forall i p q, splits !! i = Some p -> splits !! S i = Some q -> snd p = fst q.

(** The intervals are in order and do not overlap: each one ends after it
    starts and before the next one starts. *)
Definition ordered_disjoint (regions : list (Py.float * Py.float)) : Prop :=
  (forall p, p ∈ regions -> fst p <= snd p)
  /\ forall i j p q, (i < j)%nat -> regions !! i = Some p ->
       regions !! j = Some q -> snd p <= fst q.

(** The frames [i .. j-1] are all silent. *)
Definition all_silent (flags : list bool) (i j : nat) : Prop :=
  forall k, (i <= k < j)%nat -> flags !! k = Some true.

(** The frames [i .. j-1] are a run of consecutive silent frames that no
    silent frame extends: frame [i] is the first frame or follows a frame
    that is not silent, and frame [j-1] is the last frame or is followed by
    a frame that is not silent. *)
Definition silent_run (flags : list bool) (i j : nat) : Prop :=
  (i < j)%nat
  /\ all_silent flags i j
  /\ (i = O \/ flags !! pred i = Some false)
  /\ (j = length flags \/ flags !! j = Some false).

(** The region of the run [i .. j-1]: from the time of frame [i] to the time
    of frame [j], or to the end of the buffer when the run ends with the
    last frame. *)
Definition run_region (time : nat -> Py.float) (end_time : Py.float)
  (flags : list bool) (i j : nat) : Py.float * Py.float :=
  (time i, if (j <? length flags)%nat then time j else end_time).

(** What holds of the variables of the loop of [detect_silence] after [p]
    frames. *)
Definition scan_inv (time : nat -> Py.float) (min_silence_duration : Py.float)
  (flags : list bool) (p : nat) (st : AudioProcessor.scan) : Prop :=
  (if AudioProcessor.in_silence st
   then exists i, (i < p)%nat
          /\ AudioProcessor.silence_start st = time i
          /\ all_silent flags i p
          /\ (i = O \/ flags !! pred i = Some false)
   else p = O \/ flags !! pred p = Some false)
  /\ (forall s e, (s, e) ∈ AudioProcessor.silent_regions st
        <-> exists i j, silent_run flags i j /\ (j < p)%nat
              /\ s = time i /\ e = time j
              /\ min_silence_duration <= e - s)
  /\ (forall a b r1 r2, (a < b)%nat ->
        AudioProcessor.silent_regions st !! a = Some r1 ->
        AudioProcessor.silent_regions st !! b = Some r2 ->
        snd r1 <= fst r2).

(** The splits [export_splits] does not skip, in order. *)
Definition included_indices (num_splits : nat) (excluded_splits : list Z)
  : list nat :=
  List.filter (fun i => negb (existsb (Z.eqb (Z.of_nat i)) excluded_splits))
    (seq 0 num_splits).

(** The number a string of decimal digits reads as. *)
Definition digit_value (c : ascii) : N := N.of_nat (nat_of_ascii c) - 48.

Fixpoint read_digits (acc : N) (s : string) : N :=
  match s with
  | EmptyString => acc
  | String c s' => read_digits (10 * acc + digit_value c) s'
  end.

Definition read_number (s : string) : N := read_digits 0 s.

(** The file [_export_audio] leaves at the output path for one of the four
    formats of the export dialog. *)
Definition encoded_file (args : AudioProcessor.export_args)
  (segment : AudioProcessor.ndarray) : AudioProcessor.audio_file :=
  let rate := AudioProcessor.target_rate args in
  let bitrate := AudioProcessor.bitrate_of (AudioProcessor.quality args) in
  if String.eqb (AudioProcessor.output_format args) "wav" then
    AudioProcessor.WavPcm16 segment rate
  else if String.eqb (AudioProcessor.output_format args) "flac" then
    AudioProcessor.Flac segment rate
  else if String.eqb (AudioProcessor.output_format args) "mp3" then
    AudioProcessor.Mp3 bitrate segment rate
  else AudioProcessor.OggVorbis bitrate segment rate.

(** What one index adds to the exclusions in
    [set_excluded_splits_by_indices] when [splits[idx]] does not raise: the
    split at the index, counted from the end for a negative index, and
    nothing for an index past the last split. *)
Definition picked_split (splits : list (Py.float * Py.float)) (idx : Z)
  : list (Py.float * Py.float) :=
  if (idx <? Z.of_nat (length splits))%Z then
    [nth (Z.to_nat (if (idx <? 0)%Z then Z.of_nat (length splits) + idx else idx))
       splits (0, 0)]
  else [].

(** The time [_detect_silence_delayed] puts a marker at for a region,
    [(start + end) / 2]. *)
Definition middle_of (region : Py.float * Py.float) : Py.float :=
  (fst region + snd region) / 2.

End Spec.

(** * Theorems *)

(** ** The derived split list *)

Lemma nth_pairs_zip (d : Py.float) (l : list Py.float) :
  map (fun i => (nth i l d, nth (i + 1) l d)) (seq 0 (length l - 1))
  = zip l (tail l).
Proof.
  induction l as [|a [|b l] IH]; try reflexivity.
  replace (length (a :: b :: l) - 1)%nat with (S (length (b :: l) - 1))
    by (simpl; lia).
  rewrite <- cons_seq, <- fmap_S_seq.
  change (zip (a :: b :: l) (tail (a :: b :: l)))
    with ((a, b) :: zip (b :: l) (tail (b :: l))).
  rewrite <- IH. cbn [map]. f_equal.
  change (@fmap list _ nat nat S) with (@map nat nat S). rewrite map_map.
  apply map_ext. intros i. reflexivity.
Qed.

Lemma last_app_zip (d e : Py.float) (l : list Py.float) :
  l <> [] ->
  zip l (tail l) ++ [(List.last l d, e)] = zip l (tail l ++ [e]).
Proof.
  induction l as [|a [|b l] IH]; intros Hne; try congruence; try reflexivity.
  change (List.last (a :: b :: l) d) with (List.last (b :: l) d).
  cbn [zip zip_with tail app]. f_equal.
  cbn [tail] in IH. apply IH. discriminate.
Qed.

Lemma lookup_length_last (a d : Py.float) (l : list Py.float) :
  (a :: l) !! length l = Some (List.last (a :: l) d).
Proof.
  revert a. induction l as [|m l IH]; intros a; [reflexivity|].
  change ((a :: m :: l) !! length (m :: l)) with ((m :: l) !! length l).
  change (List.last (a :: m :: l) d) with (List.last (m :: l) d).
  apply IH.
Qed.

(** With at least one marker, the splits pair each boundary of
    [0, markers, duration] with the next one. *)
Lemma get_splits_zip (self : MarkerManager.t) :
  MarkerManager.markers self <> [] ->
  MarkerManager._get_splits self
  = zip (0 :: MarkerManager.markers self)
        (MarkerManager.markers self ++ [MarkerManager.audio_duration self]).
Proof.
  unfold MarkerManager._get_splits. intros Hne.
  destruct (MarkerManager.markers self) as [|m0 ms] eqn:E; [congruence|].
  rewrite nth_pairs_zip, last_app_zip by discriminate. reflexivity.
Qed.

(** C1, as the code has it: for a marker list of length [k >= 1] and a
    recorded duration [d], [_get_splits] returns [k + 1] intervals; the first
    starts at [0], each ends where the next starts, the last ends at [d], and
    the marker of index [i] is the end of split [i] and the start of split
    [i + 1].  (For no marker the list of splits is empty.) *)
Theorem get_splits_partition (self : MarkerManager.t) :
  MarkerManager.markers self <> [] ->
  let k := length (MarkerManager.markers self) in
  let splits := MarkerManager._get_splits self in
  length splits = S k
  /\ fst <$> splits !! O = Some 0
  /\ Spec.contiguous splits
  /\ snd <$> splits !! k = Some (MarkerManager.audio_duration self)
  /\ forall i m, MarkerManager.markers self !! i = Some m ->
       snd <$> splits !! i = Some m /\ fst <$> splits !! S i = Some m.
Proof.
  intros Hne k splits. subst k splits. rewrite (get_splits_zip self Hne).
  remember (MarkerManager.markers self) as ms eqn:Ems.
  remember (MarkerManager.audio_duration self) as d eqn:Ed.
  clear Ems Ed.
  assert (Hlen : length (0 :: ms) = length (ms ++ [d])).
  { rewrite length_app. simpl. lia. }
  assert (Hz : forall i, zip (0 :: ms) (ms ++ [d]) !! i
            = (0 :: ms) !! i ≫= fun a => (ms ++ [d]) !! i ≫= fun b => Some (a, b)).
  { intros i. rewrite lookup_zip_with. reflexivity. }
  split; [|split; [|split; [|split]]].
  - rewrite length_zip_with, Hlen, Nat.min_id, length_app. simpl. lia.
  - rewrite Hz. destruct ms as [|m ms']; [congruence|]. reflexivity.
  - intros i p q Hp Hq. rewrite Hz in Hp, Hq.
    change ((0 :: ms) !! S i) with (ms !! i) in Hq.
    destruct ((0 :: ms) !! i) as [a|] eqn:Ea; [|discriminate]. simpl in Hp.
    destruct ((ms ++ [d]) !! i) as [b|] eqn:Eb; [|discriminate].
    simpl in Hp. injection Hp as <-.
    destruct (ms !! i) as [c|] eqn:Ec; [|discriminate]. simpl in Hq.
    destruct ((ms ++ [d]) !! S i) as [e|]; [|discriminate].
    simpl in Hq. injection Hq as <-. simpl.
    rewrite (lookup_app_l_Some _ _ _ _ Ec) in Eb. congruence.
  - rewrite Hz.
    pose proof (lookup_length_last 0 0 ms) as Hl.
    rewrite Hl. simpl. rewrite list_lookup_middle by reflexivity. reflexivity.
  - intros i m Hm. rewrite !Hz.
    change ((0 :: ms) !! S i) with (ms !! i). rewrite Hm.
    rewrite (lookup_app_l_Some _ _ _ _ Hm).
    pose proof (lookup_lt_Some _ _ _ Hm) as Hlt.
    destruct (lookup_lt_is_Some_2 (0 :: ms) i) as [a Ha]; [simpl; lia|].
    destruct (lookup_lt_is_Some_2 (ms ++ [d]) (S i)) as [b Hb].
    { rewrite length_app. simpl. lia. }
    rewrite Ha, Hb. split; reflexivity.
Qed.

Lemma get_splits_partition_witness :
  let self := MarkerManager.mk [3; 7] [] None 10 in
  MarkerManager._get_splits self = [(0, 3); (3, 7); (7, 10)]
  /\ length (MarkerManager._get_splits self) = 3%nat
  /\ Spec.contiguous (MarkerManager._get_splits self).
Proof.
  intros self.
  destruct (get_splits_partition self) as (Hlen & _ & Hc & _); [discriminate|].
  split; [reflexivity|]. split; [exact Hlen|exact Hc].
Defined.

(** Without a marker [_get_splits] returns no split, not the single split
    [(0, d)]. *)
Lemma get_splits_no_marker_counterexample :
  let self := MarkerManager.mk [] [] None 10 in
  MarkerManager._get_splits self = []
  /\ length (MarkerManager._get_splits self)
     <> S (length (MarkerManager.markers self))
  /\ MarkerManager._get_splits self <> [(0, 10)].
Proof. cbn. split; [reflexivity|]. split; discriminate. Qed.

(** ** Sorting and the invariants of the marker list *)

Lemma ltb_lt (a b : Q) : Py.ltb a b = true <-> a < b.
Proof.
  unfold Py.ltb. rewrite negb_true_iff.
  destruct (Qle_bool b a) eqn:E.
  - apply Qle_bool_iff in E. split; [discriminate|]. intros H. lra.
  - split; [|reflexivity]. intros _.
    destruct (Qlt_le_dec a b) as [H|H]; [exact H|].
    apply Qle_bool_iff in H. congruence.
Qed.

Lemma ltb_ge (a b : Q) : Py.ltb a b = false <-> b <= a.
Proof.
  unfold Py.ltb. rewrite negb_false_iff. apply Qle_bool_iff.
Qed.

Lemma near_iff (tol t m : Q) :
  MarkerManager.near tol t m = true <-> Qabs (m - t) < tol.
Proof. apply ltb_lt. Qed.

Lemma near_false_iff (tol t m : Q) :
  MarkerManager.near tol t m = false <-> tol <= Qabs (m - t).
Proof. apply ltb_ge. Qed.

Lemma is_sorted_cons (x : Q) (l : list Q) :
  Spec.is_sorted (x :: l) <-> (forall y, y ∈ l -> x <= y) /\ Spec.is_sorted l.
Proof.
  unfold Spec.is_sorted. split.
  - intros H. split.
    + intros y Hy. apply list_elem_of_lookup in Hy as [j Hj].
      apply (H O (S j) x y); [lia|reflexivity|exact Hj].
    + intros i j a b Hij Ha Hb. apply (H (S i) (S j) a b); [lia|exact Ha|exact Hb].
  - intros [Hx Hl] i j a b Hij Ha Hb.
    destruct j as [|j]; [lia|]. simpl in Hb.
    destruct i as [|i].
    + injection Ha as <-. apply Hx. eapply list_elem_of_lookup_2, Hb.
    + apply (Hl i j a b); [lia|exact Ha|exact Hb].
Qed.

Lemma is_sorted_nil : Spec.is_sorted [].
Proof. intros i j a b _ H. rewrite lookup_nil in H. discriminate. Qed.

Lemma insert_perm (x : Q) (l : list Q) : Py.insert x l ≡ₚ x :: l.
Proof.
  induction l as [|y l IH]; simpl; [reflexivity|].
  destruct (Qle_bool x y); [reflexivity|].
  rewrite IH. apply Permutation_swap.
Qed.

Lemma sorted_perm (l : list Q) : Py.sorted l ≡ₚ l.
Proof.
  induction l as [|x l IH]; simpl; [reflexivity|].
  rewrite insert_perm, IH. reflexivity.
Qed.

Lemma insert_is_sorted (x : Q) (l : list Q) :
  Spec.is_sorted l -> Spec.is_sorted (Py.insert x l).
Proof.
  induction l as [|y l IH]; intros Hl; simpl.
  - apply is_sorted_cons. split; [|apply is_sorted_nil].
    intros y Hy. apply elem_of_nil in Hy as [].
  - destruct (Qle_bool x y) eqn:E.
    + apply Qle_bool_iff in E. apply is_sorted_cons. split; [|exact Hl].
      apply is_sorted_cons in Hl as [Hy _].
      intros z Hz. apply elem_of_cons in Hz as [->|Hz]; [exact E|].
      specialize (Hy z Hz). lra.
    + assert (Hyx : y <= x).
      { destruct (Qlt_le_dec x y) as [H|H]; [|exact H].
        apply Qlt_le_weak, Qle_bool_iff in H. congruence. }
      apply is_sorted_cons in Hl as [Hy Hl].
      apply is_sorted_cons. split; [|apply IH, Hl].
      intros z Hz. rewrite insert_perm in Hz.
      apply elem_of_cons in Hz as [->|Hz]; [exact Hyx|apply Hy, Hz].
Qed.

Lemma sorted_is_sorted (l : list Q) : Spec.is_sorted (Py.sorted l).
Proof.
  induction l as [|x l IH]; simpl; [apply is_sorted_nil|].
  apply insert_is_sorted, IH.
Qed.

(** Sorting a sorted list leaves it as it is. *)
Lemma sorted_id (l : list Q) : Spec.is_sorted l -> Py.sorted l = l.
Proof.
  induction l as [|x l IH]; intros Hl; [reflexivity|].
  apply is_sorted_cons in Hl as [Hx Hl]. simpl. rewrite (IH Hl).
  destruct l as [|y l]; [reflexivity|]. simpl.
  assert (E : Qle_bool x y = true).
  { apply Qle_bool_iff, Hx. left. }
  rewrite E. reflexivity.
Qed.



Lemma list_remove_sublist (x : Q) (l : list Q) :
  MarkerManager.list_remove x l `sublist_of` l.
Proof.
  induction l as [|y l IH]; simpl; [constructor|].
  destruct (Qeq_bool y x).
  - apply sublist_cons, reflexivity.
  - apply sublist_skip, IH.
Qed.

Lemma is_sorted_sublist (l l' : list Q) :
  l `sublist_of` l' -> Spec.is_sorted l' -> Spec.is_sorted l.
Proof.
  induction 1 as [|x l l' Hs IH|x l l' Hs IH]; intros H.
  - exact H.
  - apply is_sorted_cons in H as [Hx Hl]. apply is_sorted_cons.
    split; [|apply IH, Hl]. intros y Hy. apply Hx.
    eapply elem_of_sublist; [exact Hy|exact Hs].
  - apply is_sorted_cons in H as [_ Hl]. apply IH, Hl.
Qed.



Lemma existsb_near_false (tol t : Q) (l : list Q) :
  existsb (MarkerManager.near tol t) l = false
  <-> forall m, m ∈ l -> tol <= Qabs (m - t).
Proof.
  induction l as [|x l IH]; simpl.
  - split; [|reflexivity]. intros _ m Hm. apply elem_of_nil in Hm as [].
  - rewrite orb_false_iff, IH, near_false_iff. split.
    + intros [Hx Hl] m Hm.
      apply elem_of_cons in Hm as [->|Hm]; [exact Hx|apply Hl, Hm].
    + intros H. split; [apply H; left|]. intros m Hm. apply H. right. exact Hm.
Qed.



(** ** Adding, removing and moving a marker *)



Lemma remove_marker_sublist (self : MarkerManager.t) (t tol : Q) :
  MarkerManager.markers (fst (MarkerManager.remove_marker self t tol))
    `sublist_of` MarkerManager.markers self.
Proof.
  unfold MarkerManager.remove_marker.
  destruct (find _ _); cbn; [apply list_remove_sublist|reflexivity].
Qed.





(** ** Saving and loading the markers *)

Lemma floats_map_Num (ms : list Q) : Json.floats (map Json.Num ms) = Some ms.
Proof.
  induction ms as [|m ms IH]; [reflexivity|]. simpl. rewrite IH. reflexivity.
Qed.

Lemma comprehension_pairs (ex : list (Q * Q)) :
  MarkerManager.comprehension
    (map (fun se => Json.Arr [Json.Num (fst se); Json.Num (snd se)]) ex)
  = MarkerManager.Pairs ex.
Proof.
  induction ex as [|[s e] ex IH]; [reflexivity|].
  simpl. simpl in IH. rewrite IH. reflexivity.
Qed.

Lemma field_excluded_splits_to_data (self : MarkerManager.t) kv :
  MarkerManager.to_data self = Json.Obj kv ->
  MarkerManager.field_excluded_splits kv
  = MarkerManager.Pairs (MarkerManager.excluded_splits self).
Proof.
  intros [= <-]. unfold MarkerManager.field_excluded_splits. cbn.
  destruct (MarkerManager.excluded_splits self) as [|[s e] ex]; [reflexivity|].
  cbn. rewrite comprehension_pairs. reflexivity.
Qed.

(** What [load_from_json] makes of the file [save_to_json] has written for
    an object whose markers are sorted: that object. *)
Lemma load_saved (self other : MarkerManager.t) (fs : Fs.t) (path : string) :
  Spec.is_sorted (MarkerManager.markers self) ->
  Fs.files fs !! path = Some (Fs.Document (MarkerManager.to_data self)) ->
  MarkerManager.load_body other fs path = MarkerManager.Ok self.
Proof.
  intros Hs Hf. unfold MarkerManager.load_body, MarkerManager.read_json.
  rewrite Hf.
  pose proof (field_excluded_splits_to_data self _ eq_refl) as Hex.
  unfold MarkerManager.to_data in *.
  set (kv := [_; _; _; _]) in *.
  assert (H1 : MarkerManager.field_audio_filename kv
               = Some (MarkerManager.audio_filename self)).
  { subst kv. unfold MarkerManager.field_audio_filename. cbn.
    destruct (MarkerManager.audio_filename self); reflexivity. }
  assert (H2 : MarkerManager.field_markers kv
               = MarkerManager.SortedOk (MarkerManager.markers self)).
  { subst kv. unfold MarkerManager.field_markers. cbn.
    rewrite floats_map_Num, (sorted_id _ Hs). reflexivity. }
  assert (H3 : MarkerManager.field_audio_duration kv
               = Some (MarkerManager.audio_duration self)).
  { subst kv. reflexivity. }
  rewrite H1, H2, H3, Hex. destruct self; reflexivity.
Qed.

Lemma field_markers_sorted kv ms :
  MarkerManager.field_markers kv = MarkerManager.SortedOk ms ->
  Spec.is_sorted ms.
Proof.
  unfold MarkerManager.field_markers. intros H.
  destruct (Json.get "markers" kv) as [[| | | s |l|kv']|].
  all: try discriminate.
  - destruct (String.eqb s ""); [|discriminate].
    injection H as <-. apply is_sorted_nil.
  - destruct (Json.floats l); [|discriminate].
    injection H as <-. apply sorted_is_sorted.
  - destruct kv'; [|discriminate]. injection H as <-. apply is_sorted_nil.
  - injection H as <-. apply is_sorted_nil.
Qed.

(** What a run of the body of [load_from_json] leaves in the object: the
    object as it was, or the file's name written, or the file's name, markers
    and duration written, or all four fields written. *)
Lemma load_body_cases (self : MarkerManager.t) fs path :
  match MarkerManager.load_body self fs path with
  | MarkerManager.Unmodelled => True
  | MarkerManager.Raise e self' =>
      ((forall kv, MarkerManager.read_json fs path <> inr (Json.Obj kv))
       /\ self' = self)
      \/ exists kv f,
           MarkerManager.read_json fs path = inr (Json.Obj kv)
           /\ MarkerManager.field_audio_filename kv = Some f
           /\ ((MarkerManager.field_markers kv = MarkerManager.SortedRaise e
                /\ self' = MarkerManager.with_audio_filename self f)
               \/ exists ms d,
                    MarkerManager.field_markers kv = MarkerManager.SortedOk ms
                    /\ MarkerManager.field_audio_duration kv = Some d
                    /\ MarkerManager.field_excluded_splits kv
                       = MarkerManager.PairsRaise e
                    /\ self' = MarkerManager.with_audio_duration
                                 (MarkerManager.with_markers
                                    (MarkerManager.with_audio_filename self f) ms) d)
  | MarkerManager.Ok self' =>
      exists kv f ms d ps,
        MarkerManager.read_json fs path = inr (Json.Obj kv)
        /\ MarkerManager.field_audio_filename kv = Some f
        /\ MarkerManager.field_markers kv = MarkerManager.SortedOk ms
        /\ MarkerManager.field_audio_duration kv = Some d
        /\ MarkerManager.field_excluded_splits kv = MarkerManager.Pairs ps
        /\ self' = MarkerManager.mk ms ps f d
  end.
Proof.
  unfold MarkerManager.load_body.
  destruct (MarkerManager.read_json fs path) as [e|data] eqn:Er.
  { left. split; [discriminate|reflexivity]. }
  destruct data as [| | | | |kv]; try (left; split; [discriminate|reflexivity]).
  destruct (MarkerManager.field_audio_filename kv) as [f|] eqn:E1; [|exact I].
  destruct (MarkerManager.field_markers kv) as [ms|e|] eqn:E2; [| |exact I].
  - destruct (MarkerManager.field_audio_duration kv) as [d|] eqn:E3; [|exact I].
    destruct (MarkerManager.field_excluded_splits kv) as [ps|e|] eqn:E4;
      [| |exact I].
    + exists kv, f, ms, d, ps. repeat split; assumption.
    + right. exists kv, f. split; [reflexivity|]. split; [assumption|].
      right. exists ms, d. repeat split; assumption.
  - right. exists kv, f. split; [reflexivity|]. split; [assumption|].
    left. split; [assumption|reflexivity].
Qed.

Lemma load_from_json_sorted (self : MarkerManager.t) fs path self' r :
  Spec.is_sorted (MarkerManager.markers self) ->
  MarkerManager.load_from_json self fs path = Some (self', r) ->
  Spec.is_sorted (MarkerManager.markers self').
Proof.
  intros Hs. unfold MarkerManager.load_from_json.
  pose proof (load_body_cases self fs path) as H.
  destruct (MarkerManager.load_body self fs path) as [s|e s|]; [| |discriminate].
  - intros [= <- _]. destruct H as (kv & f & ms & d & ps & _ & _ & Hm & _ & _ & ->).
    eapply field_markers_sorted, Hm.
  - intros [= <- _].
    destruct H as [[_ ->]|(kv & f & _ & _ & [[_ ->]|(ms & d & Hm & _ & _ & ->)])].
    + exact Hs.
    + exact Hs.
    + eapply field_markers_sorted, Hm.
Qed.

Lemma add_marker_is_sorted (self : MarkerManager.t) (t : Q) :
  Spec.is_sorted (MarkerManager.markers self) ->
  Spec.is_sorted (MarkerManager.markers (fst (MarkerManager.add_marker self t))).
Proof.
  intros Hs. unfold MarkerManager.add_marker.
  destruct (existsb _ _); cbn; [exact Hs|apply sorted_is_sorted].
Qed.

Lemma move_marker_is_sorted (self : MarkerManager.t) (o n tol : Q) :
  Spec.is_sorted (MarkerManager.markers self) ->
  Spec.is_sorted
    (MarkerManager.markers (fst (MarkerManager.move_marker self o n tol))).
Proof.
  intros Hs. unfold MarkerManager.move_marker.
  destruct (MarkerManager.find_index _ _); cbn; [apply sorted_is_sorted|exact Hs].
Qed.

(** The markers of an object of the class are sorted. *)
Lemma reachable_sorted (self : MarkerManager.t) :
  Spec.reachable self -> Spec.is_sorted (MarkerManager.markers self).
Proof.
  induction 1 as [|self t _ IH|self t tol _ IH|self o n tol _ IH|self _ _
                 |self ms _ _|self fs path self' r _ IH Hl|self self' _ IH E].
  - apply is_sorted_nil.
  - apply add_marker_is_sorted, IH.
  - eapply is_sorted_sublist; [apply remove_marker_sublist|exact IH].
  - apply move_marker_is_sorted, IH.
  - apply is_sorted_nil.
  - apply sorted_is_sorted.
  - eapply load_from_json_sorted; eassumption.
  - rewrite E. exact IH.
Qed.

(** C3: for every object of the class, [save_to_json] followed by
    [load_from_json] of the written file gives back the markers, the
    exclusions, the file name and the duration that were saved; and a file
    whose [excluded_splits] is a non-empty array with a first element that is
    not a list (the old format of indices) loads with success and no
    exclusion. *)
Theorem save_load_round_trip :
  (forall (self other : MarkerManager.t) (fs : Fs.t) (filepath : string),
     Spec.reachable self ->
     MarkerManager.json_path filepath ∉ Fs.locked fs ->
     let saved := MarkerManager.save_to_json self fs filepath in
     snd saved = (true, MarkerManager.MarkersSaved (MarkerManager.json_path filepath))
     /\ exists self',
          MarkerManager.load_from_json other (fst saved)
            (MarkerManager.json_path filepath)
          = Some (self',
                  (true,
                   MarkerManager.Loaded (length (MarkerManager.markers self)),
                   MarkerManager.audio_filename self))
          /\ MarkerManager.markers self' = MarkerManager.markers self
          /\ MarkerManager.excluded_splits self'
             = MarkerManager.excluded_splits self
          /\ self' = self)
  /\ (forall (other : MarkerManager.t) (fs : Fs.t) (filepath : string)
        kv first rest f ms d,
     Fs.files fs !! filepath = Some (Fs.Document (Json.Obj kv)) ->
     Json.get "excluded_splits" kv = Some (Json.Arr (first :: rest)) ->
     Json.is_list first = false ->
     MarkerManager.field_audio_filename kv = Some f ->
     MarkerManager.field_markers kv = MarkerManager.SortedOk ms ->
     MarkerManager.field_audio_duration kv = Some d ->
     MarkerManager.load_from_json other fs filepath
     = Some (MarkerManager.mk ms [] f d,
             (true, MarkerManager.Loaded (length ms), f))).
Proof.
  split.
  - intros self other fs filepath Hr Hl saved. subst saved.
    unfold MarkerManager.save_to_json.
    destruct (decide (MarkerManager.json_path filepath ∈ Fs.locked fs)) as [Hin|_];
      [contradiction|].
    split; [reflexivity|]. exists self. cbn [fst].
    unfold MarkerManager.load_from_json.
    rewrite (load_saved self other); [repeat split| |].
    + apply reachable_sorted, Hr.
    + unfold Fs.write. cbn. apply lookup_insert_eq.
  - intros other fs filepath kv first rest f ms d Hf Hex Hfirst H1 H2 H3.
    unfold MarkerManager.load_from_json, MarkerManager.load_body,
      MarkerManager.read_json.
    rewrite Hf, H1, H2, H3. unfold MarkerManager.field_excluded_splits.
    rewrite Hex, Hfirst. reflexivity.
Qed.

Lemma save_load_round_trip_witness :
  let self := fst (MarkerManager.add_marker
                     (fst (MarkerManager.add_marker MarkerManager.init 7)) 3) in
  let self := MarkerManager.with_excluded_splits self [(3, 7)] in
  let fs := Fs.mk ∅ ∅ in
  let legacy :=
    Json.Obj [("audio_filename"%string, Json.Str "a.wav");
              ("markers"%string, Json.Arr [Json.Num 7; Json.Num 3]);
              ("excluded_splits"%string, Json.Arr [Json.Num 0; Json.Num 2]);
              ("audio_duration"%string, Json.Num 10)] in
  (exists self',
     MarkerManager.load_from_json MarkerManager.init
       (fst (MarkerManager.save_to_json self fs "m")) "m.json"
     = Some (self', (true, MarkerManager.Loaded 2, None))
     /\ MarkerManager.markers self' = [3; 7]
     /\ MarkerManager.excluded_splits self' = [(3, 7)])
  /\ MarkerManager.load_from_json MarkerManager.init
       (Fs.mk {[ "old.json"%string := Fs.Document legacy ]} ∅) "old.json"
     = Some (MarkerManager.mk [3; 7] [] (Some "a.wav"%string) 10,
             (true, MarkerManager.Loaded 2, Some "a.wav"%string)).
Proof.
  intros self0 self fs legacy. split.
  - destruct (proj1 save_load_round_trip self MarkerManager.init fs "m")
      as (_ & self' & Hl & Hm & He & _).
    + apply (Spec.reach_other self0); [|reflexivity].
      apply Spec.reach_add, Spec.reach_add, Spec.reach_init.
    + apply not_elem_of_empty.
    + exists self'. split; [exact Hl|]. split; [exact Hm|exact He].
  - eapply (proj2 save_load_round_trip); try reflexivity.
Defined.




(** ** Writing one file *)

Lemma string_app_length (a b : string) :
  String.length (String.app a b) = (String.length a + String.length b)%nat.
Proof. induction a as [|c a IH]; simpl; [reflexivity|]. rewrite IH. reflexivity. Qed.

Lemma temp_wav_neq (p : string) : String.app p ".temp.wav" <> p.
Proof.
  intros H. apply (f_equal String.length) in H.
  rewrite string_app_length in H. simpl in H. lia.
Qed.

(** For MP3 and OGG the intermediate WAV file is gone when
    [_export_audio] returns without an exception. *)
Lemma export_audio_success_removes_temp (lib : AudioProcessor.Lib)
  (fs fs' : gmap string AudioProcessor.audio_file) audio output_path format
  sample_rate quality :
  format <> "wav"%string -> format <> "flac"%string ->
  AudioProcessor._export_audio lib fs audio output_path format sample_rate quality
  = (fs', None) ->
  fs' !! String.app output_path ".temp.wav" = None.
Proof.
  intros Hw Hf. unfold AudioProcessor._export_audio.
  apply String.eqb_neq in Hw, Hf. rewrite Hw, Hf.
  unfold AudioProcessor.sf_write, AudioProcessor.pydub_export.
  destruct (AudioProcessor.sf_write_ok lib _); [|discriminate].
  destruct (String.eqb format "mp3");
    [|destruct (String.eqb format "ogg")];
    try (destruct (AudioProcessor.encode_ok lib output_path); [|discriminate]);
    intros [= <-]; apply lookup_delete_eq.
Qed.

(** When the encoder raises, [_export_audio] raises with the intermediate WAV
    file still there. *)
Lemma export_audio_failure_keeps_temp (lib : AudioProcessor.Lib)
  (fs : gmap string AudioProcessor.audio_file) audio output_path format
  sample_rate quality :
  format = "mp3"%string \/ format = "ogg"%string ->
  AudioProcessor.sf_write_ok lib (String.app output_path ".temp.wav") = true ->
  AudioProcessor.encode_ok lib output_path = false ->
  AudioProcessor._export_audio lib fs audio output_path format sample_rate quality
  = (<[String.app output_path ".temp.wav" :=
         AudioProcessor.WavPcm16 audio sample_rate]> fs,
     Some Py.EncoderError).
Proof.
  intros Hfmt Hw He. unfold AudioProcessor._export_audio,
    AudioProcessor.sf_write, AudioProcessor.pydub_export.
  rewrite Hw, He. destruct Hfmt as [-> | ->]; reflexivity.
Qed.

(** C7 on a failing encode: an MP3 export whose encoder raises ends with the
    exception and with the intermediate file [out/split_1.mp3.temp.wav] among
    the files. *)
Theorem export_audio_temp_left_behind :
  let lib :=
    AudioProcessor.mkLib (fun y => y) (fun y _ _ => y) (fun _ => true)
      (fun _ => true) (fun _ => false) in
  let audio := AudioProcessor.Mono [0; 1 # 2] in
  let r := AudioProcessor._export_audio lib ∅ audio "out/split_1.mp3" "mp3"
             44100 "high" in
  snd r = Some Py.EncoderError
  /\ fst r !! "out/split_1.mp3.temp.wav"%string
     = Some (AudioProcessor.WavPcm16 audio 44100)
  /\ fst r !! "out/split_1.mp3"%string = None.
Proof.
  intros lib audio r. subst r.
  rewrite (export_audio_failure_keeps_temp lib ∅ audio "out/split_1.mp3" "mp3"
             44100 "high"); [|left; reflexivity|reflexivity|reflexivity].
  change (String.app "out/split_1.mp3" ".temp.wav")
    with "out/split_1.mp3.temp.wav"%string.
  cbn [fst snd]. split; [reflexivity|]. split.
  - apply lookup_insert_eq.
  - rewrite lookup_insert_ne by discriminate. apply lookup_empty.
Qed.

(** ** The frames of an exported split *)

Lemma int_floor (x : Q) : 0 <= x -> Py.int x = Qfloor x.
Proof.
  destruct x as [n d]. unfold Qle, Py.int, Qfloor. simpl. intros H.
  apply Z.quot_div_nonneg; lia.
Qed.




(** ** Silent regions *)

Lemma geb_ge (a b : Q) : Py.geb a b = true <-> b <= a.
Proof. apply Qle_bool_iff. Qed.

Ltac scan_simpl :=
  cbv iota;
  cbn [AudioProcessor.in_silence AudioProcessor.silent_regions
         AudioProcessor.silence_start].

Section Scan.

Variable time : nat -> Q.
Hypothesis time_mono : forall i j, (i < j)%nat -> time i < time j.
Variable min_silence_duration : Q.
Variable flags : list bool.

Let inv := Spec.scan_inv time min_silence_duration flags.

(** Two runs that end at the same frame are the same run. *)
Lemma silent_run_start_unique (i i' p : nat) :
  (i < p)%nat -> (i' < p)%nat ->
  Spec.all_silent flags i p -> Spec.all_silent flags i' p ->
  (i = O \/ flags !! pred i = Some false) ->
  (i' = O \/ flags !! pred i' = Some false) ->
  i = i'.
Proof.
  intros Hi Hi' Ha Ha' Hl Hl'.
  destruct (Nat.lt_trichotomy i i') as [Hlt|[Heq|Hgt]]; [|exact Heq|].
  - destruct Hl' as [->|Hf]; [lia|].
    rewrite (Ha (pred i')) in Hf by lia. discriminate.
  - destruct Hl as [->|Hf]; [lia|].
    rewrite (Ha' (pred i)) in Hf by lia. discriminate.
Qed.

Lemma scan_inv_init :
  inv O (AudioProcessor.mkScan [] false 0).
Proof.
  unfold inv, Spec.scan_inv. cbn.
  split; [left; reflexivity|]. split.
  - intros s e. split.
    + intros H. apply elem_of_nil in H as [].
    + intros (i & j & _ & Hj & _). lia.
  - intros a b r1 r2 _ H. rewrite lookup_nil in H. discriminate.
Qed.

(** The closed runs after one more frame: those closed before, and the run
    that ends at this frame when there is one. *)
Lemma closed_runs_step (p : nat) (i j : nat) :
  Spec.silent_run flags i j /\ (j < S p)%nat
  <-> (Spec.silent_run flags i j /\ (j < p)%nat)
      \/ (Spec.silent_run flags i j /\ j = p).
Proof.
  split.
  - intros [H Hj]. destruct (decide (j = p)) as [->|Hn]; [right|left];
      (split; [exact H|lia]).
  - intros [[H Hj]|[H ->]]; (split; [exact H|lia]).
Qed.

Lemma scan_step_inv (p : nat) (st : AudioProcessor.scan) (f : bool) :
  inv p st -> flags !! p = Some f ->
  inv (S p) (AudioProcessor.scan_step min_silence_duration st (f, time p)).
Proof.
  intros (HA & HB & HC) Hf.
  pose proof (lookup_lt_Some _ _ _ Hf) as Hp.
  unfold AudioProcessor.scan_step.
  destruct f, (AudioProcessor.in_silence st) eqn:Es; cbn [andb negb].
  - (* a silent frame inside a run *)
    destruct HA as (i & Hi & Hs & Ha & Hl).
    split; [|split; [|exact HC]].
    + rewrite Es. exists i. split; [lia|]. split; [exact Hs|].
      split; [|exact Hl]. intros k Hk.
      destruct (decide (k = p)) as [->|Hn]; [exact Hf|apply Ha; lia].
    + intros s e. rewrite HB. split.
      * intros (i' & j & Hr & Hj & Hse). exists i', j.
        split; [exact Hr|]. split; [lia|exact Hse].
      * intros (i' & j & Hr & Hj & Hse). exists i', j.
        split; [exact Hr|]. split; [|exact Hse].
        destruct (decide (j = p)) as [->|Hn]; [|lia].
        destruct Hr as (_ & _ & _ & [He|He]); [lia|congruence].
  - (* a silent frame that starts a run *)
    cbn [AudioProcessor.in_silence AudioProcessor.silent_regions
           AudioProcessor.silence_start].
    split; [|split; [|exact HC]].
    + exists p. split; [lia|]. split; [reflexivity|]. split; [|exact HA].
      intros k Hk. replace k with p by lia. exact Hf.
    + intros s e. rewrite HB. split.
      * intros (i' & j & Hr & Hj & Hse). exists i', j.
        split; [exact Hr|]. split; [lia|exact Hse].
      * intros (i' & j & Hr & Hj & Hse). exists i', j.
        split; [exact Hr|]. split; [|exact Hse].
        destruct (decide (j = p)) as [->|Hn]; [|lia].
        destruct Hr as (_ & _ & _ & [He|He]); [lia|congruence].
  - (* a frame that is not silent and ends a run *)
    destruct HA as (i & Hi & Hs & Ha & Hl).
    assert (Hrun : Spec.silent_run flags i p).
    { split; [exact Hi|]. split; [exact Ha|]. split; [exact Hl|right; exact Hf]. }
    assert (Hbefore : forall r, r ∈ AudioProcessor.silent_regions st ->
                        snd r <= time i).
    { intros [s e] Hr. apply HB in Hr as (i' & j & Hr & Hj & -> & -> & _).
      simpl. destruct (decide (j <= i)%nat) as [Hle|Hgt].
      - destruct (decide (j = i)) as [->|Hne]; [apply Qle_refl|].
        apply Qlt_le_weak, time_mono. lia.
      - destruct Hr as (_ & _ & _ & [He|He]); [lia|].
        rewrite (Ha j) in He by lia. discriminate. }
    cbn [AudioProcessor.in_silence AudioProcessor.silent_regions
           AudioProcessor.silence_start].
    split; [right; exact Hf|].
    destruct (Py.geb (time p - AudioProcessor.silence_start st)
                min_silence_duration) eqn:Eg.
    + apply geb_ge in Eg. scan_simpl. split.
      * intros s e. rewrite elem_of_app, list_elem_of_singleton, HB. split.
        -- intros [(i' & j & Hr & Hj & Hse)|[= -> ->]].
           ++ exists i', j. split; [exact Hr|]. split; [lia|exact Hse].
           ++ exists i, p. split; [exact Hrun|]. split; [lia|].
              split; [exact Hs|]. split; [reflexivity|exact Eg].
        -- intros (i' & j & Hr & Hj & Hse).
           destruct (decide (j = p)) as [->|Hn].
           ++ right. destruct Hr as (Hi' & Ha' & Hl' & _).
              assert (i = i') as <-
                by (eapply silent_run_start_unique; eassumption).
              destruct Hse as (-> & -> & _). rewrite Hs. reflexivity.
           ++ left. exists i', j. split; [exact Hr|]. split; [lia|exact Hse].
      * intros a b r1 r2 Hab H1 H2.
        destruct (decide (b < length (AudioProcessor.silent_regions st))%nat)
          as [Hb|Hb].
        -- rewrite lookup_app_l in H1 by lia. rewrite lookup_app_l in H2 by lia.
           exact (HC a b r1 r2 Hab H1 H2).
        -- rewrite lookup_app_r in H2 by lia.
           destruct (b - length (AudioProcessor.silent_regions st))%nat eqn:Eb;
             [|destruct n; discriminate].
           injection H2 as <-. simpl. rewrite Hs.
           rewrite lookup_app_l in H1 by lia.
           apply (Hbefore r1). eapply list_elem_of_lookup_2, H1.
    + assert (Hlt : ~ min_silence_duration
                      <= time p - AudioProcessor.silence_start st).
      { intros H. apply geb_ge in H. congruence. }
      scan_simpl. split; [|exact HC].
      intros s e. rewrite HB. split.
      * intros (i' & j & Hr & Hj & Hse). exists i', j.
        split; [exact Hr|]. split; [lia|exact Hse].
      * intros (i' & j & Hr & Hj & Hse). exists i', j.
        split; [exact Hr|]. split; [|exact Hse].
        destruct (decide (j = p)) as [->|Hn]; [|lia].
        destruct Hr as (Hi' & Ha' & Hl' & _).
        assert (i = i') as <- by (eapply silent_run_start_unique; eassumption).
        destruct Hse as (-> & -> & Hm). rewrite Hs in Hlt. contradiction.
  - (* a frame that is not silent outside a run *)
    split; [|split; [|exact HC]].
    + rewrite Es. right. exact Hf.
    + intros s e. rewrite HB. split.
      * intros (i' & j & Hr & Hj & Hse). exists i', j.
        split; [exact Hr|]. split; [lia|exact Hse].
      * intros (i' & j & Hr & Hj & Hse). exists i', j.
        split; [exact Hr|]. split; [|exact Hse].
        destruct (decide (j = p)) as [->|Hn]; [|lia].
        destruct Hr as (Hi' & Ha' & _ & _).
        destruct HA as [->|HA]; [lia|].
        rewrite (Ha' (pred p)) in HA by lia. discriminate.
Qed.

Let frames_list := zip flags (map time (seq 0 (length flags))).

Lemma frames_list_lookup (p : nat) (f : bool) :
  flags !! p = Some f -> frames_list !! p = Some (f, time p).
Proof.
  intros Hf. pose proof (lookup_lt_Some _ _ _ Hf) as Hp.
  unfold frames_list. rewrite lookup_zip_with, Hf. cbn.
  change (map time) with (@fmap list _ _ _ time).
  rewrite list_lookup_fmap, lookup_seq_lt by exact Hp. reflexivity.
Qed.

Lemma scan_fold_inv (p : nat) :
  (p <= length flags)%nat ->
  inv p (fold_left (AudioProcessor.scan_step min_silence_duration)
           (take p frames_list) (AudioProcessor.mkScan [] false 0)).
Proof.
  induction p as [|p IH]; intros Hp.
  - apply scan_inv_init.
  - destruct (lookup_lt_is_Some_2 flags p) as [f Hf]; [lia|].
    rewrite (take_S_r _ _ _ (frames_list_lookup p f Hf)), fold_left_app.
    cbn [fold_left]. apply scan_step_inv; [apply IH; lia|exact Hf].
Qed.

Lemma silent_run_end (i j : nat) :
  Spec.silent_run flags i j -> (j <= length flags)%nat.
Proof.
  intros (Hij & Ha & _). specialize (Ha (pred j)).
  assert (H : flags !! pred j = Some true) by (apply Ha; lia).
  apply lookup_lt_Some in H. lia.
Qed.

Variable end_time : Q.

(** The regions [detect_silence] returns are the regions of the runs of
    silent frames that last long enough, in order and without overlap. *)
Lemma scan_close_spec :
  let regions :=
    AudioProcessor.scan_close min_silence_duration end_time
      (fold_left (AudioProcessor.scan_step min_silence_duration) frames_list
         (AudioProcessor.mkScan [] false 0)) in
  (forall s e, (s, e) ∈ regions
     <-> exists i j, Spec.silent_run flags i j
           /\ (s, e) = Spec.run_region time end_time flags i j
           /\ min_silence_duration <= e - s)
  /\ (time (pred (length flags)) <= end_time -> Spec.ordered_disjoint regions).
Proof.
  pose proof (scan_fold_inv (length flags) (Nat.le_refl _)) as Hinv.
  assert (Ht : take (length flags) frames_list = frames_list).
  { apply take_ge. unfold frames_list.
    rewrite length_zip_with, length_map, length_seq. lia. }
  rewrite Ht in Hinv. clear Ht.
  set (st := fold_left _ _ _) in *. destruct Hinv as (HA & HB & HC).
  intros regions.
  assert (Hclosed : forall s e,
            (s, e) ∈ AudioProcessor.silent_regions st
            <-> exists i j, Spec.silent_run flags i j
                  /\ (j < length flags)%nat
                  /\ (s, e) = Spec.run_region time end_time flags i j
                  /\ min_silence_duration <= e - s).
  { intros s e. rewrite HB. unfold Spec.run_region.
    split; intros (i & j & Hr & Hj & H); exists i, j;
      (split; [exact Hr|]; split; [exact Hj|]);
      apply Nat.ltb_lt in Hj; rewrite Hj in *.
    - destruct H as (-> & -> & H). split; [reflexivity|exact H].
    - destruct H as ([= -> ->] & H). split; [reflexivity|]. split;
        [reflexivity|exact H]. }
  assert (Hiff : forall s e, (s, e) ∈ regions
     <-> exists i j, Spec.silent_run flags i j
           /\ (s, e) = Spec.run_region time end_time flags i j
           /\ min_silence_duration <= e - s).
  { intros s e. subst regions. unfold AudioProcessor.scan_close.
    destruct (AudioProcessor.in_silence st) eqn:Es.
    - destruct HA as (i & Hi & Hs & Ha & Hl).
      assert (Hrun : Spec.silent_run flags i (length flags)).
      { split; [exact Hi|]. split; [exact Ha|]. split; [exact Hl|left; reflexivity]. }
      assert (Hlast : forall i' s' e',
                Spec.silent_run flags i' (length flags) ->
                (s', e') = Spec.run_region time end_time flags i' (length flags) ->
                (s', e') = (AudioProcessor.silence_start st, end_time)).
      { intros i' s' e' (Hi' & Ha' & Hl' & _) E.
        assert (i = i') as <- by (eapply silent_run_start_unique; eassumption).
        unfold Spec.run_region in E. rewrite Nat.ltb_irrefl in E.
        rewrite Hs. exact E. }
      destruct (Py.geb (end_time - AudioProcessor.silence_start st)
                  min_silence_duration) eqn:Eg.
      + apply geb_ge in Eg.
        rewrite elem_of_app, list_elem_of_singleton, Hclosed. split.
        * intros [(i' & j & Hr & _ & H)|[= -> ->]].
          -- exists i', j. split; [exact Hr|exact H].
          -- exists i, (length flags). split; [exact Hrun|].
             unfold Spec.run_region. rewrite Nat.ltb_irrefl, Hs.
             split; [reflexivity|]. rewrite <- Hs. exact Eg.
        * intros (i' & j & Hr & H).
          pose proof (silent_run_end _ _ Hr) as Hj.
          destruct (decide (j = length flags)) as [->|Hn].
          -- right. eapply Hlast; [exact Hr|apply H].
          -- left. exists i', j. split; [exact Hr|]. split; [lia|exact H].
      + rewrite Hclosed. split.
        * intros (i' & j & Hr & _ & H). exists i', j. split; [exact Hr|exact H].
        * intros (i' & j & Hr & H).
          pose proof (silent_run_end _ _ Hr) as Hj.
          destruct (decide (j = length flags)) as [->|Hn].
          -- destruct H as [E Hm].
             pose proof (Hlast _ _ _ Hr E) as [= -> ->].
             apply geb_ge in Hm. congruence.
          -- exists i', j. split; [exact Hr|]. split; [lia|exact H].
    - rewrite Hclosed. split.
      + intros (i' & j & Hr & _ & H). exists i', j. split; [exact Hr|exact H].
      + intros (i' & j & Hr & H).
        pose proof (silent_run_end _ _ Hr) as Hj.
        destruct (decide (j = length flags)) as [->|Hn].
        * destruct Hr as (Hi' & Ha' & _ & _).
          destruct HA as [HA|HA]; [lia|].
          rewrite (Ha' (pred (length flags))) in HA by lia. discriminate.
        * exists i', j. split; [exact Hr|]. split; [lia|exact H]. }
  split; [exact Hiff|]. intros Hend. split.
  - intros [s e] Hin. apply Hiff in Hin as (i & j & Hr & [= -> ->] & _).
    simpl. pose proof (silent_run_end _ _ Hr) as Hj.
    destruct Hr as (Hij & _).
    destruct (j <? length flags)%nat eqn:E.
    + apply Qlt_le_weak, time_mono, Hij.
    + apply Nat.ltb_ge in E.
      destruct (decide (i = pred (length flags))) as [->|Hn]; [exact Hend|].
      apply Qle_trans with (time (pred (length flags))); [|exact Hend].
      apply Qlt_le_weak, time_mono. lia.
  - subst regions. unfold AudioProcessor.scan_close.
    destruct (AudioProcessor.in_silence st) eqn:Es; [|exact HC].
    destruct (Py.geb _ _); [|exact HC].
    destruct HA as (i & Hi & Hs & Ha & Hl).
    intros a b r1 r2 Hab H1 H2.
    destruct (decide (b < length (AudioProcessor.silent_regions st))%nat)
      as [Hb|Hb].
    + rewrite lookup_app_l in H1 by lia. rewrite lookup_app_l in H2 by lia.
      exact (HC a b r1 r2 Hab H1 H2).
    + rewrite lookup_app_r in H2 by lia.
      destruct (b - length (AudioProcessor.silent_regions st))%nat eqn:Eb;
        [|destruct n; discriminate].
      injection H2 as <-. simpl. rewrite Hs.
      rewrite lookup_app_l in H1 by lia.
      apply list_elem_of_lookup_2 in H1. destruct r1 as [s e].
      apply HB in H1 as (i' & j & Hr & Hj & -> & -> & _). simpl.
      destruct (decide (j <= i)%nat) as [Hle|Hgt].
      * destruct (decide (j = i)) as [->|Hne]; [apply Qle_refl|].
        apply Qlt_le_weak, time_mono. lia.
      * destruct Hr as (_ & _ & _ & [He|He]); [lia|].
        rewrite (Ha j) in He by lia. discriminate.
Qed.

End Scan.

Lemma frames_to_time_mono (sr : Z) (i j : nat) :
  (0 < sr)%Z -> (i < j)%nat ->
  AudioProcessor.frames_to_time sr i < AudioProcessor.frames_to_time sr j.
Proof.
  intros Hsr Hij. unfold AudioProcessor.frames_to_time.
  assert (H0 : 0 < inject_Z sr).
  { change 0 with (inject_Z 0). rewrite <- Zlt_Qlt. exact Hsr. }
  apply Qmult_lt_compat_r; [apply Qinv_lt_0_compat, H0|].
  rewrite <- Zlt_Qlt. unfold AudioProcessor.hop_length. lia.
Qed.

(** An object written by [load_audio] has the last analysis frame within the
    buffer, [librosa] giving one frame for every 512 samples and one more. *)
Lemma load_audio_last_frame (self0 self : AudioProcessor.t) audio sr path r
  (n : nat) :
  AudioProcessor.load_audio self0 (inr (audio, sr)) path = (self, r) ->
  (0 < sr)%Z ->
  n = S (AudioProcessor.frames audio / 512) ->
  AudioProcessor.frames_to_time (AudioProcessor.sample_rate self) (pred n)
  <= AudioProcessor.duration self.
Proof.
  intros [= <- _] Hsr ->. cbn [AudioProcessor.sample_rate AudioProcessor.duration].
  unfold AudioProcessor.frames_to_time, AudioProcessor.hop_length.
  assert (H0 : 0 < inject_Z sr).
  { change 0 with (inject_Z 0). rewrite <- Zlt_Qlt. exact Hsr. }
  apply Qmult_le_compat_r; [|apply Qlt_le_weak, Qinv_lt_0_compat, H0].
  rewrite <- Zle_Qle. cbn [pred].
  pose proof (Nat.Div0.mul_div_le (AudioProcessor.frames audio) 512). lia.
Qed.



(** ** Concatenation *)








(** ** The numbers in the names of the exported files *)

Lemma digit_value_char (y : N) :
  (y < 10)%N -> Spec.digit_value (pretty_N_char y) = y.
Proof.
  intros H.
  assert (y = 0 \/ y = 1 \/ y = 2 \/ y = 3 \/ y = 4 \/ y = 5 \/ y = 6
          \/ y = 7 \/ y = 8 \/ y = 9)%N as Hy by lia.
  repeat (destruct Hy as [->|Hy]; [reflexivity|]). subst y. reflexivity.
Qed.

(** The digits [pretty_N_go] puts in front of a string: their number [d],
    which is the number of decimal digits of [x], and the number they read
    as. *)
Lemma pretty_N_go_digits (x : N) :
  exists d : nat,
    (x = 0%N -> d = O)
    /\ ((0 < x)%N -> (1 <= d)%nat /\ (10 ^ N.of_nat (d - 1) <= x < 10 ^ N.of_nat d)%N)
    /\ (forall s, String.length (pretty_N_go x s) = (d + String.length s)%nat)
    /\ (forall acc s, Spec.read_digits acc (pretty_N_go x s)
                      = Spec.read_digits (acc * 10 ^ N.of_nat d + x) s).
Proof.
  induction (N.lt_wf_0 x) as [x _ IH].
  destruct (N.eq_dec x 0%N) as [->|Hx].
  - exists O. split; [reflexivity|]. split; [lia|]. split.
    + intros s. reflexivity.
    + intros acc s. rewrite pretty_N_go_0. f_equal. simpl. lia.
  - assert (Hpos : (0 < x)%N) by lia.
    destruct (IH (x `div` 10)%N) as (d & H0 & Hb & Hl & Hr).
    { apply N.div_lt; lia. }
    exists (S d). split; [lia|]. split; [|split].
    + intros _. split; [lia|].
      replace (S d - 1)%nat with d by lia.
      rewrite Nat2N.inj_succ, N.pow_succ_r'.
      pose proof (N.div_mod x 10%N ltac:(lia)) as Hdm.
      pose proof (N.mod_lt x 10%N ltac:(lia)) as Hm.
      destruct (N.eq_dec (x `div` 10)%N 0%N) as [Hz|Hz].
      * rewrite (H0 Hz). simpl. clear IH Hr Hl H0 Hb.
        generalize dependent (x `div` 10)%N.
        generalize dependent (x `mod` 10)%N. intros. lia.
      * destruct Hb as (Hd & Hlo & Hhi); [lia|].
        replace (N.of_nat d) with (N.succ (N.of_nat (d - 1))) in * by lia.
        rewrite N.pow_succ_r' in *. clear IH Hr Hl H0.
        set (q := (10 ^ N.of_nat (d - 1))%N) in *. clearbody q.
        generalize dependent (x `div` 10)%N.
        generalize dependent (x `mod` 10)%N. intros. lia.
    + intros s. rewrite pretty_N_go_step by exact Hpos. rewrite Hl. simpl. lia.
    + intros acc s. rewrite pretty_N_go_step by exact Hpos. rewrite Hr.
      cbn [Spec.read_digits]. f_equal.
      rewrite digit_value_char by (apply N.mod_lt; lia).
      rewrite Nat2N.inj_succ, N.pow_succ_r'.
      pose proof (N.div_mod x 10%N ltac:(lia)) as Hdm. lia.
Qed.

Lemma str_of_N (x : N) :
  Py.str (Z.of_N x) = if decide (x = 0%N) then "0"%string else pretty_N_go x "".
Proof.
  destruct x as [|p]; [reflexivity|]. reflexivity.
Qed.

(** The number of characters of [str(x)] for [x >= 0]. *)
Lemma str_length (x : N) :
  exists d : nat,
    String.length (Py.str (Z.of_N x)) = d
    /\ (1 <= d)%nat
    /\ (x < 10 ^ N.of_nat d)%N
    /\ ((0 < x)%N -> (10 ^ N.of_nat (d - 1) <= x)%N).
Proof.
  rewrite str_of_N. destruct (decide (x = 0%N)) as [->|Hx].
  - exists 1%nat. split; [reflexivity|]. split; [lia|]. split; [reflexivity|lia].
  - destruct (pretty_N_go_digits x) as (d & _ & Hb & Hl & _).
    destruct Hb as (Hd & Hlo & Hhi); [lia|].
    exists d. rewrite Hl. simpl. split; [lia|]. split; [exact Hd|].
    split; [exact Hhi|]. intros _. exact Hlo.
Qed.

Lemma str_length_mono (x y : N) :
  (x <= y)%N ->
  (String.length (Py.str (Z.of_N x)) <= String.length (Py.str (Z.of_N y)))%nat.
Proof.
  intros Hxy.
  destruct (str_length x) as (dx & Ex & Hdx & _ & Hlo).
  destruct (str_length y) as (dy & Ey & Hdy & Hhi & _).
  rewrite Ex, Ey.
  destruct (N.eq_dec x 0%N) as [->|Hx].
  - simpl in Ex. lia.
  - specialize (Hlo ltac:(lia)).
    assert (H : (10 ^ N.of_nat (dx - 1) < 10 ^ N.of_nat dy)%N) by lia.
    apply N.pow_lt_mono_r_iff in H; lia.
Qed.

Lemma read_str (x : N) : Spec.read_number (Py.str (Z.of_N x)) = x.
Proof.
  rewrite str_of_N. destruct (decide (x = 0%N)) as [->|Hx]; [reflexivity|].
  destruct (pretty_N_go_digits x) as (d & _ & _ & _ & Hr).
  unfold Spec.read_number. rewrite Hr. simpl. lia.
Qed.

Lemma read_digits_zeros (m : nat) (s : string) :
  Spec.read_digits 0 (String.app (Py.zeros m) s) = Spec.read_digits 0 s.
Proof. induction m as [|m IH]; [reflexivity|]. simpl. exact IH. Qed.

Lemma zeros_length (m : nat) : String.length (Py.zeros m) = m.
Proof. induction m as [|m IH]; [reflexivity|]. simpl. rewrite IH. reflexivity. Qed.

(** The number of the file of count [i], zero-padded to the width of
    [str(n)], has that width and reads as [i], for [i <= n]. *)
Lemma split_number_spec (i n : nat) :
  (i <= n)%nat ->
  let w := String.length (Py.str (Z.of_nat n)) in
  let num := Py.zfill (Py.str (Z.of_nat i)) w in
  String.length num = w /\ Spec.read_number num = N.of_nat i.
Proof.
  intros Hin w num. subst num. unfold Py.zfill.
  rewrite <- (nat_N_Z i). unfold Spec.read_number.
  rewrite read_digits_zeros. fold (Spec.read_number (Py.str (Z.of_N (N.of_nat i)))).
  rewrite read_str. split; [|reflexivity].
  rewrite string_app_length, zeros_length.
  assert (H : (String.length (Py.str (Z.of_N (N.of_nat i))) <= w)%nat).
  { subst w. rewrite <- (nat_N_Z n). apply str_length_mono. lia. }
  lia.
Qed.

Lemma string_app_inv_head (a b c : string) :
  String.app a b = String.app a c -> b = c.
Proof. induction a as [|x a IH]; simpl; [auto|]. intros [= H]. auto. Qed.

Lemma string_app_inv_length (a b x y : string) :
  String.length a = String.length b ->
  String.app a x = String.app b y -> a = b.
Proof.
  revert b. induction a as [|c a IH]; intros [|d b] Hl H; try discriminate.
  - reflexivity.
  - simpl in *. injection H as -> H. f_equal. apply IH; [lia|exact H].
Qed.

Lemma string_app_assoc (a b c : string) :
  String.app (String.app a b) c = String.app a (String.app b c).
Proof.
  induction a as [|x a IH]; [reflexivity|].
  change (String x (String.app (String.app a b) c)
          = String x (String.app a (String.app b c))).
  f_equal. exact IH.
Qed.

(** The path of a file is a text that depends on the folder and the prefix
    only, followed by the number, the dot and the format. *)
Lemma path_join_shape (folder prefix : string) :
  exists X, forall rest,
    Py.path_join folder (String.app prefix (String "_" rest)) = String.app X rest.
Proof.
  unfold Py.path_join.
  destruct prefix as [|c prefix].
  - cbn [String.app String.prefix].
    destruct (ascii_dec "/" "_") as [E|_]; [discriminate|].
    destruct (String.eqb folder "" || Py.endswith folder "/").
    + exists (String.app folder "_"). intros rest.
      rewrite string_app_assoc. reflexivity.
    + exists (String.app (String.app folder "/") "_"). intros rest.
      rewrite !string_app_assoc. reflexivity.
  - change (String.app (String c prefix) ?r) with (String c (String.app prefix r)).
    cbn [String.prefix].
    assert (Hp : forall x, String.prefix "" x = true) by (intros []; reflexivity).
    destruct (ascii_dec "/" c).
    + exists (String.app (String c prefix) "_"). intros rest.
      rewrite Hp, string_app_assoc. reflexivity.
    + destruct (String.eqb folder "" || Py.endswith folder "/").
      * exists (String.app folder (String.app (String c prefix) "_")).
        intros rest. rewrite !string_app_assoc. reflexivity.
      * exists (String.app (String.app folder "/")
                  (String.app (String c prefix) "_")).
        intros rest. rewrite !string_app_assoc. reflexivity.
Qed.

Lemma output_path_shape (folder prefix format : string) :
  exists X, forall w i,
    AudioProcessor.output_path_of folder prefix format w i
    = String.app X (String.app (Py.zfill (Py.str (Z.of_nat i)) w)
                      (String "." format)).
Proof.
  destruct (path_join_shape folder prefix) as [X HX].
  exists X. intros w i. unfold AudioProcessor.output_path_of.
  cbn [String.app]. apply HX.
Qed.

(** Within the counts [1 .. n] the paths have one length and are distinct,
    and none is the path of an intermediate file. *)
Lemma output_paths_distinct (folder prefix format : string) (n : nat) :
  let w := String.length (Py.str (Z.of_nat n)) in
  let path := AudioProcessor.output_path_of folder prefix format w in
  (forall i j, (i <= n)%nat -> (j <= n)%nat -> path i = path j -> i = j)
  /\ (forall i j, (i <= n)%nat -> (j <= n)%nat ->
        path i <> String.app (path j) ".temp.wav").
Proof.
  intros w path. destruct (output_path_shape folder prefix format) as [X HX].
  assert (Hnum : forall i, (i <= n)%nat ->
            String.length (Py.zfill (Py.str (Z.of_nat i)) w) = w
            /\ Spec.read_number (Py.zfill (Py.str (Z.of_nat i)) w) = N.of_nat i).
  { intros i Hi. exact (split_number_spec i n Hi). }
  assert (Hlen : forall i, (i <= n)%nat ->
            String.length (path i)
            = (String.length X + (w + S (String.length format)))%nat).
  { intros i Hi. subst path. cbv beta. rewrite HX, !string_app_length.
    rewrite (proj1 (Hnum i Hi)). reflexivity. }
  split.
  - intros i j Hi Hj E. subst path. cbv beta in E. rewrite !HX in E.
    apply string_app_inv_head, string_app_inv_length in E.
    + apply (f_equal Spec.read_number) in E.
      rewrite (proj2 (Hnum i Hi)), (proj2 (Hnum j Hj)) in E. lia.
    + rewrite (proj1 (Hnum i Hi)), (proj1 (Hnum j Hj)). reflexivity.
  - intros i j Hi Hj E. apply (f_equal String.length) in E.
    rewrite string_app_length, (Hlen i Hi), (Hlen j Hj) in E. simpl in E. lia.
Qed.

(** ** The files of an export *)

Section ExportLoop.

Variable lib : AudioProcessor.Lib.
Hypothesis sf_write_succeeds : forall p, AudioProcessor.sf_write_ok lib p = true.
Hypothesis encode_succeeds : forall p, AudioProcessor.encode_ok lib p = true.
Variable args : AudioProcessor.export_args.
Hypothesis known_format :
  AudioProcessor.output_format args = "wav"%string
  \/ AudioProcessor.output_format args = "flac"%string
  \/ AudioProcessor.output_format args = "mp3"%string
  \/ AudioProcessor.output_format args = "ogg"%string.

(** When nothing raises, [_export_audio] leaves the encoded file at the
    output path and, apart from the intermediate file, the other files as
    they were. *)
Lemma export_audio_ok (fs : gmap string AudioProcessor.audio_file)
  (segment : AudioProcessor.ndarray) (p : string) :
  exists fs1,
    AudioProcessor._export_audio lib fs segment p
      (AudioProcessor.output_format args) (AudioProcessor.target_rate args)
      (AudioProcessor.quality args) = (fs1, None)
    /\ fs1 !! p = Some (Spec.encoded_file args segment)
    /\ (forall p', p' <> p -> p' <> String.app p ".temp.wav" ->
          fs1 !! p' = fs !! p')
    /\ (forall p', is_Some (fs1 !! p') -> p' = p \/ is_Some (fs !! p')).
Proof.
  unfold AudioProcessor._export_audio, Spec.encoded_file,
    AudioProcessor.sf_write, AudioProcessor.pydub_export.
  rewrite !sf_write_succeeds, !encode_succeeds.
  pose proof (temp_wav_neq p) as Hne.
  assert (Hplain : forall f,
            <[p := f]> fs !! p = Some f
            /\ (forall p', p' <> p -> p' <> String.app p ".temp.wav" ->
                  <[p := f]> fs !! p' = fs !! p')
            /\ (forall p', is_Some (<[p := f]> fs !! p') ->
                  p' = p \/ is_Some (fs !! p'))).
  { intros f. split; [apply lookup_insert_eq|]. split.
    - intros p' H1 _. apply lookup_insert_ne. congruence.
    - intros p' H. destruct (decide (p' = p)) as [->|H1]; [left; reflexivity|].
      right. rewrite lookup_insert_ne in H by congruence. exact H. }
  assert (Hlossy : forall f w,
            let fs1 := delete (String.app p ".temp.wav")
                         (<[p := f]> (<[String.app p ".temp.wav" := w]> fs)) in
            fs1 !! p = Some f
            /\ (forall p', p' <> p -> p' <> String.app p ".temp.wav" ->
                  fs1 !! p' = fs !! p')
            /\ (forall p', is_Some (fs1 !! p') -> p' = p \/ is_Some (fs !! p'))).
  { intros f w fs1. subst fs1. split; [|split].
    - rewrite lookup_delete_ne by exact Hne. apply lookup_insert_eq.
    - intros p' H1 H2. rewrite lookup_delete_ne by congruence.
      rewrite !lookup_insert_ne by congruence. reflexivity.
    - intros p' H. destruct (decide (p' = p)) as [->|H1]; [left; reflexivity|].
      right. destruct (decide (p' = String.app p ".temp.wav")) as [->|H2].
      + rewrite lookup_delete_eq in H. destruct H as [? H]. discriminate.
      + rewrite lookup_delete_ne in H by congruence.
        rewrite !lookup_insert_ne in H by congruence. exact H. }
  destruct known_format as [E|[E|[E|E]]]; rewrite E; cbn [String.eqb Ascii.eqb Bool.eqb];
    cbn.
  - eexists. split; [reflexivity|]. apply Hplain.
  - eexists. split; [reflexivity|]. apply Hplain.
  - eexists. split; [reflexivity|]. apply Hlossy.
  - eexists. split; [reflexivity|]. apply Hlossy.
Qed.

Variable self : AudioProcessor.t.
Variable audio : AudioProcessor.ndarray.
Variable split_times : list Q.
Variable excluded_splits : list Z.
Variable num_digits : nat.

Let path :=
  AudioProcessor.output_path_of (AudioProcessor.output_folder args)
    (AudioProcessor.filename_prefix args) (AudioProcessor.output_format args)
    num_digits.

Let segment (i : nat) :=
  AudioProcessor.segment_of lib self audio (nth i split_times 0)
    (nth (i + 1) split_times 0) (AudioProcessor.target_rate args)
    (AudioProcessor.target_channels args) (AudioProcessor.trim_silence args).

Let keep (i : nat) := negb (existsb (Z.eqb (Z.of_nat i)) excluded_splits).

(** The loop of [export_splits] when nothing raises: the included indices
    get the next counts in order, and the files are those that were there and
    one file for each count. *)
Lemma export_loop_ok (indices : list nat) :
  forall (c : nat) (fs : gmap string AudioProcessor.audio_file),
    let inc := List.filter keep indices in
    (forall i j, (c < i <= c + length inc)%nat -> (c < j <= c + length inc)%nat ->
       (path i = path j -> i = j)
       /\ path i <> String.app (path j) ".temp.wav") ->
    exists fs',
      AudioProcessor.export_loop lib self audio args split_times
        excluded_splits num_digits indices c fs = (fs', None)
      /\ (forall m i, inc !! m = Some i ->
            fs' !! path (c + 1 + m) = Some (Spec.encoded_file args (segment i)))
      /\ (forall p, is_Some (fs' !! p) ->
            (exists m, (m < length inc)%nat /\ p = path (c + 1 + m))
            \/ is_Some (fs !! p))
      /\ (forall p,
            (forall m, (m < length inc)%nat ->
               p <> path (c + 1 + m)
               /\ p <> String.app (path (c + 1 + m)) ".temp.wav") ->
            fs' !! p = fs !! p).
Proof.
  induction indices as [|i indices IH]; intros c fs inc Hd.
  - exists fs. split; [reflexivity|]. split; [|split].
    + intros m i H. subst inc. cbn in H. rewrite lookup_nil in H. discriminate.
    + intros p H. right. exact H.
    + intros p _. reflexivity.
  - cbn [AudioProcessor.export_loop]. subst inc. cbn [List.filter] in *.
    fold (keep i) in *. unfold keep at 1.
    destruct (existsb (Z.eqb (Z.of_nat i)) excluded_splits) eqn:Ex.
    + assert (Hk : keep i = false) by (unfold keep; rewrite Ex; reflexivity).
      rewrite Hk in *. apply IH. exact Hd.
    + assert (Hk : keep i = true) by (unfold keep; rewrite Ex; reflexivity).
      rewrite Hk in *. cbn [length] in Hd.
      fold (segment i). fold (path (c + 1)).
      destruct (export_audio_ok fs (segment i) (path (c + 1)))
        as (fs1 & E1 & Hp1 & Hu1 & Hs1).
      rewrite E1.
      destruct (IH (c + 1)%nat fs1) as (fs' & E & Hc & Hs & Hu).
      { intros a b Ha Hb. apply Hd; lia. }
      exists fs'. split; [exact E|]. split; [|split].
      * intros m j Hm. destruct m as [|m].
        -- injection Hm as <-. rewrite Nat.add_0_r, Hu; [exact Hp1|].
           intros m Hm. destruct (Hd (c + 1)%nat (c + 1 + 1 + m)%nat) as [H1 H2];
             [lia|lia|].
           split; [intros H; apply H1 in H; lia|exact H2].
        -- replace (c + 1 + S m)%nat with (c + 1 + 1 + m)%nat by lia.
           apply Hc. exact Hm.
      * intros p Hp. destruct (Hs p Hp) as [(m & Hm & ->)|H].
        -- left. exists (S m). cbn [length]. split; [lia|f_equal; lia].
        -- destruct (Hs1 p H) as [->|H'].
           ++ left. exists O. cbn [length]. split; [lia|f_equal; lia].
           ++ right. exact H'.
      * intros p Hp. cbn [length] in Hp. rewrite Hu.
        -- destruct (Hp O ltac:(lia)) as [H1 H2].
           rewrite Nat.add_0_r in H1, H2. apply Hu1; assumption.
        -- intros m Hm. destruct (Hp (S m) ltac:(lia)) as [H1 H2].
           replace (c + 1 + S m)%nat with (c + 1 + 1 + m)%nat in H1, H2 by lia.
           split; assumption.
Qed.

End ExportLoop.

Lemma filter_split_length {A} (f : A -> bool) (l : list A) :
  (length (List.filter f l) + length (List.filter (fun x => negb (f x)) l))%nat
  = length l.
Proof.
  induction l as [|x l IH]; [reflexivity|]. simpl.
  destruct (f x); simpl; lia.
Qed.

Lemma elem_of_bool_filter {A} (f : A -> bool) (l : list A) (x : A) :
  x ∈ List.filter f l <-> x ∈ l /\ f x = true.
Proof. rewrite !list_elem_of_In. apply List.filter_In. Qed.

Lemma NoDup_bool_filter {A} (f : A -> bool) (l : list A) :
  NoDup l -> NoDup (List.filter f l).
Proof.
  induction 1 as [|x l Hx Hl IH]; simpl; [constructor|].
  destruct (f x); [|exact IH]. constructor; [|exact IH].
  rewrite elem_of_bool_filter. tauto.
Qed.

(** Of [n] splits, a list of distinct indices leaves as many included as it
    does not name. *)
Lemma included_count (n : nat) (excluded : list Z) :
  NoDup excluded ->
  (forall e, e ∈ excluded -> (0 <= e < Z.of_nat n)%Z) ->
  (length excluded <= n)%nat
  /\ length (Spec.included_indices n excluded) = (n - length excluded)%nat.
Proof.
  intros Hnd Hr.
  set (P := fun i : nat => existsb (Z.eqb (Z.of_nat i)) excluded).
  assert (Hperm : List.filter P (seq 0 n) ≡ₚ Z.to_nat <$> excluded).
  { apply NoDup_Permutation.
    - apply NoDup_bool_filter, NoDup_seq.
    - apply NoDup_fmap_2_strong; [|exact Hnd].
      intros x y Hx Hy E. apply Hr in Hx, Hy. lia.
    - intros i. rewrite elem_of_bool_filter, elem_of_seq, list_elem_of_fmap.
      subst P. cbv beta. rewrite existsb_exists. split.
      + intros (_ & e & He & E). apply Z.eqb_eq in E. exists e.
        split; [lia|apply list_elem_of_In, He].
      + intros (e & -> & He). pose proof (Hr e He) as Hb.
        split; [lia|]. exists e. split; [apply list_elem_of_In, He|].
        apply Z.eqb_eq. lia. }
  apply Permutation_length in Hperm. rewrite length_fmap in Hperm.
  pose proof (filter_split_length P (seq 0 n)) as Hs.
  rewrite length_seq in Hs. unfold Spec.included_indices.
  subst P. cbv beta in *. lia.
Qed.

Lemma filter_combine_fst_sublist {A} (f : nat * A -> bool) (idx : list nat)
  (l : list A) :
  fst <$> List.filter f (combine idx l) `sublist_of` idx.
Proof.
  revert idx. induction l as [|x l IH]; intros [|i idx]; simpl.
  - constructor.
  - apply sublist_nil_l.
  - constructor.
  - destruct (f (i, x)); simpl; [apply sublist_skip|apply sublist_cons];
      apply IH.
Qed.

(** The indices [get_excluded_splits] hands to [export_splits] are distinct
    and among the splits of the export. *)
Lemma get_excluded_splits_indices (self : MarkerManager.t) :
  NoDup (MarkerManager.get_excluded_splits self)
  /\ forall e, e ∈ MarkerManager.get_excluded_splits self ->
       (0 <= e < Z.of_nat (length (MarkerManager.markers self) + 1))%Z.
Proof.
  unfold MarkerManager.get_excluded_splits.
  set (splits := MarkerManager._get_splits self).
  assert (Hlen : (length splits <= length (MarkerManager.markers self) + 1)%nat).
  { subst splits. unfold MarkerManager._get_splits.
    destruct (MarkerManager.markers self) as [|m ms] eqn:E; [simpl; lia|].
    rewrite !length_app, length_map, length_seq. simpl. lia. }
  set (f := fun p : nat * (Q * Q) => MarkerManager.is_excluded self (snd p)).
  assert (Hfst : forall l : list (nat * (Q * Q)),
            map (fun p => Z.of_nat (fst p)) l = Z.of_nat <$> (fst <$> l)).
  { intros l. rewrite <- list_fmap_compose. reflexivity. }
  pose proof (filter_combine_fst_sublist f (seq 0 (length splits)) splits)
    as Hsub.
  rewrite Hfst. split.
  - apply NoDup_fmap_2_strong.
    + intros x y _ _ E. lia.
    + eapply sublist_NoDup; [apply NoDup_seq|exact Hsub].
  - intros e He. apply list_elem_of_fmap in He as (i & -> & Hi).
    eapply elem_of_sublist in Hi; [|exact Hsub].
    apply elem_of_seq in Hi. lia.
Qed.

(** C2: when nothing raises, an export of [k] markers with a list of
    distinct excluded indices among the [k + 1] splits reports
    [k + 1 - |E|] exported splits and leaves one file for each included
    split, the [m]-th included split in the file of number [m], the numbers
    running from 1 over the included splits; the files are distinct, nothing
    else is added, and each number is padded with zeros to the number of
    digits of [k + 1 - |E|]. *)
Theorem export_splits_files (lib : AudioProcessor.Lib) (self : AudioProcessor.t)
  (audio : AudioProcessor.ndarray) (fs : gmap string AudioProcessor.audio_file)
  (split_times : list Q) (args : AudioProcessor.export_args)
  (excluded : list Z) :
  AudioProcessor.audio_data self = Some audio ->
  (forall p, AudioProcessor.makedirs_ok lib p = true) ->
  (forall p, AudioProcessor.sf_write_ok lib p = true) ->
  (forall p, AudioProcessor.encode_ok lib p = true) ->
  (AudioProcessor.output_format args = "wav"%string
   \/ AudioProcessor.output_format args = "flac"%string
   \/ AudioProcessor.output_format args = "mp3"%string
   \/ AudioProcessor.output_format args = "ogg"%string) ->
  NoDup excluded ->
  (forall e, e ∈ excluded -> (0 <= e < Z.of_nat (length split_times + 1))%Z) ->
  let k := length split_times in
  let n := (k + 1 - length excluded)%nat in
  let w := String.length (Py.str (Z.of_nat n)) in
  let path :=
    AudioProcessor.output_path_of (AudioProcessor.output_folder args)
      (AudioProcessor.filename_prefix args)
      (AudioProcessor.output_format args) w in
  let boundaries :=
    Py.sorted ([0] ++ split_times ++ [AudioProcessor.duration self]) in
  let included := Spec.included_indices (k + 1) excluded in
  let r := AudioProcessor.export_splits lib self fs split_times args
             (Some excluded) in
  snd r = (true, AudioProcessor.ExportedSplits (Z.of_nat n) (length excluded))
  /\ length included = n
  /\ (forall m i, included !! m = Some i ->
        fst r !! path (m + 1)%nat
        = Some (Spec.encoded_file args
                  (AudioProcessor.segment_of lib self audio
                     (nth i boundaries 0) (nth (i + 1) boundaries 0)
                     (AudioProcessor.target_rate args)
                     (AudioProcessor.target_channels args)
                     (AudioProcessor.trim_silence args))))
  /\ (forall p, is_Some (fst r !! p) ->
        (exists c, (1 <= c <= n)%nat /\ p = path c) \/ is_Some (fs !! p))
  /\ (forall c c', (1 <= c <= n)%nat -> (1 <= c' <= n)%nat ->
        path c = path c' -> c = c')
  /\ (forall c, (1 <= c <= n)%nat ->
        let number := Py.zfill (Py.str (Z.of_nat c)) w in
        String.length number = w
        /\ Spec.read_number number = N.of_nat c
        /\ path c
           = Py.path_join (AudioProcessor.output_folder args)
               (String.app (AudioProcessor.filename_prefix args)
                  (String.app "_"
                     (String.app number
                        (String.app "." (AudioProcessor.output_format args)))))).
Proof.
  intros Haudio Hmk Hsf Henc Hfmt Hnd Hr k n w path boundaries included r.
  destruct (included_count (k + 1) excluded Hnd Hr) as [Hle Hcount].
  fold included n in Hcount.
  destruct (output_paths_distinct (AudioProcessor.output_folder args)
              (AudioProcessor.filename_prefix args)
              (AudioProcessor.output_format args) n) as [Hinj Htemp].
  fold w path in Hinj, Htemp.
  assert (Hb : (length boundaries - 1)%nat = (k + 1)%nat).
  { subst boundaries. rewrite (Permutation_length (sorted_perm _)).
    cbn [app length]. rewrite length_app. cbn [length]. lia. }
  assert (Hnum : (Z.of_nat (length boundaries - 1) - Z.of_nat (length excluded))%Z
                 = Z.of_nat n).
  { rewrite Hb. subst n. lia. }
  assert (Hinc : List.filter
                    (fun i => negb (existsb (Z.eqb (Z.of_nat i)) excluded))
                    (seq 0 (k + 1)) = included) by reflexivity.
  destruct (export_loop_ok lib Hsf Henc args Hfmt self audio boundaries
              excluded w (seq 0 (k + 1)) O fs) as (fs' & E & Hc & Hs & _).
  { rewrite Hinc, Hcount. intros i j Hi Hj.
    split; [apply Hinj; lia|apply Htemp; lia]. }
  rewrite Hinc in Hc, Hs. rewrite Hcount in Hs.
  assert (Er : r = (fs', (true, AudioProcessor.ExportedSplits (Z.of_nat n)
                                  (length excluded)))).
  { subst r. unfold AudioProcessor.export_splits.
    rewrite Haudio, Hmk. cbn [negb default from_option]. unfold id.
    cbv zeta. fold boundaries.
    rewrite Hnum, Hb. fold w. rewrite E. reflexivity. }
  rewrite Er. cbn [fst snd].
  split; [reflexivity|]. split; [exact Hcount|]. split; [|split; [|split]].
  - intros m i Hm. replace (m + 1)%nat with (0 + 1 + m)%nat by lia.
    apply Hc. exact Hm.
  - intros p Hp. destruct (Hs p Hp) as [(m & Hm & ->)|H]; [|right; exact H].
    left. exists (0 + 1 + m)%nat. split; [lia|reflexivity].
  - intros c c' Hc1 Hc2. apply Hinj; lia.
  - intros c Hc1.
    destruct (split_number_spec c n ltac:(lia)) as [H1 H2].
    split; [exact H1|]. split; [exact H2|reflexivity].
Qed.

Example output_path_width_2 :
  AudioProcessor.output_path_of "out" "s" "wav"
    (String.length (Py.str 12)) 3 = "out/s_03.wav"%string.
Proof. reflexivity. Qed.

Lemma export_splits_files_witness :
  let lib :=
    AudioProcessor.mkLib (fun y => y) (fun y _ _ => y) (fun _ => true)
      (fun _ => true) (fun _ => true) in
  let audio := AudioProcessor.Mono [1; 2; 3; 4] in
  let self := AudioProcessor.mk (Some audio) 2 2 None in
  let args := AudioProcessor.mkArgs "out" "s" "wav" 2 1 "high" false in
  let r := AudioProcessor.export_splits lib self ∅ [1 # 2; 1; 3 # 2] args
             (Some [1%Z]) in
  snd r = (true, AudioProcessor.ExportedSplits 3 1)
  /\ fst r !! "out/s_1.wav"%string
     = Some (AudioProcessor.WavPcm16 (AudioProcessor.Mono [1]) 2)
  /\ fst r !! "out/s_2.wav"%string
     = Some (AudioProcessor.WavPcm16 (AudioProcessor.Mono [3]) 2)
  /\ fst r !! "out/s_3.wav"%string
     = Some (AudioProcessor.WavPcm16 (AudioProcessor.Mono [4]) 2).
Proof.
  intros lib audio self args r.
  destruct (export_splits_files lib self audio ∅ [1 # 2; 1; 3 # 2] args [1%Z])
    as (H1 & _ & H2 & _).
  - reflexivity.
  - reflexivity.
  - reflexivity.
  - reflexivity.
  - left. reflexivity.
  - apply NoDup_singleton.
  - intros e He. apply list_elem_of_singleton in He as ->. simpl. lia.
  - split; [exact H1|]. split; [|split].
    + exact (H2 0%nat 0%nat eq_refl).
    + exact (H2 1%nat 2%nat eq_refl).
    + exact (H2 2%nat 3%nat eq_refl).
Defined.
(** ** Finding, removing and moving the first marker near a time *)

Lemma near_Qeq (tol t x y : Q) :
  x == y -> MarkerManager.near tol t x = MarkerManager.near tol t y.
Proof.
  intros E. unfold MarkerManager.near, Py.ltb, Py.abs.
  assert (H : Qabs (x - t) == Qabs (y - t)) by (rewrite E; reflexivity).
  destruct (Qle_bool tol (Qabs (x - t))) eqn:E1,
           (Qle_bool tol (Qabs (y - t))) eqn:E2; try reflexivity.
  - apply Qle_bool_iff in E1. rewrite H in E1. apply Qle_bool_iff in E1.
    congruence.
  - apply Qle_bool_iff in E2. rewrite <- H in E2. apply Qle_bool_iff in E2.
    congruence.
Qed.




(** Removing [m] where it is the first element near [t]. *)
Lemma list_remove_first_near (tol t m : Q) (l1 l2 : list Q) :
  MarkerManager.near tol t m = true ->
  (forall y, y ∈ l1 -> MarkerManager.near tol t y = false) ->
  MarkerManager.list_remove m (l1 ++ m :: l2) = l1 ++ l2.
Proof.
  intros Hm. induction l1 as [|x l1 IH]; intros Hl1; simpl.
  - assert (E : Qeq_bool m m = true) by (apply Qeq_bool_iff; reflexivity).
    rewrite E. reflexivity.
  - destruct (Qeq_bool x m) eqn:E.
    + apply Qeq_bool_iff in E. pose proof (Hl1 x ltac:(left)) as Hx.
      rewrite (near_Qeq tol t x m E) in Hx. congruence.
    + f_equal. apply IH. intros y Hy. apply Hl1. right. exact Hy.
Qed.

Lemma find_app_first {A} (f : A -> bool) (l1 l2 : list A) (m : A) :
  (forall y, y ∈ l1 -> f y = false) -> f m = true ->
  find f (l1 ++ m :: l2) = Some m.
Proof.
  intros Hl1 Hm. induction l1 as [|x l1 IH]; simpl.
  - rewrite Hm. reflexivity.
  - rewrite (Hl1 x) by left. apply IH. intros y Hy. apply Hl1. right. exact Hy.
Qed.

Lemma find_index_app_first (f : Q -> bool) (l1 l2 : list Q) (m : Q) :
  (forall y, y ∈ l1 -> f y = false) -> f m = true ->
  MarkerManager.find_index f (l1 ++ m :: l2) = Some (length l1).
Proof.
  intros Hl1 Hm. induction l1 as [|x l1 IH]; simpl.
  - rewrite Hm. reflexivity.
  - rewrite (Hl1 x) by left. rewrite IH; [reflexivity|].
    intros y Hy. apply Hl1. right. exact Hy.
Qed.








Lemma insert_le_head (x : Q) (l : list Q) :
  (forall y, y ∈ l -> x <= y) -> Py.insert x l = x :: l.
Proof.
  intros H. destruct l as [|y l]; [reflexivity|]. simpl.
  assert (E : Qle_bool x y = true) by (apply Qle_bool_iff, H; left).
  rewrite E. reflexivity.
Qed.

Lemma sorted_snoc (t : Q) (ms : list Q) :
  Spec.is_sorted ms ->
  exists l1 l2, ms = l1 ++ l2 /\ Py.sorted (ms ++ [t]) = l1 ++ t :: l2.
Proof.
  induction ms as [|x ms IH]; intros Hs.
  - exists [], []. split; reflexivity.
  - apply is_sorted_cons in Hs as [Hx Hs].
    destruct (IH Hs) as (l1 & l2 & E & Es).
    change (Py.sorted ((x :: ms) ++ [t])) with (Py.insert x (Py.sorted (ms ++ [t]))).
    rewrite Es. destruct l1 as [|y l1].
    + simpl in E. subst l2. simpl.
      destruct (Qle_bool x t) eqn:Ext.
      * exists [x], ms. split; reflexivity.
      * exists [], (x :: ms). split; [reflexivity|].
        rewrite (insert_le_head x ms Hx). reflexivity.
    + exists (x :: y :: l1), l2. split; [rewrite E; reflexivity|].
      simpl. assert (Exy : Qle_bool x y = true).
      { apply Qle_bool_iff, Hx. rewrite E. left. }
      rewrite Exy. reflexivity.
Qed.

Lemma with_markers_back (self : MarkerManager.t) (ms : list Q) :
  MarkerManager.with_markers (MarkerManager.with_markers self ms)
    (MarkerManager.markers self) = self.
Proof. destruct self. reflexivity. Qed.

(** X4: removing a marker right after it has been added undoes the
    addition.  When the markers are sorted and [add_marker(t)] has added the
    marker, [remove_marker(t, tolerance)] with a tolerance of at most 0.01,
    the one [_on_marker_removed] uses, removes that marker and no other:
    the object is as it was before the addition. *)
Theorem add_then_remove_marker (self self1 : MarkerManager.t) (t tol : Q) :
  Spec.is_sorted (MarkerManager.markers self) ->
  MarkerManager.add_marker self t = (self1, true) ->
  0 < tol -> tol <= 1 # 100 ->
  MarkerManager.remove_marker self1 t tol = (self, true)
  /\ App._on_marker_removed (App._on_marker_added self t) t = self.
Proof.
  intros Hs Hadd Htol Hle.
  assert (Hgen : forall tol', 0 < tol' -> tol' <= 1 # 100 ->
            MarkerManager.remove_marker self1 t tol' = (self, true)).
  { clear tol Htol Hle. intros tol Htol Hle.
    unfold MarkerManager.add_marker in Hadd.
    destruct (existsb _ _) eqn:Ex; [discriminate|].
    injection Hadd as <-.
    pose proof (proj1 (existsb_near_false _ _ _) Ex) as Hfar.
    destruct (sorted_snoc t _ Hs) as (l1 & l2 & E & Es).
    assert (Hn : forall y, y ∈ l1 -> MarkerManager.near tol t y = false).
    { intros y Hy. apply near_false_iff.
      assert (Hy' : y ∈ MarkerManager.markers self).
      { rewrite E. apply elem_of_app. left. exact Hy. }
      specialize (Hfar y Hy'). unfold MarkerManager.add_tolerance in Hfar. lra. }
    assert (Hm : MarkerManager.near tol t t = true).
    { apply near_iff. assert (E0 : t - t == 0) by ring. rewrite E0. exact Htol. }
    unfold MarkerManager.remove_marker. cbn [MarkerManager.markers MarkerManager.with_markers].
    rewrite Es. rewrite (find_app_first _ l1 l2 t Hn Hm).
    rewrite (list_remove_first_near tol t t l1 l2 Hm Hn).
    rewrite <- E. f_equal. apply with_markers_back. }
  split; [apply Hgen; assumption|].
  unfold App._on_marker_removed, App._on_marker_added.
  rewrite Hadd. cbn [fst]. rewrite Hgen; [reflexivity|reflexivity|].
  apply Qle_refl.
Qed.

Lemma add_then_remove_marker_witness :
  let self := MarkerManager.mk [1; 2; 5] [] None 10 in
  MarkerManager.remove_marker (MarkerManager.mk [1; 2; 3; 5] [] None 10) 3 (1 # 100)
  = (self, true)
  /\ App._on_marker_removed (App._on_marker_added self 3) 3 = self.
Proof.
  intros self.
  apply (add_then_remove_marker self (MarkerManager.mk [1; 2; 3; 5] [] None 10)
           3 (1 # 100)).
  - intros i j a b Hij Ha Hb.
    destruct i as [|[|[|i]]]; destruct j as [|[|[|j]]]; try lia;
      simpl in Ha, Hb; try discriminate;
      injection Ha as <-; injection Hb as <-; vm_compute; discriminate.
  - reflexivity.
  - reflexivity.
  - vm_compute. discriminate.
Defined.

(** ** Excluding splits *)

Lemma Qeq_bool_comm (a b : Q) : Qeq_bool a b = Qeq_bool b a.
Proof.
  destruct (Qeq_bool a b) eqn:E1, (Qeq_bool b a) eqn:E2; try reflexivity.
  - apply Qeq_bool_eq in E1. symmetry in E1. apply Qeq_eq_bool in E1. congruence.
  - apply Qeq_bool_eq in E2. symmetry in E2. apply Qeq_eq_bool in E2. congruence.
Qed.

Lemma pair_eqb_comm (p q : Q * Q) : Py.pair_eqb p q = Py.pair_eqb q p.
Proof.
  unfold Py.pair_eqb. rewrite (Qeq_bool_comm (fst p)), (Qeq_bool_comm (snd p)).
  reflexivity.
Qed.

Lemma pair_eqb_refl (p : Q * Q) : Py.pair_eqb p p = true.
Proof. unfold Py.pair_eqb. rewrite !Qeq_bool_refl. reflexivity. Qed.

Lemma pair_eqb_trans (p q r : Q * Q) :
  Py.pair_eqb p q = true -> Py.pair_eqb q r = true -> Py.pair_eqb p r = true.
Proof.
  unfold Py.pair_eqb. rewrite !andb_true_iff.
  intros [H1 H2] [H3 H4].
  apply Qeq_bool_eq in H1, H2, H3, H4.
  split; apply Qeq_eq_bool; etransitivity; eassumption.
Qed.

Lemma list_remove_pair_snoc (x : Q * Q) (l : list (Q * Q)) :
  existsb (Py.pair_eqb x) l = false ->
  MarkerManager.list_remove_pair x (l ++ [x]) = l.
Proof.
  induction l as [|y l IH]; simpl.
  - intros _. rewrite pair_eqb_refl. reflexivity.
  - intros H. apply orb_false_iff in H as [Hy Hl].
    rewrite pair_eqb_comm, Hy, (IH Hl). reflexivity.
Qed.

Lemma existsb_snoc {A} (f : A -> bool) (l : list A) (x : A) :
  existsb f (l ++ [x]) = existsb f l || f x.
Proof. rewrite existsb_app. simpl. rewrite orb_false_r. reflexivity. Qed.

(** X5: [toggle_split_exclusion(split_index)] never changes the markers.
    For an index past the last split it returns false and changes nothing.
    For an index of a split it returns true exactly when the range of the
    split was not among the exclusions; in that case the split is excluded
    afterwards, and toggling it once more returns false and gives back the
    object as it was. *)
Theorem toggle_split_exclusion_twice (self : MarkerManager.t) (i : nat) :
  MarkerManager.markers (fst (MarkerManager.toggle_split_exclusion self i))
  = MarkerManager.markers self
  /\ ((length (MarkerManager._get_splits self) <= i)%nat ->
      MarkerManager.toggle_split_exclusion self i = (self, false))
  /\ ((i < length (MarkerManager._get_splits self))%nat ->
      snd (MarkerManager.toggle_split_exclusion self i)
      = negb (MarkerManager.is_split_excluded self i))
  /\ ((i < length (MarkerManager._get_splits self))%nat ->
      MarkerManager.is_split_excluded self i = false ->
      let self1 := fst (MarkerManager.toggle_split_exclusion self i) in
      MarkerManager.is_split_excluded self1 i = true
      /\ MarkerManager.toggle_split_exclusion self1 i = (self, false)).
Proof.
  unfold MarkerManager.toggle_split_exclusion, MarkerManager.is_split_excluded.
  split; [|split; [|split]].
  - destruct (nth_error _ i) as [r|]; [|reflexivity].
    destruct (MarkerManager.is_excluded self r); reflexivity.
  - intros Hi. apply nth_error_None in Hi. rewrite Hi. reflexivity.
  - intros Hi. destruct (nth_error _ i) as [r|] eqn:E.
    + destruct (MarkerManager.is_excluded self r); reflexivity.
    + apply nth_error_None in E. lia.
  - intros Hi. destruct (nth_error (MarkerManager._get_splits self) i)
      as [r|] eqn:E; [|apply nth_error_None in E; lia].
    intros Hex. rewrite Hex. cbv zeta. cbn [fst].
    set (self1 := MarkerManager.mk _ _ _ _).
    assert (Es : MarkerManager._get_splits self1 = MarkerManager._get_splits self)
      by reflexivity.
    rewrite Es, E.
    assert (Hex1 : MarkerManager.is_excluded self1 r = true).
    { unfold MarkerManager.is_excluded, self1. cbn [MarkerManager.excluded_splits].
      rewrite existsb_snoc, pair_eqb_refl. apply orb_true_r. }
    rewrite Hex1. split; [reflexivity|].
    unfold self1. cbn [MarkerManager.markers MarkerManager.excluded_splits
                         MarkerManager.audio_filename MarkerManager.audio_duration].
    rewrite (list_remove_pair_snoc r _ Hex). destruct self. reflexivity.
Qed.

Lemma toggle_split_exclusion_twice_witness :
  let self := MarkerManager.mk [1; 2] [(5, 6)] None 10 in
  MarkerManager.toggle_split_exclusion self 7 = (self, false)
  /\ MarkerManager.toggle_split_exclusion
       (fst (MarkerManager.toggle_split_exclusion self 1)) 1 = (self, false).
Proof.
  intros self.
  destruct (toggle_split_exclusion_twice self 7) as (_ & H1 & _).
  destruct (toggle_split_exclusion_twice self 1) as (_ & _ & _ & H2).
  split.
  - apply H1. simpl. lia.
  - apply H2; [simpl; lia|reflexivity].
Defined.

Lemma collect_splits_enumerated (splits : list (Q * Q)) (L : list (nat * (Q * Q)))
  (acc : list (Q * Q)) :
  (forall p, In p L -> nth_error splits (fst p) = Some (snd p)) ->
  MarkerManager.collect_splits splits (map (fun p => Z.of_nat (fst p)) L) acc
  = Some (acc ++ map snd L).
Proof.
  revert acc. induction L as [|p L IH]; intros acc H.
  - simpl. rewrite app_nil_r. reflexivity.
  - pose proof (H p (or_introl eq_refl)) as Hp.
    assert (Hlt : (fst p < length splits)%nat).
    { apply nth_error_Some. rewrite Hp. discriminate. }
    cbn [map MarkerManager.collect_splits].
    destruct (Z.ltb_spec (Z.of_nat (fst p)) (Z.of_nat (length splits))) as [_|?];
      [|lia].
    unfold MarkerManager.item.
    destruct (Z.ltb_spec (Z.of_nat (fst p)) 0) as [?|_]; [lia|].
    rewrite Nat2Z.id, Hp, IH.
    + rewrite <- app_assoc. reflexivity.
    + intros q Hq. apply H. right. exact Hq.
Qed.

Lemma combine_seq_nth_error {A} (l : list A) (k : nat) (p : nat * A) :
  In p (combine (seq k (length l)) l) ->
  (k <= fst p)%nat /\ nth_error l (fst p - k) = Some (snd p).
Proof.
  revert k. induction l as [|x l IH]; intros k H; [destruct H|].
  simpl in H. destruct H as [<-|H].
  - simpl. rewrite Nat.sub_diag. split; [lia|reflexivity].
  - apply IH in H as [Hk H]. split; [lia|].
    replace (fst p - k)%nat with (S (fst p - S k)) by lia. exact H.
Qed.

Lemma filter_combine_snd {A} (f : A -> bool) (l : list A) (k : nat) :
  map snd (List.filter (fun p => f (snd p)) (combine (seq k (length l)) l))
  = List.filter f l.
Proof.
  revert k. induction l as [|x l IH]; intros k; [reflexivity|].
  simpl. destruct (f x); simpl; rewrite IH; reflexivity.
Qed.

Lemma is_excluded_current (self : MarkerManager.t) (s : Q * Q) :
  In s (MarkerManager._get_splits self) ->
  existsb (Py.pair_eqb s)
    (List.filter (MarkerManager.is_excluded self) (MarkerManager._get_splits self))
  = MarkerManager.is_excluded self s.
Proof.
  intros Hs. destruct (MarkerManager.is_excluded self s) eqn:E.
  - apply existsb_exists. exists s. split; [|apply pair_eqb_refl].
    apply filter_In. split; assumption.
  - destruct (existsb _ _) eqn:E'; [|reflexivity].
    apply existsb_exists in E' as (s' & Hs' & Hss').
    apply filter_In in Hs' as [_ Hs'].
    unfold MarkerManager.is_excluded in Hs', E.
    apply existsb_exists in Hs' as (e & He & Hse).
    assert (Ht : existsb (Py.pair_eqb s) (MarkerManager.excluded_splits self) = true).
    { apply existsb_exists. exists e. split; [exact He|].
      eapply pair_eqb_trans; eassumption. }
    congruence.
Qed.

(** X6: handing the indices [get_excluded_splits()] returns to
    [set_excluded_splits_by_indices] does not raise, leaves the markers as
    they are and keeps the excluded indices: the exclusions become the
    ranges of the current splits that were excluded, in the order of the
    splits, and the ranges that belong to no current split are dropped. *)
Theorem set_excluded_splits_by_indices_round_trip (self : MarkerManager.t) :
  exists self',
    MarkerManager.set_excluded_splits_by_indices self
      (MarkerManager.get_excluded_splits self) = Some self'
    /\ MarkerManager.markers self' = MarkerManager.markers self
    /\ MarkerManager.excluded_splits self'
       = List.filter (MarkerManager.is_excluded self)
           (MarkerManager._get_splits self)
    /\ MarkerManager.get_excluded_splits self'
       = MarkerManager.get_excluded_splits self.
Proof.
  unfold MarkerManager.set_excluded_splits_by_indices.
  unfold MarkerManager.get_excluded_splits at 1. cbv zeta.
  rewrite collect_splits_enumerated.
  - cbn [option_map app].
    rewrite (filter_combine_snd (MarkerManager.is_excluded self)).
    eexists. split; [reflexivity|]. split; [reflexivity|].
    split; [reflexivity|].
    unfold MarkerManager.get_excluded_splits. cbv zeta.
    set (self' := MarkerManager.with_excluded_splits self _).
    change (MarkerManager._get_splits self') with (MarkerManager._get_splits self).
    f_equal. apply filter_ext_in. intros p Hp.
    apply combine_seq_nth_error in Hp as [_ Hp]. apply nth_error_In in Hp.
    exact (is_excluded_current self (snd p) Hp).
  - intros p Hp. apply filter_In in Hp as [Hp _].
    apply combine_seq_nth_error in Hp as [_ Hp].
    rewrite Nat.sub_0_r in Hp. exact Hp.
Qed.

Lemma collect_splits_some (splits : list (Q * Q)) (idxs : list Z)
  (acc : list (Q * Q)) :
  (forall idx, In idx idxs -> (- Z.of_nat (length splits) <= idx)%Z) ->
  MarkerManager.collect_splits splits idxs acc
  = Some (acc ++ flat_map (Spec.picked_split splits) idxs).
Proof.
  revert acc. induction idxs as [|idx idxs IH]; intros acc H.
  - simpl. rewrite app_nil_r. reflexivity.
  - pose proof (H idx (or_introl eq_refl)) as Hidx.
    assert (H' : forall idx', In idx' idxs ->
                   (- Z.of_nat (length splits) <= idx')%Z).
    { intros idx' Hin. apply H. right. exact Hin. }
    cbn [MarkerManager.collect_splits flat_map]. unfold Spec.picked_split at 1.
    destruct (Z.ltb_spec idx (Z.of_nat (length splits))) as [Hlt|Hge];
      [|apply IH, H'].
    unfold MarkerManager.item.
    destruct (Z.ltb_spec idx 0) as [Hneg|Hpos].
    + destruct (Z.leb_spec (- Z.of_nat (length splits)) idx) as [_|?]; [|lia].
      rewrite (nth_error_nth' splits (0, 0)) by lia.
      rewrite IH by exact H'. rewrite <- app_assoc. reflexivity.
    + rewrite (nth_error_nth' splits (0, 0)) by lia.
      rewrite IH by exact H'. rewrite <- app_assoc. reflexivity.
Qed.

Lemma collect_splits_none (splits : list (Q * Q)) (idxs : list Z)
  (acc : list (Q * Q)) (idx : Z) :
  In idx idxs -> (idx < - Z.of_nat (length splits))%Z ->
  MarkerManager.collect_splits splits idxs acc = None.
Proof.
  revert acc. induction idxs as [|i idxs IH]; intros acc Hin Hlt; [destruct Hin|].
  cbn [MarkerManager.collect_splits].
  destruct (Z.eq_dec i idx) as [->|Hne].
  - destruct (Z.ltb_spec idx (Z.of_nat (length splits))) as [_|?]; [|lia].
    unfold MarkerManager.item.
    destruct (Z.ltb_spec idx 0) as [_|?]; [|lia].
    destruct (Z.leb_spec (- Z.of_nat (length splits)) idx) as [?|_]; [lia|].
    reflexivity.
  - destruct Hin as [->|Hin]; [congruence|].
    destruct (i <? Z.of_nat (length splits))%Z; [|apply IH; assumption].
    destruct (MarkerManager.item splits i); [apply IH; assumption|reflexivity].
Qed.

(** X7: [set_excluded_splits_by_indices] lets a negative index through its
    guard [idx < len(splits)].  An index below [-len(splits)] makes the call
    raise [IndexError]; when there is none, the exclusions become, in the
    order of the indices, the split at each index below the number of
    splits, counted from the end for a negative index ([-1] is the last
    split), and the indices past the last split are ignored. *)
Theorem set_excluded_splits_by_indices_negative (self : MarkerManager.t)
  (excluded_indices : list Z) :
  let splits := MarkerManager._get_splits self in
  ((exists idx, In idx excluded_indices /\ (idx < - Z.of_nat (length splits))%Z) ->
     MarkerManager.set_excluded_splits_by_indices self excluded_indices = None)
  /\ ((forall idx, In idx excluded_indices ->
         (- Z.of_nat (length splits) <= idx)%Z) ->
      MarkerManager.set_excluded_splits_by_indices self excluded_indices
      = Some (MarkerManager.with_excluded_splits self
                (flat_map (Spec.picked_split splits) excluded_indices))).
Proof.
  cbv zeta. unfold MarkerManager.set_excluded_splits_by_indices. split.
  - intros (idx & Hin & Hlt).
    rewrite (collect_splits_none _ _ _ idx Hin Hlt). reflexivity.
  - intros H. rewrite (collect_splits_some _ _ _ H). reflexivity.
Qed.

Lemma set_excluded_splits_by_indices_negative_witness :
  let self := MarkerManager.mk [1; 2] [] None 10 in
  MarkerManager.set_excluded_splits_by_indices self [(-4)%Z] = None
  /\ MarkerManager.set_excluded_splits_by_indices self [(-1)%Z; 5%Z; 0%Z]
     = Some (MarkerManager.mk [1; 2] [(2, 10); (0, 1)] None 10).
Proof.
  intros self.
  destruct (set_excluded_splits_by_indices_negative self [(-4)%Z]) as (H1 & _).
  destruct (set_excluded_splits_by_indices_negative self [(-1)%Z; 5%Z; 0%Z])
    as (_ & H2).
  split.
  - apply H1. exists (-4)%Z. split; [left; reflexivity|]. simpl. lia.
  - rewrite H2; [reflexivity|].
    intros idx [<-|[<-|[<-|[]]]]; simpl; lia.
Defined.

(** ** Replacing the markers and the state a file leaves *)

(** X8: [set_markers(markers)] stores the given times sorted, whatever their
    order: the same times with their repetitions, none dropped.  Setting the
    markers the object holds afterwards changes nothing. *)
Theorem set_markers_sorted (self : MarkerManager.t) (ms : list Q) :
  let self' := MarkerManager.set_markers self ms in
  Spec.is_sorted (MarkerManager.markers self')
  /\ MarkerManager.markers self' ≡ₚ ms
  /\ MarkerManager.excluded_splits self' = MarkerManager.excluded_splits self
  /\ MarkerManager.set_markers self' (MarkerManager.markers self') = self'.
Proof.
  cbv zeta. unfold MarkerManager.set_markers. cbn.
  split; [apply sorted_is_sorted|]. split; [apply sorted_perm|].
  split; [reflexivity|].
  unfold MarkerManager.with_markers. cbn.
  rewrite (sorted_id _ (sorted_is_sorted ms)). reflexivity.
Qed.

(** X9: a load that succeeds replaces the whole state: the object after it
    and the returned triple are the same whatever the object held before
    the call; the message counts the markers of the file and the third
    component is the file name now stored. *)
Theorem load_from_json_replaces_state (self self' : MarkerManager.t)
  (fs : Fs.t) (filepath : string) (msg : MarkerManager.message)
  (name : option string) :
  MarkerManager.load_from_json self fs filepath = Some (self', (true, msg, name)) ->
  msg = MarkerManager.Loaded (length (MarkerManager.markers self'))
  /\ name = MarkerManager.audio_filename self'
  /\ forall other,
       MarkerManager.load_from_json other fs filepath
       = Some (self', (true, msg, name)).
Proof.
  unfold MarkerManager.load_from_json, MarkerManager.load_body.
  destruct (MarkerManager.read_json fs filepath) as [e|[| | | | |kv]];
    try discriminate.
  destruct (MarkerManager.field_audio_filename kv) as [f|]; [|discriminate].
  cbv zeta.
  destruct (MarkerManager.field_markers kv) as [ms| |]; try discriminate.
  destruct (MarkerManager.field_audio_duration kv) as [d|]; [|discriminate].
  destruct (MarkerManager.field_excluded_splits kv) as [ps| |]; try discriminate.
  intros H. injection H as <- <- <-.
  split; [reflexivity|]. split; [reflexivity|]. intros other. reflexivity.
Qed.

Lemma load_from_json_replaces_state_witness :
  let fs := Fs.mk {[ "m.json"%string :=
                     Fs.Document (Json.Obj [("markers"%string,
                                              Json.Arr [Json.Num 2; Json.Num 1])]) ]} ∅ in
  let self' := MarkerManager.mk [1; 2] [] None 0 in
  MarkerManager.Loaded 2 = MarkerManager.Loaded (length (MarkerManager.markers self'))
  /\ None = MarkerManager.audio_filename self'
  /\ forall other,
       MarkerManager.load_from_json other fs "m.json"
       = Some (self', (true, MarkerManager.Loaded 2, None)).
Proof.
  intros fs self'.
  apply (load_from_json_replaces_state
           (MarkerManager.mk [7] [(0, 7)] (Some "a.wav"%string) 9) self' fs
           "m.json" (MarkerManager.Loaded 2) None).
  reflexivity.
Defined.

(** X10: a JSON object without the four keys loads with success and leaves
    the state of a new object: no marker, no exclusion, no file name and
    the duration 0.0. *)
Theorem load_from_json_missing_keys (self : MarkerManager.t) (fs : Fs.t)
  (filepath : string) (kv : list (string * Json.value)) :
  Fs.files fs !! filepath = Some (Fs.Document (Json.Obj kv)) ->
  Json.get "audio_filename" kv = None ->
  Json.get "markers" kv = None ->
  Json.get "audio_duration" kv = None ->
  Json.get "excluded_splits" kv = None ->
  MarkerManager.load_from_json self fs filepath
  = Some (MarkerManager.init, (true, MarkerManager.Loaded 0, None)).
Proof.
  intros Hf H1 H2 H3 H4.
  unfold MarkerManager.load_from_json, MarkerManager.load_body,
    MarkerManager.read_json, MarkerManager.field_audio_filename,
    MarkerManager.field_markers, MarkerManager.field_audio_duration,
    MarkerManager.field_excluded_splits.
  rewrite Hf, H1, H2, H3, H4. reflexivity.
Qed.

Lemma load_from_json_missing_keys_witness :
  MarkerManager.load_from_json
    (MarkerManager.mk [7] [(0, 7)] (Some "a.wav"%string) 9)
    (Fs.mk {[ "m.json"%string :=
              Fs.Document (Json.Obj [("version"%string, Json.Num 2)]) ]} ∅)
    "m.json"
  = Some (MarkerManager.init, (true, MarkerManager.Loaded 0, None)).
Proof.
  apply (load_from_json_missing_keys _ _ _ [("version"%string, Json.Num 2)]);
    reflexivity.
Defined.

Lemma substring_all (b : string) : String.substring 0 (String.length b) b = b.
Proof. induction b as [|c b IH]; [reflexivity|]. simpl. rewrite IH. reflexivity. Qed.

Lemma substring_app_suffix (a b : string) :
  String.substring (String.length a) (String.length b) (String.app a b) = b.
Proof.
  induction a as [|c a IH]; simpl; [apply substring_all|exact IH].
Qed.

Lemma endswith_app (a b : string) : Py.endswith (String.app a b) b = true.
Proof.
  unfold Py.endswith. rewrite string_app_length.
  replace (String.length a + String.length b - String.length b)%nat
    with (String.length a) by lia.
  rewrite substring_app_suffix, String.eqb_refl, andb_true_r.
  apply Nat.leb_le. lia.
Qed.

Lemma lower_app (a b : string) :
  Py.lower (String.app a b) = String.app (Py.lower a) (Py.lower b).
Proof. induction a as [|c a IH]; [reflexivity|]. simpl. rewrite IH. reflexivity. Qed.

Lemma json_path_endswith (filepath : string) :
  Py.endswith (Py.lower (MarkerManager.json_path filepath)) ".json" = true.
Proof.
  unfold MarkerManager.json_path.
  destruct (Py.endswith (Py.lower filepath) ".json") eqn:E; [exact E|].
  rewrite lower_app. apply (endswith_app (Py.lower filepath) ".json").
Qed.

(** X11: [save_to_json] writes to a path that ends with [.json] in some
    case: the given path when it does, else the path with [.json] appended;
    saving to the path of a first save writes the same file.  It writes no
    other file: every other path of the store is as before, and a save that
    fails leaves the whole store as it was.  After a success the file holds
    the data of the object. *)
Theorem save_to_json_path (self : MarkerManager.t) (fs : Fs.t)
  (filepath : string) :
  let target := MarkerManager.json_path filepath in
  let r := MarkerManager.save_to_json self fs filepath in
  Py.endswith (Py.lower target) ".json" = true
  /\ MarkerManager.json_path target = target
  /\ (forall other, other <> target ->
        Fs.files (fst r) !! other = Fs.files fs !! other)
  /\ (fst (snd r) = false -> fst r = fs)
  /\ (fst (snd r) = true ->
        Fs.files (fst r) !! target
        = Some (Fs.Document (MarkerManager.to_data self))
        /\ snd (snd r) = MarkerManager.MarkersSaved target).
Proof.
  cbv zeta. split; [apply json_path_endswith|]. split.
  { unfold MarkerManager.json_path at 1.
    rewrite json_path_endswith. reflexivity. }
  unfold MarkerManager.save_to_json. cbv zeta.
  destruct (decide _) as [Hl|Hl]; cbn [fst snd].
  - split; [reflexivity|]. split; [reflexivity|]. discriminate.
  - split.
    + intros other Ho. unfold Fs.write. cbn [Fs.files].
      apply lookup_insert_ne. congruence.
    + split; [discriminate|]. intros _. split; [|reflexivity].
      unfold Fs.write. cbn [Fs.files]. apply lookup_insert_eq.
Qed.

Lemma save_to_json_path_witness :
  let self := MarkerManager.mk [1; 2] [] None 10 in
  let fs := Fs.mk {[ "a.wav"%string := Fs.Garbage ]} ∅ in
  MarkerManager.json_path "Take.JSON" = "Take.JSON"%string
  /\ MarkerManager.json_path "take" = "take.json"%string
  /\ Fs.files (fst (MarkerManager.save_to_json self fs "take")) !! "a.wav"%string
     = Some Fs.Garbage.
Proof.
  intros self fs.
  split; [reflexivity|]. split; [reflexivity|].
  destruct (save_to_json_path self fs "take") as (_ & _ & H & _).
  rewrite H; [reflexivity|discriminate].
Defined.

(** ** The waveform shown for a buffer *)

Lemma min_cases (a b : Q) :
  (Py.min a b = a /\ a <= b) \/ (Py.min a b = b /\ b <= a).
Proof.
  unfold Py.min. destruct (Py.ltb b a) eqn:E.
  - right. apply ltb_lt in E. split; [reflexivity|lra].
  - left. apply ltb_ge in E. split; [reflexivity|exact E].
Qed.

Lemma max_cases (a b : Q) :
  (Py.max a b = a /\ b <= a) \/ (Py.max a b = b /\ a <= b).
Proof.
  unfold Py.max. destruct (Py.ltb a b) eqn:E.
  - right. apply ltb_lt in E. split; [reflexivity|lra].
  - left. apply ltb_ge in E. split; [reflexivity|exact E].
Qed.

Lemma fold_min_spec (rest : list Q) (x : Q) :
  fold_left Py.min rest x ∈ x :: rest
  /\ forall y, y ∈ x :: rest -> fold_left Py.min rest x <= y.
Proof.
  revert x. induction rest as [|z rest IH]; intros x; simpl.
  - split; [left|]. intros y Hy. apply list_elem_of_singleton in Hy as ->.
    apply Qle_refl.
  - destruct (IH (Py.min x z)) as [Hin Hle]. split.
    + apply elem_of_cons in Hin as [E|Hin].
      * rewrite E. destruct (min_cases x z) as [[-> _]|[-> _]];
          [left|right; left].
      * right. right. exact Hin.
    + intros y Hy.
      assert (Hm : fold_left Py.min rest (Py.min x z) <= Py.min x z)
        by (apply Hle; left).
      apply elem_of_cons in Hy as [->|Hy];
        [|apply elem_of_cons in Hy as [->|Hy]].
      * eapply Qle_trans; [exact Hm|].
        destruct (min_cases x z) as [[E ?]|[E ?]]; rewrite E; lra.
      * eapply Qle_trans; [exact Hm|].
        destruct (min_cases x z) as [[E ?]|[E ?]]; rewrite E; lra.
      * apply Hle. right. exact Hy.
Qed.

Lemma fold_max_spec (rest : list Q) (x : Q) :
  fold_left Py.max rest x ∈ x :: rest
  /\ forall y, y ∈ x :: rest -> y <= fold_left Py.max rest x.
Proof.
  revert x. induction rest as [|z rest IH]; intros x; simpl.
  - split; [left|]. intros y Hy. apply list_elem_of_singleton in Hy as ->.
    apply Qle_refl.
  - destruct (IH (Py.max x z)) as [Hin Hle]. split.
    + apply elem_of_cons in Hin as [E|Hin].
      * rewrite E. destruct (max_cases x z) as [[-> _]|[-> _]];
          [left|right; left].
      * right. right. exact Hin.
    + intros y Hy.
      assert (Hm : Py.max x z <= fold_left Py.max rest (Py.max x z))
        by (apply Hle; left).
      apply elem_of_cons in Hy as [->|Hy];
        [|apply elem_of_cons in Hy as [->|Hy]].
      * eapply Qle_trans; [|exact Hm].
        destruct (max_cases x z) as [[E ?]|[E ?]]; rewrite E; lra.
      * eapply Qle_trans; [|exact Hm].
        destruct (max_cases x z) as [[E ?]|[E ?]]; rewrite E; lra.
      * apply Hle. right. exact Hy.
Qed.

Lemma slice_nonneg {A} (a : list A) (i j : Z) :
  (0 <= i)%Z -> (0 <= j)%Z ->
  Py.slice a i j
  = take (Nat.min (Z.to_nat j) (length a) - Nat.min (Z.to_nat i) (length a))
         (drop (Nat.min (Z.to_nat i) (length a)) a).
Proof.
  intros Hi Hj. unfold Py.slice, Py.slice_bound.
  destruct (Z.ltb_spec i 0); [lia|]. destruct (Z.ltb_spec j 0); [lia|].
  reflexivity.
Qed.

Lemma slice_chunk {A} (a : list A) (i n : nat) :
  (i * n + n <= length a)%nat ->
  Py.slice a (Z.of_nat i * Z.of_nat n) (Z.of_nat i * Z.of_nat n + Z.of_nat n)
  = take n (drop (i * n) a).
Proof.
  intros H. rewrite slice_nonneg by lia.
  replace (Z.to_nat (Z.of_nat i * Z.of_nat n)) with (i * n)%nat by lia.
  replace (Z.to_nat (Z.of_nat i * Z.of_nat n + Z.of_nat n)) with (i * n + n)%nat
    by lia.
  rewrite !Nat.min_l by lia. f_equal. lia.
Qed.

Lemma waveform_loop_spec (audio_mono : list Q) (n : nat) (pixels : list nat) :
  (0 < n)%nat ->
  (forall i, i ∈ pixels -> (i * n + n <= length audio_mono)%nat) ->
  exists w,
    AudioProcessor.waveform_loop audio_mono (Z.of_nat n) pixels = Some w
    /\ length w = length pixels
    /\ forall j i lo hi, pixels !! j = Some i -> w !! j = Some (lo, hi) ->
         let chunk := take n (drop (i * n) audio_mono) in
         lo ∈ chunk /\ hi ∈ chunk /\ forall x, x ∈ chunk -> lo <= x /\ x <= hi.
Proof.
  intros Hn. induction pixels as [|i pixels IH]; intros H.
  - exists []. split; [reflexivity|]. split; [reflexivity|].
    intros j i lo hi Hj. rewrite lookup_nil in Hj. discriminate.
  - destruct IH as (w & Ew & Hlen & Hw).
    { intros i' Hi'. apply H. right. exact Hi'. }
    cbn [AudioProcessor.waveform_loop]. cbv zeta.
    rewrite (slice_chunk audio_mono i n) by (apply H; left).
    assert (Hc : length (take n (drop (i * n) audio_mono)) = n).
    { rewrite length_take, length_drop. pose proof (H i ltac:(left)). lia. }
    destruct (take n (drop (i * n) audio_mono)) as [|x rest] eqn:Ec;
      [simpl in Hc; lia|].
    cbn [AudioProcessor.np_min AudioProcessor.np_max]. rewrite Ew.
    eexists. split; [reflexivity|]. split; [simpl; rewrite Hlen; reflexivity|].
    intros [|j] i' lo hi Hj Hl; simpl in Hj, Hl.
    + injection Hj as <-. injection Hl as <- <-. cbv zeta. rewrite Ec.
      destruct (fold_min_spec rest x) as [Hmin Hmin'].
      destruct (fold_max_spec rest x) as [Hmax Hmax'].
      split; [exact Hmin|]. split; [exact Hmax|].
      intros y Hy. split; [apply Hmin', Hy|apply Hmax', Hy].
    + exact (Hw j i' lo hi Hj Hl).
Qed.

(** X12: for a loaded buffer and a positive number of samples per pixel,
    [get_waveform_data] does not raise and returns one pair for each whole
    block of [samples_per_pixel] samples of the mono signal, the samples of
    the last incomplete block being left out.  The pair of block [i] holds
    two samples of the block, the first at most and the second at least
    every sample of the block. *)
Theorem get_waveform_data_blocks (self : AudioProcessor.t)
  (audio : AudioProcessor.ndarray) (samples_per_pixel : Z) :
  AudioProcessor.audio_data self = Some audio ->
  (0 < samples_per_pixel)%Z ->
  let audio_mono := AudioProcessor.to_mono audio in
  let n := Z.to_nat samples_per_pixel in
  exists w,
    AudioProcessor.get_waveform_data self samples_per_pixel = Some w
    /\ length w = (length audio_mono / n)%nat
    /\ forall i lo hi, w !! i = Some (lo, hi) ->
         let chunk := take n (drop (i * n) audio_mono) in
         length chunk = n
         /\ lo ∈ chunk /\ hi ∈ chunk
         /\ forall x, x ∈ chunk -> lo <= x /\ x <= hi.
Proof.
  intros Ha Hspp audio_mono n.
  unfold AudioProcessor.get_waveform_data. rewrite Ha. cbv zeta.
  fold audio_mono.
  destruct (Z.eqb_spec samples_per_pixel 0) as [?|_]; [lia|].
  assert (Hn : (0 < n)%nat) by (unfold n; lia).
  assert (En : samples_per_pixel = Z.of_nat n) by (unfold n; lia).
  assert (Ediv : Z.to_nat (Z.of_nat (length audio_mono) / samples_per_pixel)
                 = (length audio_mono / n)%nat).
  { rewrite En, <- Nat2Z.inj_div, Nat2Z.id. reflexivity. }
  rewrite Ediv, En.
  assert (Hb : forall i, (i < length audio_mono / n)%nat ->
                 (i * n + n <= length audio_mono)%nat).
  { intros i Hi.
    pose proof (Nat.Div0.mul_div_le (length audio_mono) n) as Hd. nia. }
  destruct (waveform_loop_spec audio_mono n (seq 0 (length audio_mono / n)) Hn)
    as (w & Ew & Hlen & Hw).
  { intros i Hi. apply elem_of_seq in Hi. apply Hb. lia. }
  exists w. split; [exact Ew|]. rewrite length_seq in Hlen.
  split; [exact Hlen|].
  intros i lo hi Hi.
  assert (Hlt : (i < length audio_mono / n)%nat).
  { rewrite <- Hlen. apply lookup_lt_Some in Hi. exact Hi. }
  assert (Hs : seq 0 (length audio_mono / n) !! i = Some i).
  { rewrite lookup_seq. split; [reflexivity|exact Hlt]. }
  cbv zeta. split.
  - rewrite length_take, length_drop. pose proof (Hb i Hlt). lia.
  - exact (Hw i i lo hi Hs Hi).
Qed.

Lemma get_waveform_data_blocks_witness :
  let self := AudioProcessor.mk (Some (AudioProcessor.Mono [3; 1; 2; 5; 4])) 8000
                (5 # 8000) None in
  exists w,
    AudioProcessor.get_waveform_data self 2 = Some w
    /\ length w = 2%nat.
Proof.
  intros self.
  destruct (get_waveform_data_blocks self (AudioProcessor.Mono [3; 1; 2; 5; 4]) 2)
    as (w & Ew & Hlen & _); [reflexivity|lia|].
  exists w. split; [exact Ew|exact Hlen].
Defined.

(** ** Trimming a segment *)

Lemma first_true_spec (b : list bool) :
  match AudioProcessor.first_true b with
  | Some s => b !! s = Some true /\ forall k, (k < s)%nat -> b !! k = Some false
  | None => forall k x, b !! k = Some x -> x = false
  end.
Proof.
  induction b as [|x b IH]; simpl.
  - intros k x H. rewrite lookup_nil in H. discriminate.
  - destruct x.
    + split; [reflexivity|]. intros k Hk. lia.
    + destruct (AudioProcessor.first_true b) as [s|]; simpl.
      * destruct IH as [Hs Hb]. split; [exact Hs|].
        intros [|k] Hk; [reflexivity|]. simpl. apply Hb. lia.
      * intros [|k] x H; simpl in H; [congruence|]. exact (IH k x H).
Qed.

Lemma last_true_spec (b : list bool) :
  match AudioProcessor.last_true b with
  | Some e =>
      b !! e = Some true
      /\ forall k x, (e < k)%nat -> b !! k = Some x -> x = false
  | None => forall k x, b !! k = Some x -> x = false
  end.
Proof.
  induction b as [|x b IH]; simpl.
  - intros k x H. rewrite lookup_nil in H. discriminate.
  - destruct (AudioProcessor.last_true b) as [e|].
    + destruct IH as [He Hb]. split; [exact He|].
      intros [|k] y Hk H; [lia|]. simpl in H. apply (Hb k y); [lia|exact H].
    + destruct x.
      * split; [reflexivity|]. intros [|k] y Hk H; [lia|]. simpl in H.
        exact (IH k y H).
      * intros [|k] y H; simpl in H; [congruence|]. exact (IH k y H).
Qed.

Lemma slice_length_le {A} (a : list A) (i j : Z) :
  (length (Py.slice a i j) <= length a)%nat.
Proof. unfold Py.slice. rewrite length_take, length_drop. lia. Qed.

Lemma slice_frames_frames (a : AudioProcessor.ndarray) (i j : Z) :
  (AudioProcessor.frames (AudioProcessor.slice_frames a i j)
   <= AudioProcessor.frames a)%nat
  /\ length (AudioProcessor.rows (AudioProcessor.slice_frames a i j))
     = length (AudioProcessor.rows a).
Proof.
  destruct a as [y|c0 c1 rest]; simpl.
  - split; [apply slice_length_le|reflexivity].
  - split; [apply slice_length_le|]. rewrite length_map. reflexivity.
Qed.

(** X13: [_trim_silence] keeps the number of channels and never returns
    more frames than it is given.  When no frame of the segment has a level
    above the threshold the segment is returned as it is.  Otherwise the
    result is the slice from sample [512 * s] to sample [512 * (e + 1)],
    where [s] is the first and [e] the last frame with a level above the
    threshold, so that [s <= e]. *)
Theorem trim_silence_slice (lib : AudioProcessor.Lib)
  (audio : AudioProcessor.ndarray) (threshold_db : Q) :
  let energy_db :=
    AudioProcessor.rms_db lib (AudioProcessor.to_mono audio) in
  let r := AudioProcessor._trim_silence lib audio threshold_db in
  (AudioProcessor.frames r <= AudioProcessor.frames audio)%nat
  /\ length (AudioProcessor.rows r) = length (AudioProcessor.rows audio)
  /\ ((forall x, x ∈ energy_db -> x <= threshold_db) -> r = audio)
  /\ ((exists x, x ∈ energy_db /\ threshold_db < x) ->
      exists s e xs xe,
        (s <= e)%nat
        /\ energy_db !! s = Some xs /\ threshold_db < xs
        /\ energy_db !! e = Some xe /\ threshold_db < xe
        /\ (forall k x, energy_db !! k = Some x -> (k < s \/ e < k)%nat ->
              x <= threshold_db)
        /\ r = AudioProcessor.slice_frames audio
                 (Z.of_nat s * 512) ((Z.of_nat e + 1) * 512)).
Proof.
  cbv zeta. unfold AudioProcessor._trim_silence. cbv zeta.
  set (energy_db := AudioProcessor.rms_db lib (AudioProcessor.to_mono audio)).
  set (non_silent := map (fun x => Py.ltb threshold_db x) energy_db).
  pose proof (first_true_spec non_silent) as Hf.
  pose proof (last_true_spec non_silent) as Hl.
  assert (Hlook : forall k v, non_silent !! k = Some v ->
            exists x, energy_db !! k = Some x /\ v = Py.ltb threshold_db x).
  { intros k v H. unfold non_silent in H. rewrite list_lookup_fmap in H.
    destruct (energy_db !! k) as [x|]; [|discriminate].
    injection H as <-. exists x. split; reflexivity. }
  assert (Hlook' : forall k x, energy_db !! k = Some x ->
            non_silent !! k = Some (Py.ltb threshold_db x)).
  { intros k x H. unfold non_silent. rewrite list_lookup_fmap, H. reflexivity. }
  destruct (AudioProcessor.first_true non_silent) as [s|];
    destruct (AudioProcessor.last_true non_silent) as [e|].
  - destruct Hf as [Hs Hbefore]. destruct Hl as [He Hafter].
    split; [apply slice_frames_frames|]. split; [apply slice_frames_frames|].
    destruct (Hlook s true Hs) as (xs & Exs & Hxs).
    destruct (Hlook e true He) as (xe & Exe & Hxe).
    symmetry in Hxs, Hxe. apply ltb_lt in Hxs, Hxe.
    split.
    + intros Hall. assert (Hin : xs ∈ energy_db)
        by (eapply list_elem_of_lookup_2; exact Exs).
      specialize (Hall xs Hin). lra.
    + intros _. exists s, e, xs, xe.
      split.
      { destruct (Nat.le_gt_cases s e) as [H|H]; [exact H|].
        rewrite (Hbefore e H) in He. discriminate. }
      split; [exact Exs|]. split; [exact Hxs|].
      split; [exact Exe|]. split; [exact Hxe|].
      split; [|reflexivity].
      intros k x Ek [Hk|Hk].
      * pose proof (Hlook' k x Ek) as Hn. rewrite (Hbefore k Hk) in Hn.
        injection Hn as Hn. symmetry in Hn. apply ltb_ge in Hn. exact Hn.
      * pose proof (Hlook' k x Ek) as Hn.
        pose proof (Hafter k _ Hk Hn) as Hn'. apply ltb_ge in Hn'. exact Hn'.
  - destruct Hf as [Hs _]. pose proof (Hl s true Hs). discriminate.
  - destruct Hl as [He _]. pose proof (Hf e true He). discriminate.
  - split; [lia|]. split; [reflexivity|]. split; [reflexivity|].
    intros (x & Hx & Hlt). apply list_elem_of_lookup in Hx as [k Hk].
    pose proof (Hf k _ (Hlook' k x Hk)) as Hn. apply ltb_ge in Hn. lra.
Qed.

Lemma trim_silence_slice_witness :
  let lib := AudioProcessor.mkLib (fun _ => [-80; -10; 0; -60]) (fun y _ _ => y)
               (fun _ => true) (fun _ => true) (fun _ => true) in
  let audio := AudioProcessor.Mono (repeat 1 2000) in
  AudioProcessor._trim_silence lib audio (-40)
  = AudioProcessor.slice_frames audio 512 1536.
Proof.
  intros lib audio.
  destruct (trim_silence_slice lib audio (-40)) as (_ & _ & _ & H).
  destruct H as (s & e & xs & xe & Hse & Hs & Hxs & He & Hxe & Hout & ->).
  - exists 0. split; [right; right; left|reflexivity].
  - destruct s as [|[|s]].
    + injection Hs as <-. vm_compute in Hxs. discriminate.
    + destruct e as [|[|[|e]]].
      * lia.
      * assert (H2 : 0 <= -40).
        { apply (Hout 2%nat 0); [reflexivity|right; lia]. }
        vm_compute in H2. destruct H2. reflexivity.
      * reflexivity.
      * destruct e; simpl in He; [injection He as <-|discriminate].
        vm_compute in Hxe. discriminate.
    + assert (H1 : -10 <= -40).
      { apply (Hout 1%nat (-10)); [reflexivity|left; lia]. }
      vm_compute in H1. destruct H1. reflexivity.
Defined.

(** ** The segments of consecutive splits *)

Lemma slice_app {A} (c : list A) (i j k : Z) :
  (0 <= i <= j)%Z -> (j <= k)%Z ->
  Py.slice c i j ++ Py.slice c j k = Py.slice c i k.
Proof.
  intros Hij Hjk. rewrite !slice_nonneg by lia.
  set (a := Nat.min (Z.to_nat i) (length c)).
  set (b := Nat.min (Z.to_nat j) (length c)).
  set (d := Nat.min (Z.to_nat k) (length c)).
  assert (Hab : (a <= b)%nat) by (unfold a, b; lia).
  assert (Hbd : (b <= d)%nat) by (unfold b, d; lia).
  replace (drop b c) with (drop (b - a) (drop a c))
    by (rewrite drop_drop; f_equal; lia).
  rewrite take_take_drop. f_equal. lia.
Qed.

Lemma concat_slices {A} (c : list A) (b : Z) (bs : list Z) :
  (0 <= b)%Z ->
  (forall i x y, (b :: bs) !! i = Some x -> (b :: bs) !! S i = Some y ->
     (x <= y)%Z) ->
  concat (map (fun p => Py.slice c (fst p) (snd p)) (zip (b :: bs) bs))
  = Py.slice c b (List.last (b :: bs) 0%Z).
Proof.
  revert b. induction bs as [|b' bs IH]; intros b Hb Hs.
  - simpl. rewrite slice_nonneg by lia. rewrite Nat.sub_diag. reflexivity.
  - assert (Hbb : (b <= b')%Z) by (apply (Hs O b b'); reflexivity).
    change (zip (b :: b' :: bs) (b' :: bs)) with ((b, b') :: zip (b' :: bs) bs).
    cbn [map concat fst snd]. rewrite IH.
    + change (List.last (b :: b' :: bs) 0%Z) with (List.last (b' :: bs) 0%Z).
      assert (Hl : (b' <= List.last (b' :: bs) 0%Z)%Z).
      { clear IH Hbb Hb. revert b' b Hs.
        induction bs as [|b'' bs IH]; intros b' b Hs; [simpl; lia|].
        assert (H1 : (b' <= b'')%Z) by (apply (Hs 1%nat b' b''); reflexivity).
        change (List.last (b' :: b'' :: bs) 0%Z) with (List.last (b'' :: bs) 0%Z).
        specialize (IH b'' b'). etransitivity; [exact H1|]. apply IH.
        intros i x y Hx Hy. exact (Hs (S i) x y Hx Hy). }
      apply slice_app; lia.
    + lia.
    + intros i x y Hx Hy. exact (Hs (S i) x y Hx Hy).
Qed.

Lemma int_mono (x y : Q) : 0 <= x -> x <= y -> (0 <= Py.int x <= Py.int y)%Z.
Proof.
  intros Hx Hxy. rewrite !int_floor by lra. split.
  - change 0%Z with (Qfloor 0). apply Qfloor_resp_le, Hx.
  - apply Qfloor_resp_le, Hxy.
Qed.

Lemma to_sample_mono (self : AudioProcessor.t) (x y : Q) :
  (0 <= AudioProcessor.sample_rate self)%Z -> 0 <= x -> x <= y ->
  (0 <= AudioProcessor.to_sample self x <= AudioProcessor.to_sample self y)%Z.
Proof.
  intros Hsr Hx Hxy. unfold AudioProcessor.to_sample.
  assert (H0 : 0 <= inject_Z (AudioProcessor.sample_rate self)).
  { change 0 with (inject_Z 0). rewrite <- Zle_Qle. exact Hsr. }
  apply int_mono.
  - apply Qmult_le_0_compat; assumption.
  - apply Qmult_le_compat_r; assumption.
Qed.

Lemma map_zip_fmap {A B C} (f : A -> B) (g : B -> B -> C) (l1 l2 : list A) :
  map (fun p => g (f (fst p)) (f (snd p))) (zip l1 l2)
  = map (fun p => g (fst p) (snd p)) (zip (map f l1) (map f l2)).
Proof.
  revert l2. induction l1 as [|x l1 IH]; intros [|y l2]; try reflexivity.
  cbn [zip_with map fst snd]. f_equal. apply IH.
Qed.

Lemma last_map {A B} (f : A -> B) (l : list A) (a : A) :
  List.last (map f l) (f a) = f (List.last l a).
Proof.
  induction l as [|x [|y l] IH]; [reflexivity|reflexivity|].
  change (List.last (map f (x :: y :: l)) (f a))
    with (List.last (map f (y :: l)) (f a)).
  rewrite IH. reflexivity.
Qed.

Lemma to_sample_0 (self : AudioProcessor.t) : AudioProcessor.to_sample self 0 = 0%Z.
Proof.
  unfold AudioProcessor.to_sample, Py.int. simpl. rewrite Z.mul_0_l. reflexivity.
Qed.

Lemma rows_slice_frames (a : AudioProcessor.ndarray) (i j : Z) :
  AudioProcessor.rows (AudioProcessor.slice_frames a i j)
  = map (fun c => Py.slice c i j) (AudioProcessor.rows a).
Proof. destruct a; reflexivity. Qed.

Lemma segment_of_plain (lib : AudioProcessor.Lib) (self : AudioProcessor.t)
  (audio : AudioProcessor.ndarray) (s e : Q) :
  AudioProcessor.audio_data self = Some audio ->
  AudioProcessor.segment_of lib self audio s e
    (AudioProcessor.sample_rate self) (AudioProcessor.channels self) false
  = AudioProcessor.slice_frames audio (AudioProcessor.to_sample self s)
      (AudioProcessor.to_sample self e).
Proof.
  intros Ha. unfold AudioProcessor.segment_of, AudioProcessor.channels.
  rewrite Ha, Z.eqb_refl. cbv zeta. cbn [negb].
  destruct audio as [y|c0 c1 rest]; cbn [AudioProcessor.slice_frames].
  - reflexivity.
  - destruct (Z.eqb_spec (2 + Z.of_nat (length rest)) 1); [lia|reflexivity].
Qed.

(** X14: the segments [export_splits] cuts for consecutive splits abut.
    With no trimming, the sample rate and the channel count of the buffer,
    and times that are not negative, the segments of all the splits, put
    one after the other, are in each channel the samples of the buffer from
    the first to the sample of the greatest time: no sample between them is
    exported twice or left out. *)
Theorem export_segments_abut (lib : AudioProcessor.Lib)
  (self : AudioProcessor.t) (audio : AudioProcessor.ndarray)
  (split_times : list Q) :
  AudioProcessor.audio_data self = Some audio ->
  (0 <= AudioProcessor.sample_rate self)%Z ->
  0 <= AudioProcessor.duration self ->
  (forall t, t ∈ split_times -> 0 <= t) ->
  let times := Py.sorted ([0] ++ split_times ++ [AudioProcessor.duration self]) in
  let segment i :=
    AudioProcessor.segment_of lib self audio (nth i times 0) (nth (i + 1) times 0)
      (AudioProcessor.sample_rate self) (AudioProcessor.channels self) false in
  forall k c, AudioProcessor.rows audio !! k = Some c ->
    concat (map (fun i => nth k (AudioProcessor.rows (segment i)) [])
              (seq 0 (length times - 1)))
    = Py.slice c 0 (AudioProcessor.to_sample self (List.last times 0)).
Proof.
  intros Ha Hsr Hd Hpos times segment k c Hk.
  assert (Hsorted : Spec.is_sorted times) by apply sorted_is_sorted.
  assert (Hnn : forall t, t ∈ times -> 0 <= t).
  { intros t Ht. unfold times in Ht. rewrite sorted_perm in Ht.
    apply elem_of_app in Ht as [Ht|Ht].
    - apply list_elem_of_singleton in Ht as ->. apply Qle_refl.
    - apply elem_of_app in Ht as [Ht|Ht]; [apply Hpos, Ht|].
      apply list_elem_of_singleton in Ht as ->. exact Hd. }
  assert (H0 : (0 : Q) ∈ times).
  { unfold times. rewrite sorted_perm. left. }
  destruct times as [|t0 ts] eqn:Et; [apply elem_of_nil in H0 as []|].
  assert (Ht0 : AudioProcessor.to_sample self t0 = 0%Z).
  { assert (H1 : 0 <= t0) by (apply Hnn; left).
    assert (H2 : t0 <= 0).
    { apply elem_of_cons in H0 as [<-|H0]; [apply Qle_refl|].
      apply is_sorted_cons in Hsorted as [Hle _]. apply Hle, H0. }
    destruct (to_sample_mono self t0 0 Hsr H1 H2) as [H3 H4].
    pose proof (to_sample_0 self) as E.
    lia. }
  assert (Eseg : forall i, nth k (AudioProcessor.rows (segment i)) []
            = Py.slice c (AudioProcessor.to_sample self (nth i (t0 :: ts) 0))
                (AudioProcessor.to_sample self (nth (i + 1) (t0 :: ts) 0))).
  { intros i. unfold segment. rewrite (segment_of_plain lib self audio _ _ Ha).
    rewrite rows_slice_frames.
    apply nth_lookup_Some with (d := []).
    rewrite list_lookup_fmap, Hk. reflexivity. }
  rewrite (map_ext _ _ Eseg).
  rewrite <- (map_map (fun i => (nth i (t0 :: ts) 0, nth (i + 1) (t0 :: ts) 0))
               (fun p => Py.slice c (AudioProcessor.to_sample self (fst p))
                           (AudioProcessor.to_sample self (snd p)))).
  rewrite nth_pairs_zip. cbn [tail].
  rewrite (map_zip_fmap (AudioProcessor.to_sample self)
             (fun x y => Py.slice c x y) (t0 :: ts) ts).
  cbn [map]. set (bs := map (AudioProcessor.to_sample self) ts).
  rewrite concat_slices.
  - rewrite Ht0 at 1. f_equal. unfold bs.
    change (AudioProcessor.to_sample self t0
              :: map (AudioProcessor.to_sample self) ts)
      with (map (AudioProcessor.to_sample self) (t0 :: ts)).
    rewrite <- (to_sample_0 self) at 1. apply last_map.
  - lia.
  - intros i x y Hx Hy. unfold bs in Hx, Hy.
    change (AudioProcessor.to_sample self t0
              :: map (AudioProcessor.to_sample self) ts)
      with (map (AudioProcessor.to_sample self) (t0 :: ts)) in Hx, Hy.
    rewrite list_lookup_fmap in Hx, Hy.
    destruct ((t0 :: ts) !! i) as [tx|] eqn:Ex; [|discriminate].
    destruct ((t0 :: ts) !! S i) as [ty|] eqn:Ey; [|discriminate].
    injection Hx as <-. injection Hy as <-.
    apply to_sample_mono; [exact Hsr| |].
    + apply Hnn. eapply list_elem_of_lookup_2. exact Ex.
    + apply (Hsorted i (S i) tx ty); [lia|exact Ex|exact Ey].
Qed.

Lemma export_segments_abut_witness :
  let lib := AudioProcessor.mkLib (fun y => y) (fun y _ _ => y)
               (fun _ => true) (fun _ => true) (fun _ => true) in
  let audio := AudioProcessor.Mono [1; 2; 3; 4] in
  let self := AudioProcessor.mk (Some audio) 2 2 None in
  concat (map (fun i => nth 0 (AudioProcessor.rows
                                 (AudioProcessor.segment_of lib self audio
                                    (nth i [0; 1; 2] 0) (nth (i + 1) [0; 1; 2] 0)
                                    2 1 false)) [])
            (seq 0 2))
  = [1; 2; 3; 4].
Proof.
  intros lib audio self.
  assert (Hd : 0 <= AudioProcessor.duration self) by (vm_compute; discriminate).
  assert (Hpos : forall t, t ∈ [1] -> 0 <= t).
  { intros t Ht. apply list_elem_of_singleton in Ht as ->. vm_compute.
    discriminate. }
  exact (export_segments_abut lib self audio [1] eq_refl
           ltac:(simpl; lia) Hd Hpos O [1; 2; 3; 4] eq_refl).
Defined.

(** ** The files an export leaves alone *)





Lemma export_audio_unknown_format (lib : AudioProcessor.Lib)
  (fs : gmap string AudioProcessor.audio_file) (audio : AudioProcessor.ndarray)
  (output_path format : string) (sample_rate : Z) (quality : string) :
  String.eqb format "wav" = false -> String.eqb format "flac" = false ->
  String.eqb format "mp3" = false -> String.eqb format "ogg" = false ->
  AudioProcessor.sf_write_ok lib (String.app output_path ".temp.wav") = true ->
  exists fs1,
    AudioProcessor._export_audio lib fs audio output_path format sample_rate
      quality = (fs1, None)
    /\ forall q, fs !! q = None -> fs1 !! q = None.
Proof.
  intros H1 H2 H3 H4 Hw.
  unfold AudioProcessor._export_audio, AudioProcessor.sf_write.
  rewrite H1, H2, H3, H4, Hw. cbv zeta.
  eexists. split; [reflexivity|].
  intros q Hq.
  destruct (decide (q = String.app output_path ".temp.wav")) as [->|Hne].
  - apply lookup_delete_eq.
  - rewrite lookup_delete_ne, lookup_insert_ne by congruence. exact Hq.
Qed.

Lemma export_loop_unknown_format (lib : AudioProcessor.Lib)
  (self : AudioProcessor.t) (audio : AudioProcessor.ndarray)
  (args : AudioProcessor.export_args) (split_times : list Q)
  (excluded_splits : list Z) (num_digits : nat) :
  String.eqb (AudioProcessor.output_format args) "wav" = false ->
  String.eqb (AudioProcessor.output_format args) "flac" = false ->
  String.eqb (AudioProcessor.output_format args) "mp3" = false ->
  String.eqb (AudioProcessor.output_format args) "ogg" = false ->
  (forall p, AudioProcessor.sf_write_ok lib p = true) ->
  forall indices exported_count fs,
  exists fs1,
    AudioProcessor.export_loop lib self audio args split_times
      excluded_splits num_digits indices exported_count fs = (fs1, None)
    /\ forall q, fs !! q = None -> fs1 !! q = None.
Proof.
  intros H1 H2 H3 H4 Hw.
  induction indices as [|i indices IH]; intros c fs.
  - exists fs. split; [reflexivity|]. auto.
  - cbn [AudioProcessor.export_loop].
    destruct (existsb _ excluded_splits); [apply IH|]. cbv zeta.
    match goal with
    | |- context [AudioProcessor._export_audio ?l ?f ?a ?p ?fmt ?sr ?ql] =>
        destruct (export_audio_unknown_format l f a p fmt sr ql H1 H2 H3 H4
                    (Hw _)) as (fs1 & E & Hfs1)
    end.
    rewrite E. destruct (IH (c + 1)%nat fs1) as (fs2 & E2 & Hfs2).
    exists fs2. split; [exact E2|]. intros q Hq. apply Hfs2, Hfs1, Hq.
Qed.

(** X16: [export_splits] does not check the output format.  With a format
    other than wav, flac, mp3 and ogg, a folder that can be made and
    [sf.write] calls that succeed, the call reports success, with the count
    of the splits in its message, and no file has been created: every path
    without a file before the call is without one after it. *)
Theorem export_splits_unknown_format (lib : AudioProcessor.Lib)
  (self : AudioProcessor.t) (audio : AudioProcessor.ndarray)
  (fs : gmap string AudioProcessor.audio_file)
  (split_times : list Q) (args : AudioProcessor.export_args)
  (excluded_splits : option (list Z)) :
  AudioProcessor.audio_data self = Some audio ->
  String.eqb (AudioProcessor.output_format args) "wav" = false ->
  String.eqb (AudioProcessor.output_format args) "flac" = false ->
  String.eqb (AudioProcessor.output_format args) "mp3" = false ->
  String.eqb (AudioProcessor.output_format args) "ogg" = false ->
  AudioProcessor.makedirs_ok lib (AudioProcessor.output_folder args) = true ->
  (forall p, AudioProcessor.sf_write_ok lib p = true) ->
  exists fs1,
    AudioProcessor.export_splits lib self fs split_times args excluded_splits
    = (fs1, (true,
             AudioProcessor.ExportedSplits
               (Z.of_nat (length split_times) + 1
                - Z.of_nat (length (default [] excluded_splits)))
               (length (default [] excluded_splits))))
    /\ forall q, fs !! q = None -> fs1 !! q = None.
Proof.
  intros Ha H1 H2 H3 H4 Hm Hw. unfold AudioProcessor.export_splits.
  rewrite Ha, Hm. cbn [negb]. cbv zeta.
  match goal with
  | |- context [AudioProcessor.export_loop ?l ?s ?a ?ar ?st ?ex ?nd ?ix ?c ?f] =>
      destruct (export_loop_unknown_format l s a ar st ex nd H1 H2 H3 H4 Hw
                  ix c f) as (fs1 & E & Hfs1)
  end.
  rewrite E. exists fs1. split; [|exact Hfs1].
  do 3 f_equal.
  rewrite (Permutation_length (sorted_perm _)), !length_app. simpl. lia.
Qed.

Lemma export_splits_unknown_format_witness :
  let lib := AudioProcessor.mkLib (fun y => y) (fun y _ _ => y)
               (fun _ => true) (fun _ => true) (fun _ => true) in
  let audio := AudioProcessor.Mono [1; 2; 3; 4] in
  let self := AudioProcessor.mk (Some audio) 2 2 None in
  let args := AudioProcessor.mkArgs "out" "s" "aiff" 2 1 "high" false in
  AudioProcessor.export_splits lib self ∅ [1] args None
  = (∅, (true, AudioProcessor.ExportedSplits 2 0)).
Proof.
  intros lib audio self args.
  destruct (export_splits_unknown_format lib self audio ∅ [1] args None
              eq_refl eq_refl eq_refl eq_refl eq_refl eq_refl
              (fun _ => eq_refl)) as (fs1 & E & Hfs1).
  rewrite E. f_equal. apply map_eq. intros q. rewrite lookup_empty.
  apply Hfs1, lookup_empty.
Defined.

(** ** Buffers that are silent throughout, or nowhere *)

Lemma scan_none_silent (min_silence_duration : Q)
  (frames : list (bool * Q)) (st : AudioProcessor.scan) :
  (forall f, f ∈ frames -> fst f = false) ->
  AudioProcessor.in_silence st = false ->
  fold_left (AudioProcessor.scan_step min_silence_duration) frames st = st.
Proof.
  revert st. induction frames as [|[b t] frames IH]; intros st H Hst;
    [reflexivity|].
  simpl. assert (Hb : b = false) by (apply (H (b, t)); left). subst b.
  rewrite Hst. cbn. apply IH; [|exact Hst].
  intros f Hf. apply H. right. exact Hf.
Qed.

Lemma scan_all_silent (min_silence_duration : Q)
  (frames : list (bool * Q)) (st : AudioProcessor.scan) :
  (forall f, f ∈ frames -> fst f = true) ->
  AudioProcessor.in_silence st = true ->
  fold_left (AudioProcessor.scan_step min_silence_duration) frames st = st.
Proof.
  revert st. induction frames as [|[b t] frames IH]; intros st H Hst;
    [reflexivity|].
  simpl. assert (Hb : b = true) by (apply (H (b, t)); left). subst b.
  rewrite Hst. cbn. apply IH; [|exact Hst].
  intros f Hf. apply H. right. exact Hf.
Qed.

Lemma elem_of_zip_fst {A B} (l1 : list A) (l2 : list B) (p : A * B) :
  p ∈ zip l1 l2 -> fst p ∈ l1.
Proof.
  revert l2. induction l1 as [|x l1 IH]; intros [|y l2] H;
    try (apply elem_of_nil in H as []).
  cbn [zip_with] in H. apply elem_of_cons in H as [->|H]; [left|].
  right. exact (IH l2 H).
Qed.

(** X17: the two uniform cases of [detect_silence].  When no frame is below
    the threshold it returns no region.  When every frame is below the
    threshold it returns one region, from the time of the first frame to
    [self.duration], if that lasts at least the minimum, and no region
    otherwise. *)
Theorem detect_silence_uniform (lib : AudioProcessor.Lib)
  (self : AudioProcessor.t) (audio : AudioProcessor.ndarray)
  (threshold_db min_silence_duration : Q) :
  AudioProcessor.audio_data self = Some audio ->
  let rms_db := AudioProcessor.rms_db lib (AudioProcessor.to_mono audio) in
  let first := AudioProcessor.frames_to_time (AudioProcessor.sample_rate self) 0 in
  ((forall x, x ∈ rms_db -> threshold_db <= x) ->
     AudioProcessor.detect_silence lib self threshold_db min_silence_duration
     = [])
  /\ (rms_db <> [] -> (forall x, x ∈ rms_db -> x < threshold_db) ->
      AudioProcessor.detect_silence lib self threshold_db min_silence_duration
      = if Py.geb (AudioProcessor.duration self - first) min_silence_duration
        then [(first, AudioProcessor.duration self)] else []).
Proof.
  intros Ha rms_db first. unfold AudioProcessor.detect_silence.
  rewrite Ha. cbv zeta. fold rms_db. split.
  - intros H. rewrite scan_none_silent; [reflexivity| |reflexivity].
    intros f Hf. apply elem_of_zip_fst in Hf.
    apply list_elem_of_fmap in Hf as (x & -> & Hx). apply ltb_ge, H, Hx.
  - intros Hne H. destruct rms_db as [|x rest] eqn:E; [congruence|].
    assert (Hx : Py.ltb x threshold_db = true) by (apply ltb_lt, H; left).
    cbn [length seq map zip_with fold_left]. 
    unfold AudioProcessor.scan_step at 2. rewrite Hx. cbn [andb negb
      AudioProcessor.in_silence].
    rewrite scan_all_silent; [reflexivity| |reflexivity].
    intros f Hf. apply elem_of_zip_fst in Hf.
    apply list_elem_of_fmap in Hf as (y & -> & Hy). apply ltb_lt, H. right.
    exact Hy.
Qed.

Lemma detect_silence_uniform_witness :
  let lib := AudioProcessor.mkLib (fun _ => [-80; -70; -90]) (fun y _ _ => y)
               (fun _ => true) (fun _ => true) (fun _ => true) in
  let self := AudioProcessor.mk (Some (AudioProcessor.Mono (repeat 0 1100)))
                1000 (11 # 10) None in
  AudioProcessor.detect_silence lib self (-40) (1 # 2) = [(0 / 1000, 11 # 10)]
  /\ AudioProcessor.detect_silence lib self (-95) (1 # 2) = [].
Proof.
  intros lib self.
  destruct (detect_silence_uniform lib self
              (AudioProcessor.Mono (repeat 0 1100)) (-40) (1 # 2) eq_refl)
    as (_ & H1).
  destruct (detect_silence_uniform lib self
              (AudioProcessor.Mono (repeat 0 1100)) (-95) (1 # 2) eq_refl)
    as (H2 & _).
  split.
  - rewrite H1; [reflexivity|discriminate|].
    intros x Hx. repeat (apply elem_of_cons in Hx as [->|Hx]);
      [reflexivity ..|apply elem_of_nil in Hx as []].
  - apply H2. intros x Hx. repeat (apply elem_of_cons in Hx as [->|Hx]);
      [vm_compute; discriminate ..|apply elem_of_nil in Hx as []].
Defined.

(** ** The duration shown for a file *)






(** ** The markers placed in the silent regions *)

Lemma sorted_snoc_max (ms : list Q) (t : Q) :
  Spec.is_sorted ms -> (forall m, m ∈ ms -> m <= t) ->
  Py.sorted (ms ++ [t]) = ms ++ [t].
Proof.
  intros Hs Hle. apply sorted_id.
  intros i j a b Hij Ha Hb.
  destruct (decide (j < length ms)%nat) as [Hj|Hj].
  - rewrite lookup_app_l in Ha, Hb by lia. exact (Hs i j a b Hij Ha Hb).
  - rewrite lookup_app_r in Hb by lia.
    destruct (j - length ms)%nat as [|k] eqn:Ek; simpl in Hb; [|discriminate].
    injection Hb as <-.
    assert (Hi : (i < length ms)%nat) by lia.
    rewrite lookup_app_l in Ha by lia.
    apply Hle. eapply list_elem_of_lookup_2. exact Ha.
Qed.

Lemma middle_gap (p q : Q * Q) :
  1 # 100 <= snd p - fst p -> 1 # 100 <= snd q - fst q -> snd p <= fst q ->
  1 # 100 <= Spec.middle_of q - Spec.middle_of p.
Proof.
  unfold Spec.middle_of. destruct p as [s e], q as [s' e']. cbn [fst snd].
  intros H1 H2 H3.
  assert (E : (s' + e') / 2 - (s + e) / 2 == (s' + e' - s - e) * (1 # 2))
    by (unfold Qdiv; change (/ 2) with (1 # 2); ring).
  rewrite E. lra.
Qed.

Lemma place_markers_fold (mm : MarkerManager.t) (regions : list (Q * Q)) :
  (forall p, p ∈ regions -> 1 # 100 <= snd p - fst p) ->
  (forall i j p q, (i < j)%nat -> regions !! i = Some p ->
     regions !! j = Some q -> snd p <= fst q) ->
  App.place_markers mm regions
  = MarkerManager.with_markers (MarkerManager.clear_markers mm)
      (map Spec.middle_of regions).
Proof.
  unfold App.place_markers.
  induction regions as [|r regions IH] using rev_ind; intros Hlen Hord.
  - reflexivity.
  - rewrite fold_left_app. cbn [fold_left]. rewrite IH.
    + cbv zeta. fold (Spec.middle_of r). unfold MarkerManager.add_marker.
      cbn [MarkerManager.markers MarkerManager.with_markers].
      assert (Hgap : forall m, m ∈ map Spec.middle_of regions ->
                1 # 100 <= Spec.middle_of r - m).
      { intros m Hm. apply list_elem_of_fmap in Hm as (p & -> & Hp).
        apply list_elem_of_lookup in Hp as [i Hi].
        apply middle_gap.
        - apply Hlen. apply elem_of_app. left.
          eapply list_elem_of_lookup_2. exact Hi.
        - apply Hlen. apply elem_of_app. right. left.
        - apply (Hord i (length regions) p r).
          + apply lookup_lt_Some in Hi. exact Hi.
          + rewrite lookup_app_l by (apply lookup_lt_Some in Hi; exact Hi).
            exact Hi.
          + rewrite lookup_app_r by lia. rewrite Nat.sub_diag. reflexivity. }
      assert (Hfar : existsb (MarkerManager.near MarkerManager.add_tolerance
                                (Spec.middle_of r)) (map Spec.middle_of regions) = false).
      { apply existsb_near_false. intros m Hm. specialize (Hgap m Hm).
        unfold MarkerManager.add_tolerance.
        apply Qabs_case; intros; lra. }
      rewrite Hfar. cbn [fst].
      rewrite sorted_snoc_max.
      * rewrite map_app. reflexivity.
      * clear -Hlen Hord.
        intros i j a b Hij Ha Hb.
        change (map Spec.middle_of regions) with (Spec.middle_of <$> regions) in Ha, Hb.
        rewrite list_lookup_fmap in Ha, Hb.
        destruct (regions !! i) as [p|] eqn:Ep; [|discriminate].
        destruct (regions !! j) as [q|] eqn:Eq; [|discriminate].
        injection Ha as <-. injection Hb as <-.
        assert (H : 1 # 100 <= Spec.middle_of q - Spec.middle_of p).
        { apply middle_gap.
          - apply Hlen. apply elem_of_app. left.
            eapply list_elem_of_lookup_2. exact Ep.
          - apply Hlen. apply elem_of_app. left.
            eapply list_elem_of_lookup_2. exact Eq.
          - apply (Hord i j p q Hij).
            + rewrite lookup_app_l by (apply lookup_lt_Some in Ep; exact Ep).
              exact Ep.
            + rewrite lookup_app_l by (apply lookup_lt_Some in Eq; exact Eq).
              exact Eq. }
        lra.
      * intros m Hm. specialize (Hgap m Hm). lra.
    + intros p Hp. apply Hlen. apply elem_of_app. left. exact Hp.
    + intros i j p q Hij Hp Hq. apply (Hord i j p q Hij).
      * rewrite lookup_app_l by (apply lookup_lt_Some in Hp; exact Hp). exact Hp.
      * rewrite lookup_app_l by (apply lookup_lt_Some in Hq; exact Hq). exact Hq.
Qed.

Lemma middles_invariants (regions : list (Q * Q)) (d : Q) :
  (forall p, p ∈ regions -> 1 # 100 <= snd p - fst p) ->
  (forall i j p q, (i < j)%nat -> regions !! i = Some p ->
     regions !! j = Some q -> snd p <= fst q) ->
  (forall p, p ∈ regions -> 0 <= fst p /\ snd p <= d) ->
  Spec.is_sorted (map Spec.middle_of regions)
  /\ Spec.eps_unique (map Spec.middle_of regions)
  /\ Spec.in_range d (map Spec.middle_of regions).
Proof.
  intros Hlen Hord Hb.
  assert (Hgap : forall i j a b, (i < j)%nat ->
            map Spec.middle_of regions !! i = Some a ->
            map Spec.middle_of regions !! j = Some b -> 1 # 100 <= b - a).
  { intros i j a b Hij Ha Hb'.
    change (map Spec.middle_of regions) with (Spec.middle_of <$> regions)
      in Ha, Hb'.
    rewrite list_lookup_fmap in Ha, Hb'.
    destruct (regions !! i) as [p|] eqn:Ep; [|discriminate].
    destruct (regions !! j) as [q|] eqn:Eq; [|discriminate].
    injection Ha as <-. injection Hb' as <-.
    apply middle_gap.
    - apply Hlen. eapply list_elem_of_lookup_2. exact Ep.
    - apply Hlen. eapply list_elem_of_lookup_2. exact Eq.
    - exact (Hord i j p q Hij Ep Eq). }
  split; [|split].
  - intros i j a b Hij Ha Hb'. pose proof (Hgap i j a b Hij Ha Hb'). lra.
  - intros i j a b Hij Ha Hb'.
    destruct (Nat.lt_trichotomy i j) as [H|[H|H]]; [|congruence|].
    + pose proof (Hgap i j a b H Ha Hb'). apply Qabs_case; intros; lra.
    + pose proof (Hgap j i b a H Hb' Ha). apply Qabs_case; intros; lra.
  - intros a Ha. apply list_elem_of_fmap in Ha as ([s e] & -> & Hp).
    pose proof (Hlen _ Hp) as H1. pose proof (Hb _ Hp) as [H2 H3].
    cbn [fst snd] in H1, H2, H3. unfold Spec.middle_of. cbn [fst snd].
    assert (E : (s + e) / 2 == (s + e) * (1 # 2))
      by (unfold Qdiv; change (/ 2) with (1 # 2); ring).
    rewrite E. split; lra.
Qed.

(** The regions of [detect_silence] on a buffer whose last frame time is
    within its duration: each lasts at least the minimum, they are in order,
    and they lie within the buffer. *)
Lemma detect_silence_regions_bounds (lib : AudioProcessor.Lib)
  (ap : AudioProcessor.t) (audio : AudioProcessor.ndarray)
  (threshold min_duration : Q) :
  AudioProcessor.audio_data ap = Some audio ->
  (0 < AudioProcessor.sample_rate ap)%Z ->
  AudioProcessor.frames_to_time (AudioProcessor.sample_rate ap)
    (pred (length (AudioProcessor.rms_db lib (AudioProcessor.to_mono audio))))
  <= AudioProcessor.duration ap ->
  let silent_regions :=
    AudioProcessor.detect_silence lib ap threshold min_duration in
  (forall p, p ∈ silent_regions -> min_duration <= snd p - fst p)
  /\ (forall i j p q, (i < j)%nat -> silent_regions !! i = Some p ->
        silent_regions !! j = Some q -> snd p <= fst q)
  /\ (forall p, p ∈ silent_regions ->
        0 <= fst p /\ snd p <= AudioProcessor.duration ap).
Proof.
  intros Ha Hsr Hlast silent_regions.
  set (levels := AudioProcessor.rms_db lib (AudioProcessor.to_mono audio)) in *.
  set (flags := map (fun x => Py.ltb x threshold) levels).
  set (time := AudioProcessor.frames_to_time (AudioProcessor.sample_rate ap)).
  assert (Hfl : length flags = length levels) by (subst flags; apply length_map).
  assert (E : silent_regions
              = AudioProcessor.scan_close min_duration
                  (AudioProcessor.duration ap)
                  (fold_left (AudioProcessor.scan_step min_duration)
                     (zip flags (map time (seq 0 (length flags))))
                     (AudioProcessor.mkScan [] false 0))).
  { subst silent_regions. unfold AudioProcessor.detect_silence. rewrite Ha.
    rewrite Hfl. reflexivity. }
  pose proof (scan_close_spec time (fun i j => frames_to_time_mono _ i j Hsr)
                min_duration flags (AudioProcessor.duration ap)) as Hspec.
  cbv zeta in Hspec. rewrite <- E in Hspec. destruct Hspec as [Hin Hord].
  assert (Htime0 : forall i, 0 <= time i).
  { assert (H0 : 0 <= time O).
    { unfold time, AudioProcessor.frames_to_time.
      cbn [Z.of_nat Z.mul]. unfold Qdiv. rewrite Qmult_0_l. apply Qle_refl. }
    intros [|i]; [exact H0|].
    apply Qlt_le_weak. apply Qle_lt_trans with (y := time O); [exact H0|].
    apply frames_to_time_mono; [exact Hsr|lia]. }
  split; [|split].
  - intros [s e] Hp. apply Hin in Hp as (i & j & _ & _ & Hd). exact Hd.
  - apply Hord. rewrite Hfl. exact Hlast.
  - intros [s e] Hp. apply Hin in Hp as (i & j & Hrun & Hreg & _).
    unfold Spec.run_region in Hreg. injection Hreg as -> ->. cbn [fst snd].
    split; [apply Htime0|].
    destruct (Nat.ltb_spec j (length flags)) as [Hj|Hj]; [|apply Qle_refl].
    eapply Qle_trans; [|exact Hlast]. rewrite <- Hfl.
    destruct (decide (j = pred (length flags))) as [->|Hn]; [apply Qle_refl|].
    apply Qlt_le_weak. apply frames_to_time_mono; [exact Hsr|lia].
Qed.

(** X19: the markers [_detect_silence_delayed] places.  For a loaded buffer
    whose last frame time is within its duration and a minimum silence
    duration of at least 0.01 s, a Yes to the question replaces the markers
    by the middles of the detected regions, one marker for each region and
    in the order of the regions, and clears the exclusions, so that the
    count in the status message is the number of markers; the new markers
    are sorted, at least 0.01 s apart and within the duration of the
    buffer.  A No, or no region at all, leaves the marker manager as it
    was. *)
Theorem detect_silence_delayed_markers (lib : AudioProcessor.Lib)
  (ap : AudioProcessor.t) (audio : AudioProcessor.ndarray)
  (mm : MarkerManager.t) (threshold min_duration : Q) :
  AudioProcessor.audio_data ap = Some audio ->
  (0 < AudioProcessor.sample_rate ap)%Z ->
  AudioProcessor.frames_to_time (AudioProcessor.sample_rate ap)
    (pred (length (AudioProcessor.rms_db lib (AudioProcessor.to_mono audio))))
  <= AudioProcessor.duration ap ->
  1 # 100 <= min_duration ->
  let silent_regions :=
    AudioProcessor.detect_silence lib ap threshold min_duration in
  App._detect_silence_delayed lib ap mm threshold min_duration false = mm
  /\ (silent_regions = [] ->
      App._detect_silence_delayed lib ap mm threshold min_duration true = mm)
  /\ (silent_regions <> [] ->
      let mm' :=
        App._detect_silence_delayed lib ap mm threshold min_duration true in
      MarkerManager.markers mm' = map Spec.middle_of silent_regions
      /\ length (MarkerManager.markers mm') = length silent_regions
      /\ MarkerManager.excluded_splits mm' = []
      /\ Spec.is_sorted (MarkerManager.markers mm')
      /\ Spec.eps_unique (MarkerManager.markers mm')
      /\ Spec.in_range (AudioProcessor.duration ap) (MarkerManager.markers mm')).
Proof.
  intros Ha Hsr Hlast Hmin silent_regions.
  unfold App._detect_silence_delayed. cbv zeta. fold silent_regions.
  split; [destruct silent_regions; reflexivity|].
  split; [intros ->; reflexivity|].
  intros Hne.
  destruct (detect_silence_regions_bounds lib ap audio threshold min_duration
              Ha Hsr Hlast) as (Hlen & Hod & Hbound).
  fold silent_regions in Hlen, Hod, Hbound.
  assert (Hlen' : forall p, p ∈ silent_regions -> 1 # 100 <= snd p - fst p).
  { intros p Hp. specialize (Hlen p Hp). lra. }
  pose proof (place_markers_fold mm silent_regions Hlen' Hod) as Ep.
  destruct (middles_invariants silent_regions (AudioProcessor.duration ap)
              Hlen' Hod Hbound) as (I1 & I2 & I3).
  destruct silent_regions as [|r rs] eqn:Er; [congruence|].
  cbv zeta. rewrite Ep. cbn [MarkerManager.markers MarkerManager.with_markers
    MarkerManager.excluded_splits MarkerManager.clear_markers].
  split; [reflexivity|]. split; [rewrite length_map; reflexivity|].
  split; [reflexivity|]. split; [exact I1|]. split; [exact I2|exact I3].
Qed.

Lemma detect_silence_delayed_markers_witness :
  let lib :=
    AudioProcessor.mkLib (fun y => y) (fun y _ _ => y) (fun _ => true)
      (fun _ => true) (fun _ => true) in
  let audio := AudioProcessor.Mono [-50; -50; 0; -50] in
  let ap := AudioProcessor.mk (Some audio) 512 4 None in
  let mm := MarkerManager.mk [7] [(0, 7)] None 4 in
  MarkerManager.markers (App._detect_silence_delayed lib ap mm (-40) 1 true)
  = map Spec.middle_of [(0 # 512, 1024 # 512); (1536 # 512, 4)].
Proof.
  intros lib audio ap mm.
  destruct (detect_silence_delayed_markers lib ap audio mm (-40) 1 eq_refl
              eq_refl) as (_ & _ & H).
  - vm_compute. discriminate.
  - vm_compute. discriminate.
  - destruct H as (H & _); [discriminate|]. exact H.
Defined.

(** ** The widget: zoom, scroll and the time under a pixel *)

Lemma clamp_range (lo hi x : Q) :
  lo <= hi -> lo <= Py.max lo (Py.min hi x) /\ Py.max lo (Py.min hi x) <= hi.
Proof.
  intros H. destruct (max_cases lo (Py.min hi x)) as [[E H1]|[E H1]];
    rewrite E.
  - split; [apply Qle_refl|exact H].
  - split; [exact H1|].
    destruct (min_cases hi x) as [[E' H2]|[E' H2]]; rewrite E';
      [apply Qle_refl|exact H2].
Qed.

Lemma clamp_inside (lo hi x : Q) :
  lo <= x -> x <= hi -> Py.max lo (Py.min hi x) == x.
Proof.
  intros H1 H2.
  destruct (min_cases hi x) as [[E H3]|[E H3]]; rewrite E;
    destruct (max_cases lo hi) as [[E1 H4]|[E1 H4]];
    destruct (max_cases lo x) as [[E2 H5]|[E2 H5]];
    try rewrite E1; try rewrite E2; lra.
Qed.

(** X20: the setters of the widget clamp.  After [set_horizontal_zoom] the
    zoom is at least 1, after [set_scroll_offset] the offset is within
    [0, 1], and after [set_playback_position] the position is within
    [0, duration] for a duration that is not negative; a value within the
    bounds is stored as it is. *)
Theorem widget_setters_clamp (self : WaveformWidget.t) (v : Q) :
  1 <= WaveformWidget.h_zoom (WaveformWidget.set_horizontal_zoom self v)
  /\ (1 <= v ->
      WaveformWidget.h_zoom (WaveformWidget.set_horizontal_zoom self v) == v)
  /\ 0 <= WaveformWidget.scroll_offset (WaveformWidget.set_scroll_offset self v)
  /\ WaveformWidget.scroll_offset (WaveformWidget.set_scroll_offset self v) <= 1
  /\ (0 <= v -> v <= 1 ->
      WaveformWidget.scroll_offset (WaveformWidget.set_scroll_offset self v) == v)
  /\ (0 <= WaveformWidget.duration self ->
      let p := WaveformWidget.playback_position
                 (WaveformWidget.set_playback_position self v) in
      0 <= p /\ p <= WaveformWidget.duration self
      /\ (0 <= v -> v <= WaveformWidget.duration self -> p == v)).
Proof.
  cbn [WaveformWidget.set_horizontal_zoom WaveformWidget.h_zoom
       WaveformWidget.set_scroll_offset WaveformWidget.with_scroll_offset
       WaveformWidget.scroll_offset WaveformWidget.set_playback_position
       WaveformWidget.playback_position].
  split.
  { destruct (max_cases 1 v) as [[E H]|[E H]]; rewrite E; lra. }
  split.
  { intros H1. destruct (max_cases 1 v) as [[E H]|[E H]]; rewrite E; lra. }
  destruct (clamp_range 0 1 v) as [H1 H2]; [lra|].
  split; [exact H1|]. split; [exact H2|].
  split; [apply clamp_inside|].
  intros Hd. cbv zeta.
  destruct (clamp_range 0 (WaveformWidget.duration self) v Hd) as [H3 H4].
  split; [exact H3|]. split; [exact H4|]. apply clamp_inside.
Qed.

Lemma truediv_some (a b : Q) :
  ~ b == 0 -> Py.truediv a b = Some (a / b).
Proof.
  intros H. unfold Py.truediv. destruct (Qeq_bool b 0) eqn:E; [|reflexivity].
  apply Qeq_bool_eq in E. contradiction.
Qed.

Lemma get_time_at_x_in_range (self : WaveformWidget.t) (width x : Z) (t : Q) :
  0 <= WaveformWidget.duration self ->
  WaveformWidget.get_time_at_x self width x = Some t ->
  0 <= t /\ t <= WaveformWidget.duration self.
Proof.
  intros Hd. unfold WaveformWidget.get_time_at_x.
  destruct (Qeq_bool (WaveformWidget.duration self) 0) eqn:E0.
  - intros [= <-]. split; [apply Qle_refl|exact Hd].
  - destruct (Py.truediv _ (WaveformWidget.h_zoom self)) as [vd|];
      [|discriminate].
    destruct (Py.truediv (inject_Z x) (inject_Z width)) as [f|];
      [|discriminate].
    cbv zeta. intros [= <-]. apply clamp_range, Hd.
Qed.

(** X21: [get_time_at_x] never leaves the recording.  For a duration that is
    not negative the time it returns for any pixel, zoom and scroll offset
    is within [0, duration]; it raises only for a width or a zoom of zero.
    So the marker a left click adds lies within [0, duration], and the
    markers of the widget stay sorted and, if they were, within the
    duration. *)
Theorem get_time_at_x_within_duration (self : WaveformWidget.t) (width x : Z) :
  0 <= WaveformWidget.duration self ->
  (forall t, WaveformWidget.get_time_at_x self width x = Some t ->
     0 <= t /\ t <= WaveformWidget.duration self)
  /\ (width <> 0%Z -> ~ WaveformWidget.h_zoom self == 0 ->
      is_Some (WaveformWidget.get_time_at_x self width x))
  /\ (forall self' t,
        WaveformWidget.left_click_waveform self width x = Some (self', Some t) ->
        (0 <= t /\ t <= WaveformWidget.duration self)
        /\ WaveformWidget.markers self' ≡ₚ t :: WaveformWidget.markers self
        /\ Spec.is_sorted (WaveformWidget.markers self')
        /\ (Spec.in_range (WaveformWidget.duration self)
              (WaveformWidget.markers self) ->
            Spec.in_range (WaveformWidget.duration self')
              (WaveformWidget.markers self'))).
Proof.
  intros Hd. split; [|split].
  - intros t. apply get_time_at_x_in_range, Hd.
  - intros Hw Hz. unfold WaveformWidget.get_time_at_x.
    destruct (Qeq_bool (WaveformWidget.duration self) 0); [eexists; reflexivity|].
    rewrite (truediv_some _ _ Hz).
    rewrite truediv_some; [eexists; reflexivity|].
    intros E. unfold Qeq in E. simpl in E. lia.
  - intros self' t. unfold WaveformWidget.left_click_waveform.
    destruct (WaveformWidget.get_time_at_x self width x) as [time|] eqn:Et;
      [|discriminate].
    destruct (WaveformWidget._get_marker_at_x self width x) as [[m|]|];
      try discriminate.
    intros [= <- <-].
    pose proof (get_time_at_x_in_range self width x time Hd Et) as Ht.
    split; [exact Ht|].
    cbn [WaveformWidget.click_add_marker WaveformWidget.with_markers
         WaveformWidget.markers WaveformWidget.duration].
    split.
    { rewrite sorted_perm. symmetry. apply Permutation_cons_append. }
    split; [apply sorted_is_sorted|].
    intros Hr a Ha. rewrite sorted_perm in Ha.
    apply elem_of_app in Ha as [Ha|Ha]; [apply Hr, Ha|].
    apply list_elem_of_singleton in Ha as ->. exact Ht.
Qed.

Lemma get_time_at_x_within_duration_witness :
  let self := WaveformWidget.mk 10 [2 # 1000] 0 100 0 [] in
  WaveformWidget.left_click_waveform self 1000 50
  = Some (WaveformWidget.mk 10 [2 # 1000; 50000 # 10000000] 0 100 0 [],
          Some (50000 # 10000000))
  /\ 0 <= 50000 # 10000000 /\ 50000 # 10000000 <= 10.
Proof.
  intros self.
  assert (E : WaveformWidget.left_click_waveform self 1000 50
              = Some (WaveformWidget.mk 10 [2 # 1000; 50000 # 10000000] 0 100 0 [],
                      Some (50000 # 10000000))).
  { vm_compute. reflexivity. }
  split; [exact E|].
  destruct (get_time_at_x_within_duration self 1000 50) as (_ & _ & H).
  - vm_compute. discriminate.
  - destruct (H _ _ E) as (Ht & _). exact Ht.
Defined.

(** ** The markers of the widget and of the marker manager *)

Lemma widget_list_remove_eq (x : Q) (l : list Q) :
  WaveformWidget.list_remove x l = MarkerManager.list_remove x l.
Proof. induction l as [|y l IH]; simpl; [reflexivity|]. rewrite IH. reflexivity. Qed.

Lemma marker_at_x_loop_elem (self : WaveformWidget.t) (width x : Z)
  (ms : list Q) (m : Q) :
  WaveformWidget.marker_at_x_loop self width x ms = Some (Some m) -> m ∈ ms.
Proof.
  induction ms as [|y ms IH]; simpl; [discriminate|].
  destruct (WaveformWidget.get_x_at_time self width y) as [mx|]; [|discriminate].
  destruct (Z.abs (mx - x) <=? WaveformWidget.marker_grab_distance)%Z.
  - intros [= <-]. left.
  - intros H. right. exact (IH H).
Qed.

Lemma eps_unique_before (l1 l2 : list Q) (m : Q) :
  Spec.eps_unique (l1 ++ m :: l2) ->
  forall y, y ∈ l1 -> 1 # 100 <= Qabs (y - m).
Proof.
  intros H y Hy. apply list_elem_of_lookup in Hy as [i Hi].
  apply (H i (length l1) y m).
  - apply lookup_lt_Some in Hi. lia.
  - rewrite lookup_app_l by (apply lookup_lt_Some in Hi; exact Hi). exact Hi.
  - rewrite lookup_app_r by lia. rewrite Nat.sub_diag. reflexivity.
Qed.

Lemma near_self (m : Q) : MarkerManager.near (1 # 100) m m = true.
Proof.
  apply near_iff. assert (E0 : m - m == 0) by ring. rewrite E0. reflexivity.
Qed.

Lemma list_index_first (x : Q) (l : list Q) (i : nat) :
  WaveformWidget.list_index x l = Some i ->
  exists l1 y l2, l = l1 ++ y :: l2 /\ i = length l1 /\ y == x.
Proof.
  revert i. induction l as [|z l IH]; intros i; simpl; [discriminate|].
  destruct (Qeq_bool z x) eqn:E.
  - intros [= <-]. exists [], z, l. split; [reflexivity|].
    split; [reflexivity|]. apply Qeq_bool_eq, E.
  - destruct (WaveformWidget.list_index x l) as [j|]; [|discriminate].
    intros [= <-]. destruct (IH j eq_refl) as (l1 & y & l2 & -> & -> & Hy).
    exists (z :: l1), y, l2. split; [reflexivity|]. split; [reflexivity|exact Hy].
Qed.



(** X23: a right click and a drag keep the two lists in step.  From equal
    lists whose markers are at least 0.01 s apart, the marker a right click
    removes from the widget is the one [_on_marker_removed] removes from the
    marker manager, and the marker a drag step moves in the widget is the
    one [_on_marker_moved] moves: the lists are equal afterwards. *)
Theorem right_click_and_drag_lists (w : WaveformWidget.t)
  (mm : MarkerManager.t) :
  WaveformWidget.markers w = MarkerManager.markers mm ->
  Spec.eps_unique (MarkerManager.markers mm) ->
  (forall width x w' marker,
     WaveformWidget.right_click_waveform w width x = Some (w', Some marker) ->
     WaveformWidget.markers w'
     = MarkerManager.markers (App._on_marker_removed mm marker))
  /\ (forall old_time new_time w',
        WaveformWidget.drag_marker w old_time new_time = Some w' ->
        WaveformWidget.markers w'
        = MarkerManager.markers (App._on_marker_moved mm old_time new_time)).
Proof.
  intros Heq Hu. split.
  - intros width x w' marker. unfold WaveformWidget.right_click_waveform.
    destruct (WaveformWidget._get_marker_at_x w width x) as [[m|]|] eqn:Em;
      try discriminate.
    intros [= <- <-].
    apply marker_at_x_loop_elem in Em. rewrite Heq in Em.
    cbn [WaveformWidget.with_markers WaveformWidget.markers].
    rewrite Heq, widget_list_remove_eq.
    apply list_elem_of_split in Em as (l1 & l2 & E). rewrite E in Hu.
    assert (Hn : forall y, y ∈ l1 -> MarkerManager.near (1 # 100) m y = false).
    { intros y Hy. apply near_false_iff.
      exact (eps_unique_before l1 l2 m Hu y Hy). }
    unfold App._on_marker_removed, MarkerManager.remove_marker.
    rewrite E, (find_app_first _ l1 l2 m Hn (near_self m)). reflexivity.
  - intros old_time new_time w'. unfold WaveformWidget.drag_marker.
    destruct (WaveformWidget.list_index old_time (WaveformWidget.markers w))
      as [idx|] eqn:Ei; [|discriminate].
    intros [= <-]. cbn [WaveformWidget.with_markers WaveformWidget.markers].
    apply list_index_first in Ei as (l1 & y & l2 & E & -> & Hy).
    rewrite Heq in E. unfold App._on_marker_moved, MarkerManager.move_marker.
    rewrite Heq, E. rewrite E in Hu.
    assert (Hn : forall z, z ∈ l1 ->
              MarkerManager.near (1 # 100) old_time z = false).
    { intros z Hz. apply near_false_iff.
      pose proof (eps_unique_before l1 l2 y Hu z Hz) as H.
      assert (E1 : z - old_time == z - y) by (rewrite Hy; reflexivity).
      rewrite E1. exact H. }
    assert (Hm : MarkerManager.near (1 # 100) old_time y = true).
    { apply near_iff. assert (E0 : y - old_time == 0) by (rewrite Hy; ring).
      rewrite E0. reflexivity. }
    rewrite (find_index_app_first _ l1 l2 y Hn Hm). reflexivity.
Qed.

Lemma right_click_and_drag_lists_witness :
  let w := WaveformWidget.mk 10 [1; 2; 5] 0 1 0 [] in
  let mm := MarkerManager.mk [1; 2; 5] [] None 10 in
  WaveformWidget.markers (WaveformWidget.mk 10 [1; 5] 0 1 0 [])
  = MarkerManager.markers (App._on_marker_removed mm 2)
  /\ WaveformWidget.markers (WaveformWidget.mk 10 [1; 3; 5] 0 1 0 [])
     = MarkerManager.markers (App._on_marker_moved mm 2 3).
Proof.
  intros w mm.
  assert (Hu : Spec.eps_unique (MarkerManager.markers mm)).
  { intros i j a b Hij Ha Hb.
    destruct i as [|[|[|i]]]; destruct j as [|[|[|j]]]; try lia;
      simpl in Ha, Hb; try discriminate;
      injection Ha as <-; injection Hb as <-; vm_compute; discriminate. }
  destruct (right_click_and_drag_lists w mm eq_refl Hu) as [H1 H2].
  split.
  - apply (H1 1000%Z 200%Z). vm_compute. reflexivity.
  - apply (H2 2 3). vm_compute. reflexivity.
Defined.

(** ** The split under a pixel *)

Lemma widget_get_splits_zip (self : WaveformWidget.t) :
  WaveformWidget.markers self <> [] ->
  WaveformWidget._get_splits self
  = zip (0 :: WaveformWidget.markers self)
        (WaveformWidget.markers self ++ [WaveformWidget.duration self]).
Proof.
  unfold WaveformWidget._get_splits. intros Hne.
  destruct (WaveformWidget.markers self) as [|m0 ms] eqn:E; [congruence|].
  rewrite nth_pairs_zip, last_app_zip by discriminate. reflexivity.
Qed.

Lemma first_split_with_spec (t : Q) (splits : list (Q * Q)) :
  match WaveformWidget.first_split_with t splits with
  | Some i =>
      exists s e, splits !! i = Some (s, e) /\ s <= t /\ t <= e
        /\ forall j s' e', (j < i)%nat -> splits !! j = Some (s', e') ->
             ~ (s' <= t /\ t <= e')
  | None => forall s e, (s, e) ∈ splits -> ~ (s <= t /\ t <= e)
  end.
Proof.
  induction splits as [|[s e] splits IH]; simpl.
  - intros s e H. apply elem_of_nil in H as [].
  - destruct (Qle_bool s t && Qle_bool t e) eqn:E.
    + apply andb_true_iff in E as [E1 E2]. apply Qle_bool_iff in E1, E2.
      exists s, e. split; [reflexivity|]. split; [exact E1|].
      split; [exact E2|]. intros j s' e' Hj. lia.
    + assert (Hno : ~ (s <= t /\ t <= e)).
      { intros [H1 H2]. apply Qle_bool_iff in H1, H2. rewrite H1, H2 in E.
        discriminate. }
      destruct (WaveformWidget.first_split_with t splits) as [i|]; simpl.
      * destruct IH as (s0 & e0 & Hi & H1 & H2 & Hfirst).
        exists s0, e0. split; [exact Hi|]. split; [exact H1|].
        split; [exact H2|].
        intros [|j] s' e' Hj Hl; simpl in Hl.
        -- injection Hl as <- <-. exact Hno.
        -- apply (Hfirst j s' e'); [lia|exact Hl].
      * intros s' e' Hin. apply elem_of_cons in Hin as [[= -> ->]|Hin];
          [exact Hno|exact (IH s' e' Hin)].
Qed.

Lemma bounds_cover (ms : list Q) (a d t : Q) :
  a <= t -> t <= d ->
  exists s e, (s, e) ∈ zip (a :: ms) (ms ++ [d]) /\ s <= t /\ t <= e.
Proof.
  revert a. induction ms as [|m ms IH]; intros a Ha Hd.
  - exists a, d. split; [left|]. split; assumption.
  - destruct (Qlt_le_dec m t) as [Hlt|Hle].
    + destruct (IH m (Qlt_le_weak _ _ Hlt) Hd) as (s & e & Hin & H1 & H2).
      exists s, e. split; [right; exact Hin|]. split; assumption.
    + exists a, m. split; [left|]. split; assumption.
Qed.

(** X24: [_get_split_at_position] answers [None] for a [y] outside the
    splits lane.  Inside the lane, with at least one marker and a duration
    that is not negative, it always finds a split: the first split of
    [_get_splits] whose range holds the time under the pixel, so that a
    time that is a marker belongs to the split that ends there. *)
Theorem get_split_at_position_found (self : WaveformWidget.t) (width x y : Z) :
  ((y < WaveformWidget.ruler_height
    \/ WaveformWidget.ruler_height + WaveformWidget.splits_lane_height < y)%Z ->
   WaveformWidget._get_split_at_position self width x y = Some None)
  /\ ((WaveformWidget.ruler_height <= y
       <= WaveformWidget.ruler_height + WaveformWidget.splits_lane_height)%Z ->
      0 <= WaveformWidget.duration self ->
      WaveformWidget.markers self <> [] ->
      forall t, WaveformWidget.get_time_at_x self width x = Some t ->
        exists i s e,
          WaveformWidget._get_split_at_position self width x y = Some (Some i)
          /\ WaveformWidget._get_splits self !! i = Some (s, e)
          /\ s <= t /\ t <= e
          /\ forall j s' e', (j < i)%nat ->
               WaveformWidget._get_splits self !! j = Some (s', e') ->
               ~ (s' <= t /\ t <= e')).
Proof.
  unfold WaveformWidget._get_split_at_position. split.
  - intros Hy.
    destruct (Z.ltb_spec y WaveformWidget.ruler_height);
      destruct (Z.ltb_spec (WaveformWidget.ruler_height
                            + WaveformWidget.splits_lane_height) y);
      try reflexivity; lia.
  - intros Hy Hd Hne t Et.
    destruct (Z.ltb_spec y WaveformWidget.ruler_height); [lia|].
    destruct (Z.ltb_spec (WaveformWidget.ruler_height
                          + WaveformWidget.splits_lane_height) y); [lia|].
    cbn [orb]. rewrite Et.
    pose proof (first_split_with_spec t (WaveformWidget._get_splits self)) as Hs.
    destruct (WaveformWidget.first_split_with t (WaveformWidget._get_splits self))
      as [i|].
    + destruct Hs as (s & e & Hi & H1 & H2 & Hfirst).
      exists i, s, e. split; [reflexivity|]. split; [exact Hi|].
      split; [exact H1|]. split; [exact H2|exact Hfirst].
    + exfalso. destruct (get_time_at_x_in_range self width x t Hd Et) as [T0 T1].
      destruct (bounds_cover (WaveformWidget.markers self) 0
                  (WaveformWidget.duration self) t T0 T1) as (s & e & Hin & H1 & H2).
      rewrite <- (widget_get_splits_zip self Hne) in Hin.
      exact (Hs s e Hin (conj H1 H2)).
Qed.

Lemma get_split_at_position_found_witness :
  let self := WaveformWidget.mk 10 [2; 5] 0 1 0 [] in
  WaveformWidget._get_split_at_position self 1000 200 50 = Some (Some O)
  /\ WaveformWidget._get_split_at_position self 1000 200 10 = Some None.
Proof.
  intros self.
  destruct (get_split_at_position_found self 1000 200 50) as (_ & H1).
  destruct (get_split_at_position_found self 1000 200 10) as (H2 & _).
  split.
  - destruct (H1 ltac:(vm_compute; split; discriminate)
                ltac:(vm_compute; discriminate) ltac:(discriminate)
                (2000 # 1000) ltac:(vm_compute; reflexivity))
      as (i & s & e & E & _).
    rewrite E. vm_compute in E. symmetry. exact E.
  - apply H2. left. reflexivity.
Defined.

(** ** Scrolling to a time *)

Lemma visible_duration_bounds (d h : Q) :
  0 < d -> 1 < h -> 0 < d / h /\ d / h < d.
Proof.
  intros Hd Hh. assert (Hh0 : 0 < h) by lra. split.
  - apply Qlt_shift_div_l; [exact Hh0|]. lra.
  - apply Qlt_shift_div_r; [exact Hh0|].
    assert (E : d * h - d == d * (h - 1)) by ring.
    assert (H : 0 < d * (h - 1)) by (apply Qmult_lt_0_compat; lra).
    lra.
Qed.

Lemma offset_of_start (ns D : Q) :
  0 < D -> 0 <= ns -> ns <= D ->
  0 <= ns / D /\ ns / D <= 1 /\ ns / D * D == ns.
Proof.
  intros HD H0 H1. split; [|split].
  - apply Qle_shift_div_l; [exact HD|]. lra.
  - apply Qle_shift_div_r; [exact HD|]. lra.
  - unfold Qdiv. rewrite <- Qmult_assoc, (Qmult_comm (/ D)), Qmult_inv_r; [ring|].
    intros E. rewrite E in HD. apply (Qlt_irrefl 0), HD.
Qed.

(** X25: [ensure_time_visible] keeps the scroll offset within [0, 1] and
    leaves the time in view.  For a zoom above 1, a positive duration, an
    offset within [0, 1] and a time within [0, duration], the offset after
    the call is within [0, 1] and the time lies within the visible range
    that starts at [scroll_offset * (duration - visible_duration)]; when
    the call returns false nothing has changed. *)
Theorem ensure_time_visible_in_view (self : WaveformWidget.t) (time : Q) :
  0 < WaveformWidget.duration self ->
  1 < WaveformWidget.h_zoom self ->
  0 <= WaveformWidget.scroll_offset self ->
  WaveformWidget.scroll_offset self <= 1 ->
  0 <= time -> time <= WaveformWidget.duration self ->
  let r := WaveformWidget.ensure_time_visible self time in
  let visible_duration :=
    WaveformWidget.duration self / WaveformWidget.h_zoom self in
  let start_time :=
    WaveformWidget.scroll_offset (fst r)
    * (WaveformWidget.duration self - visible_duration) in
  0 <= WaveformWidget.scroll_offset (fst r)
  /\ WaveformWidget.scroll_offset (fst r) <= 1
  /\ start_time <= time /\ time <= start_time + visible_duration
  /\ (snd r = false -> fst r = self).
Proof.
  intros Hd Hh Ho0 Ho1 Ht0 Ht1. cbv zeta.
  unfold WaveformWidget.ensure_time_visible.
  assert (G1 : Qeq_bool (WaveformWidget.duration self) 0 = false).
  { destruct (Qeq_bool _ 0) eqn:E; [|reflexivity].
    apply Qeq_bool_eq in E. lra. }
  assert (G2 : Qle_bool (WaveformWidget.h_zoom self) 1 = false).
  { destruct (Qle_bool _ 1) eqn:E; [|reflexivity].
    apply Qle_bool_iff in E. lra. }
  rewrite G1, G2. cbn [orb]. cbv zeta.
  destruct (visible_duration_bounds _ _ Hd Hh) as [Hv0 Hv1].
  set (d := WaveformWidget.duration self) in *.
  set (vd := d / WaveformWidget.h_zoom self) in *.
  set (off := WaveformWidget.scroll_offset self) in *.
  assert (HD : 0 < d - vd) by lra.
  assert (Hst0 : 0 <= off * (d - vd)) by (apply Qmult_le_0_compat; lra).
  assert (Hst1 : off * (d - vd) <= d - vd).
  { assert (H : off * (d - vd) <= 1 * (d - vd))
      by (apply Qmult_le_compat_r; lra).
    lra. }
  assert (Ehalf : vd / 2 == vd * (1 # 2))
    by (unfold Qdiv; change (/ 2) with (1 # 2); reflexivity).
  set (half := vd / 2) in *. clearbody half. clearbody vd.
  destruct (Py.ltb time (off * (d - vd) + vd * (1 # 10))) eqn:B1.
  - apply ltb_lt in B1.
    cbn [fst snd WaveformWidget.with_scroll_offset WaveformWidget.scroll_offset].
    set (ns := Py.max 0 (time - half)).
    assert (Hns : 0 <= ns /\ ns <= d - vd /\ ns <= time /\ time <= ns + vd).
    { unfold ns. destruct (max_cases 0 (time - half)) as [[E H]|[E H]];
        rewrite E; repeat split; lra. }
    destruct Hns as (N0 & N1 & N2 & N3).
    destruct (offset_of_start ns (d - vd) HD N0 N1) as (O0 & O1 & O2).
    split; [exact O0|]. split; [exact O1|]. rewrite O2.
    split; [exact N2|]. split; [exact N3|]. discriminate.
  - apply ltb_ge in B1.
    destruct (Py.ltb (off * (d - vd) + vd - vd * (1 # 10)) time) eqn:B2.
    + apply ltb_lt in B2.
      cbn [fst snd WaveformWidget.with_scroll_offset
           WaveformWidget.scroll_offset].
      set (ns := Py.min (d - vd) (time - half)).
      assert (Hns : 0 <= ns /\ ns <= d - vd /\ ns <= time /\ time <= ns + vd).
      { unfold ns. destruct (min_cases (d - vd) (time - half)) as [[E H]|[E H]];
          rewrite E; repeat split; lra. }
      destruct Hns as (N0 & N1 & N2 & N3).
      destruct (offset_of_start ns (d - vd) HD N0 N1) as (O0 & O1 & O2).
      split; [exact O0|]. split; [exact O1|]. rewrite O2.
      split; [exact N2|]. split; [exact N3|]. discriminate.
    + apply ltb_ge in B2. cbn [fst snd]. fold off.
      split; [exact Ho0|]. split; [exact Ho1|].
      split; [lra|]. split; [lra|]. reflexivity.
Qed.

Lemma ensure_time_visible_in_view_witness :
  let self := WaveformWidget.mk 10 [] 0 4 0 [] in
  let r := WaveformWidget.ensure_time_visible self 9 in
  0 <= WaveformWidget.scroll_offset (fst r)
  /\ WaveformWidget.scroll_offset (fst r) <= 1
  /\ WaveformWidget.scroll_offset (fst r) * (10 - 10 / 4) <= 9
  /\ 9 <= WaveformWidget.scroll_offset (fst r) * (10 - 10 / 4) + 10 / 4.
Proof.
  intros self r.
  destruct (ensure_time_visible_in_view self 9) as (H1 & H2 & H3 & H4 & _);
    try (vm_compute; discriminate); try reflexivity.
  repeat split; assumption.
Defined.

(** ** The excluded indices *)

Lemma filter_combine_seq {A} (f : A -> bool) (l : list A) (k : nat) :
  map fst (List.filter (fun p => f (snd p)) (combine (seq k (length l)) l))
  = List.filter (fun i => match nth_error l (i - k) with
                          | Some x => f x
                          | None => false
                          end) (seq k (length l)).
Proof.
  revert k. induction l as [|x l IH]; intros k; [reflexivity|].
  cbn [length seq combine List.filter snd].
  rewrite Nat.sub_diag. cbn [nth_error].
  assert (E : List.filter
                (fun i => match nth_error (x :: l) (i - k) with
                          | Some y => f y
                          | None => false
                          end) (seq (S k) (length l))
              = List.filter
                  (fun i => match nth_error l (i - S k) with
                            | Some y => f y
                            | None => false
                            end) (seq (S k) (length l))).
  { apply filter_ext_in. intros i Hi. apply in_seq in Hi.
    replace (i - k)%nat with (S (i - S k)) by lia. reflexivity. }
  destruct (f x); cbn [map fst]; rewrite IH, E; reflexivity.
Qed.

(** X26: [get_excluded_splits] returns, in increasing order, exactly the
    indices for which [is_split_excluded] answers true: the indices of the
    current splits whose range is among the exclusions.  A range that
    belongs to no current split gives no index. *)
Theorem get_excluded_splits_is_split_excluded (self : MarkerManager.t) :
  MarkerManager.get_excluded_splits self
  = map Z.of_nat
      (List.filter (MarkerManager.is_split_excluded self)
         (seq 0 (length (MarkerManager._get_splits self)))).
Proof.
  unfold MarkerManager.get_excluded_splits. cbv zeta.
  rewrite <- (map_map fst Z.of_nat).
  rewrite (filter_combine_seq (MarkerManager.is_excluded self)).
  f_equal. apply filter_ext. intros i. rewrite Nat.sub_0_r. reflexivity.
Qed.

(** ** The pixel of a time *)

Lemma int_opp (x : Q) : Py.int (- x) = (- Py.int x)%Z.
Proof. unfold Py.int. destruct x as [n d]. simpl. apply Z.quot_opp_l. lia. Qed.

Lemma int_le (x y : Q) : x <= y -> (Py.int x <= Py.int y)%Z.
Proof.
  intros H. destruct (Qlt_le_dec x 0) as [Hx|Hx];
    destruct (Qlt_le_dec y 0) as [Hy|Hy].
  - assert (H1 : 0 <= - y) by lra.
    destruct (int_mono (- y) (- x) H1 ltac:(lra)) as [_ H2].
    rewrite !int_opp in H2. lia.
  - assert (H1 : 0 <= - x) by lra.
    destruct (int_mono 0 (- x) (Qle_refl 0) H1) as [_ H2].
    rewrite int_opp in H2.
    destruct (int_mono 0 y (Qle_refl 0) Hy) as [_ H3].
    change (Py.int 0) with 0%Z in H2, H3. lia.
  - lra.
  - apply int_mono; assumption.
Qed.

(** X27: [get_x_at_time] keeps the order of the times and stays inside the
    widget for a time in view.  For a positive duration, a zoom of at least
    1 and a width that is not negative, a later time is never drawn left of
    an earlier one, and a time within the visible range, from
    [scroll_offset * (duration - visible_duration)] on for
    [visible_duration], gets a pixel within [0, width]. *)
Theorem get_x_at_time_monotone (self : WaveformWidget.t) (width : Z) :
  0 < WaveformWidget.duration self ->
  1 <= WaveformWidget.h_zoom self ->
  (0 <= width)%Z ->
  let visible_duration :=
    WaveformWidget.duration self / WaveformWidget.h_zoom self in
  let start_time :=
    WaveformWidget.scroll_offset self
    * (WaveformWidget.duration self - visible_duration) in
  (forall time, is_Some (WaveformWidget.get_x_at_time self width time))
  /\ (forall t1 t2 x1 x2, t1 <= t2 ->
        WaveformWidget.get_x_at_time self width t1 = Some x1 ->
        WaveformWidget.get_x_at_time self width t2 = Some x2 ->
        (x1 <= x2)%Z)
  /\ (forall time x, start_time <= time ->
        time <= start_time + visible_duration ->
        WaveformWidget.get_x_at_time self width time = Some x ->
        (0 <= x <= width)%Z).
Proof.
  intros Hd Hh Hw. cbv zeta.
  assert (Hh0 : 0 < WaveformWidget.h_zoom self) by lra.
  assert (Hv : 0 < WaveformWidget.duration self / WaveformWidget.h_zoom self).
  { apply Qlt_shift_div_l; [exact Hh0|]. lra. }
  assert (G1 : Qeq_bool (WaveformWidget.duration self) 0 = false).
  { destruct (Qeq_bool _ 0) eqn:E; [|reflexivity].
    apply Qeq_bool_eq in E. lra. }
  assert (Hz : ~ WaveformWidget.h_zoom self == 0) by (intros E; lra).
  assert (Hw' : 0 <= inject_Z width).
  { change 0 with (inject_Z 0). rewrite <- Zle_Qle. exact Hw. }
  unfold WaveformWidget.get_x_at_time. rewrite G1, (truediv_some _ _ Hz).
  cbv zeta.
  set (vd := WaveformWidget.duration self / WaveformWidget.h_zoom self) in *.
  set (st := WaveformWidget.scroll_offset self
             * (WaveformWidget.duration self - vd)).
  clearbody st. clearbody vd.
  assert (Hvz : ~ vd == 0) by (intros E; lra).
  assert (Hiv : 0 < / vd) by (apply Qinv_lt_0_compat, Hv).
  split; [|split].
  - intros time. rewrite (truediv_some _ _ Hvz). eexists. reflexivity.
  - intros t1 t2 x1 x2 Ht. rewrite !(truediv_some _ _ Hvz).
    intros [= <-] [= <-]. apply int_le.
    apply Qmult_le_compat_r; [|exact Hw'].
    unfold Qdiv. apply Qmult_le_compat_r; [lra|]. apply Qlt_le_weak, Hiv.
  - intros time x H1 H2. rewrite (truediv_some _ _ Hvz). intros [= <-].
    assert (F0 : 0 <= (time - st) / vd).
    { apply Qle_shift_div_l; [exact Hv|]. lra. }
    assert (F1 : (time - st) / vd <= 1).
    { apply Qle_shift_div_r; [exact Hv|]. lra. }
    assert (P0 : 0 <= (time - st) / vd * inject_Z width)
      by (apply Qmult_le_0_compat; assumption).
    assert (P1 : (time - st) / vd * inject_Z width <= inject_Z width).
    { assert (H : (time - st) / vd * inject_Z width <= 1 * inject_Z width)
        by (apply Qmult_le_compat_r; assumption).
      lra. }
    destruct (int_mono _ _ P0 P1) as [I0 I1]. split; [exact I0|].
    assert (Ew : Py.int (inject_Z width) = width).
    { rewrite int_floor by exact Hw'. apply Qfloor_Z. }
    lia.
Qed.

Lemma get_x_at_time_monotone_witness :
  let self := WaveformWidget.mk 10 [2; 5] 0 4 (1 # 2) [] in
  WaveformWidget.get_x_at_time self 1000 5 = Some 500%Z
  /\ (0 <= 500 <= 1000)%Z.
Proof.
  intros self.
  assert (E : WaveformWidget.get_x_at_time self 1000 5 = Some 500%Z)
    by (vm_compute; reflexivity).
  split; [exact E|].
  destruct (get_x_at_time_monotone self 1000) as (_ & _ & H);
    try (vm_compute; discriminate); try reflexivity.
  apply (H 5); [vm_compute; discriminate|vm_compute; discriminate|exact E].
Defined.

(** ** Loading a file and placing the markers *)

(** X28: loading a file and letting the application place the markers gives
    a valid marker list.  After [load_audio] has succeeded with a positive
    sample rate and [_load_audio_delayed] has reset the marker manager, and
    when the level analysis gives one frame for each hop of 512 samples and
    one more, [_detect_silence_delayed] with a minimum silence duration of
    at least 0.01 s leaves, whatever the answer, markers that are sorted,
    at least 0.01 s apart and within [0, audio_duration], and no
    exclusion. *)
Theorem load_then_detect_invariants (lib : AudioProcessor.Lib)
  (ap0 ap : AudioProcessor.t) (audio : AudioProcessor.ndarray) (sr : Z)
  (path basename : string) (r : bool * AudioProcessor.load_message)
  (mm0 : MarkerManager.t) (threshold min_duration : Q) (reply_yes : bool) :
  AudioProcessor.load_audio ap0 (inr (audio, sr)) path = (ap, r) ->
  (0 < sr)%Z ->
  length (AudioProcessor.rms_db lib (AudioProcessor.to_mono audio))
  = S (AudioProcessor.frames audio / 512) ->
  1 # 100 <= min_duration ->
  let mm := App.reset_for_audio mm0 basename ap in
  let mm' :=
    App._detect_silence_delayed lib ap mm threshold min_duration reply_yes in
  Spec.marker_invariants mm'
  /\ MarkerManager.excluded_splits mm' = []
  /\ MarkerManager.audio_duration mm' = AudioProcessor.duration ap
  /\ MarkerManager.audio_filename mm' = Some basename.
Proof.
  intros Hload Hsr Hframes Hmin mm mm'.
  pose proof (load_audio_last_frame ap0 ap audio sr path r _ Hload Hsr Hframes)
    as Hlast.
  assert (Ha : AudioProcessor.audio_data ap = Some audio).
  { injection Hload as <- _. reflexivity. }
  assert (Hsr' : (0 < AudioProcessor.sample_rate ap)%Z).
  { injection Hload as <- _. exact Hsr. }
  assert (Hmm : Spec.marker_invariants mm
                /\ MarkerManager.excluded_splits mm = []
                /\ MarkerManager.audio_duration mm = AudioProcessor.duration ap
                /\ MarkerManager.audio_filename mm = Some basename).
  { split; [|repeat split].
    unfold Spec.marker_invariants, mm. cbn. split; [|split].
    - intros i j a b _ H. rewrite lookup_nil in H. discriminate.
    - intros i j a b _ H. rewrite lookup_nil in H. discriminate.
    - intros a H. apply elem_of_nil in H as []. }
  subst mm'. unfold App._detect_silence_delayed. cbv zeta.
  destruct (detect_silence_regions_bounds lib ap audio threshold min_duration
              Ha Hsr' Hlast) as (Hlen & Hod & Hbound).
  destruct (AudioProcessor.detect_silence lib ap threshold min_duration)
    as [|p ps]; [exact Hmm|].
  destruct reply_yes; [|exact Hmm].
  assert (Hlen' : forall q, q ∈ p :: ps -> 1 # 100 <= snd q - fst q).
  { intros q Hq. specialize (Hlen q Hq). lra. }
  rewrite (place_markers_fold mm (p :: ps) Hlen' Hod).
  destruct (middles_invariants (p :: ps) (AudioProcessor.duration ap)
              Hlen' Hod Hbound) as (I1 & I2 & I3).
  unfold Spec.marker_invariants.
  cbn [MarkerManager.markers MarkerManager.with_markers
       MarkerManager.excluded_splits MarkerManager.clear_markers
       MarkerManager.audio_duration MarkerManager.audio_filename].
  destruct Hmm as (_ & _ & Ed & Ef). rewrite Ed, Ef.
  split; [|repeat split].
  split; [exact I1|]. split; [exact I2|exact I3].
Qed.

Lemma load_then_detect_invariants_witness :
  let lib :=
    AudioProcessor.mkLib (fun y => [-50; -50; 0]) (fun y _ _ => y)
      (fun _ => true) (fun _ => true) (fun _ => true) in
  let audio := AudioProcessor.Mono (repeat 0 1200) in
  let ap := AudioProcessor.mk (Some audio) 512 (inject_Z 1200 / inject_Z 512)
              (Some "a.wav"%string) in
  let mm' :=
    App._detect_silence_delayed lib ap
      (App.reset_for_audio MarkerManager.init "a.wav" ap) (-40) 1 true in
  Spec.marker_invariants mm'
  /\ MarkerManager.excluded_splits mm' = []
  /\ MarkerManager.audio_duration mm' = AudioProcessor.duration ap
  /\ MarkerManager.audio_filename mm' = Some "a.wav"%string.
Proof.
  intros lib audio ap mm'.
  apply (load_then_detect_invariants lib AudioProcessor.init ap audio 512
           "a.wav" "a.wav"
           (true, AudioProcessor.LoadedSuccessfully "a.wav")
           MarkerManager.init (-40) 1 true).
  - reflexivity.
  - reflexivity.
  - reflexivity.
  - vm_compute. discriminate.
Defined.
